(** * Nachos file header with a second-level index: allocation, growth,
      release and offset translation (filesys/filehdr.cc)

    The development embeds [FileHeader::Allocate], [AllocateWithIndex],
    [Deallocate], [DeallocateWithIndex], [ByteToSector],
    [ByteToSectorWithIndex] and [addLength] as programs of a small
    state-and-error monad, and proves the properties the design document
    states about them.

    Modelling conventions.
    - A C++ [int] is a [Z].  No computation below leaves the range of a
      32-bit int for the sizes the theorems speak about, so wrap-around
      (undefined for signed ints in C++) is not modelled.  [/] and [%] on
      ints are [Z.quot] and [Z.rem] (truncation towards zero).
    - The arrays [dataSectors[NumFirst]] (header) and
      [dataSectors[NumSecond]] (index node) are lists; an access outside
      the array is undefined behaviour in C++ and yields the outcome
      [Undef].
    - [ASSERT] failing halts the machine: outcome [AssertFail].
    - The constants [SectorSize], [NumFirst] and [NumSecond] come from
      headers that are not part of the sources at hand; they are
      parameters of the whole development. *)

From Stdlib Require Import ZArith Lia.
From stdpp Require Import base list gmap.

Local Open Scope Z_scope.

(** ** Data *)

(** [class SecondNode { int dataSectors[NumSecond]; }] *)
Abbreviation SecondNode := (list Z) (only parsing).

(** [class FileHeader]: the private fields the code reads and writes. *)
Record FileHeader := mkFileHeader {
  numBytes : Z;
  numSectors : Z;
  useIndex : bool;
  dataSectors : list Z
}.

(** What a disk sector holds, as far as this module is concerned.  The
    code writes raw bytes; reading a sector back at the other type would
    depend on the memory layout and is outside the model. *)
Inductive SectorImage :=
  | HeaderImage (h : FileHeader)
  | NodeImage (n : SecondNode).

(** Modelled from the spec: the free-space bitmap (class BitMap, whose
    source is not part of the sources at hand).  One bit per disk sector,
    [true] = allocated.  The contract is [find -> sector | none],
    [clear(sector)], [test(sector) -> bool], [count_clear() -> uint]. *)
Abbreviation BitMap := (list bool) (only parsing).

(** The machine state the methods of [FileHeader] act on:
    [this] is the header object, [freeMap] the in-memory bitmap object the
    code calls [freeMap], [synchDisk] the disk, and [freeMapFile] the
    bitmap as persisted in its backing file. *)
Record Machine := mkMachine {
  this : FileHeader;
  freeMap : BitMap;
  synchDisk : gmap Z SectorImage;
  freeMapFile : BitMap
}.

(** ** Bitmap operations *)

(** Modelled from the spec: the position of a clear bit, if there is one
    (the lowest, as a scan from sector 0 finds it). *)
Fixpoint first_clear (bm : BitMap) : option nat :=
  match bm with
  | [] => None
  | b :: rest => if b then S <$> first_clear rest else Some O
  end.

(** Modelled from the spec: [find] returns a clear bit and sets it, or
    reports that there is none.  The callers store the result in an [int]
    without looking at it; "none" is the int [-1]. *)
Definition bm_find (bm : BitMap) : Z * BitMap :=
  match first_clear bm with
  | Some i => (Z.of_nat i, <[i := true]> bm)
  | None => (-1, bm)
  end.

(** Modelled from the spec: [test(sector)].  A number that is not a
    sector of the disk is not marked. *)
Definition bm_test (bm : BitMap) (which : Z) : bool :=
  if which <? 0 then false else default false (bm !! Z.to_nat which).

(** Modelled from the spec: [clear(sector)]. *)
Definition bm_clear (bm : BitMap) (which : Z) : BitMap :=
  if which <? 0 then bm else <[Z.to_nat which := false]> bm.

(** Modelled from the spec: the number of clear bits. *)
Fixpoint count_clear (bm : BitMap) : nat :=
  match bm with
  | [] => O
  | b :: rest => ((if b then 0 else 1) + count_clear rest)%nat
  end.

(** Modelled from the spec: [count_clear()]. *)
Definition bm_numClear (bm : BitMap) : Z := Z.of_nat (count_clear bm).

(** Modelled from the spec: the macro [divRoundUp(n, s)] (utility.h is
    not part of the sources at hand) computes [ceil(n / s)]. *)
Definition divRoundUp (n s : Z) : Z := (n + s - 1) `div` s.

(** ** The monad: state, assertion failure, undefined behaviour *)

Inductive Outcome (A : Type) : Type :=
  | Ret (a : A) (m : Machine)
  | AssertFail (m : Machine)
  | Undef (m : Machine).
Arguments Ret {A} a m.
Arguments AssertFail {A} m.
Arguments Undef {A} m.

Definition M (A : Type) : Type := Machine → Outcome A.

Definition ret {A} (a : A) : M A := λ m, Ret a m.

Definition bind {A B} (c : M A) (k : A → M B) : M B :=
  λ m, match c m with
       | Ret a m' => k a m'
       | AssertFail m' => AssertFail m'
       | Undef m' => Undef m'
       end.

Declare Scope prog_scope.
Delimit Scope prog_scope with prog.
Notation "x <- c1 ;; c2" := (bind c1 (λ x, c2))
  (at level 100, c1 at next level, right associativity) : prog_scope.
Notation "c1 ;; c2" := (bind c1 (λ _, c2))
  (at level 100, right associativity) : prog_scope.
Local Open Scope prog_scope.

Definition gets {A} (f : Machine → A) : M A := λ m, Ret (f m) m.
Definition modify (f : Machine → Machine) : M unit := λ m, Ret tt (f m).
Definition undefined {A} : M A := λ m, Undef m.

(** [ASSERT(cond)] *)
Definition ASSERT (cond : bool) : M unit :=
  λ m, if cond then Ret tt m else AssertFail m.

(** [for (int i = lo; i < hi; i++) body], where the body does not change
    [hi]; [a] is the local the body updates. *)
Fixpoint iter {A} (n : nat) (i : Z) (body : Z → A → M A) (a : A) : M A :=
  match n with
  | O => ret a
  | S n' => a' <- body i a ;; iter n' (i + 1) body a'
  end.

Definition for_fold {A} (lo hi : Z) (body : Z → A → M A) (a : A) : M A :=
  iter (Z.to_nat (hi - lo)) lo body a.

Definition for_ (lo hi : Z) (body : Z → M unit) : M unit :=
  for_fold lo hi (λ i _, body i) tt.

(** ** Field and array accesses *)

Definition with_this (f : FileHeader → FileHeader) (m : Machine) : Machine :=
  mkMachine (f (this m)) (freeMap m) (synchDisk m) (freeMapFile m).

Definition set_numBytes (v : Z) : M unit :=
  modify (with_this (λ h, mkFileHeader v (numSectors h) (useIndex h) (dataSectors h))).
Definition set_numSectors (v : Z) : M unit :=
  modify (with_this (λ h, mkFileHeader (numBytes h) v (useIndex h) (dataSectors h))).
Definition set_useIndex (v : bool) : M unit :=
  modify (with_this (λ h, mkFileHeader (numBytes h) (numSectors h) v (dataSectors h))).
Definition set_dataSectors (v : list Z) : M unit :=
  modify (with_this (λ h, mkFileHeader (numBytes h) (numSectors h) (useIndex h) v)).

(** [a[i]] as an rvalue, for an [int] array [a]. *)
Definition array_get (a : list Z) (i : Z) : M Z :=
  if i <? 0 then undefined
  else match a !! Z.to_nat i with
       | Some v => ret v
       | None => undefined
       end.

(** [a[i] = v], giving the updated array. *)
Definition array_set (a : list Z) (i v : Z) : M (list Z) :=
  if (0 <=? i) && (i <? Z.of_nat (length a)) then ret (<[Z.to_nat i := v]> a)
  else undefined.

(** [dataSectors[i]] and [dataSectors[i] = v] on the header. *)
Definition slot_read (i : Z) : M Z :=
  a <- gets (λ m, dataSectors (this m)) ;; array_get a i.
Definition slot_write (i v : Z) : M unit :=
  a <- gets (λ m, dataSectors (this m)) ;;
  a' <- array_set a i v ;;
  set_dataSectors a'.

(** ** Collaborators *)

Definition with_freeMap (f : BitMap → BitMap) (m : Machine) : Machine :=
  mkMachine (this m) (f (freeMap m)) (synchDisk m) (freeMapFile m).

(** Modelled from the spec: the calls [freeMap->NumClear()],
    [freeMap->Find()], [freeMap->Test(which)] and [freeMap->Clear(which)]
    on the bitmap object. *)
Definition NumClear : M Z := gets (λ m, bm_numClear (freeMap m)).
Definition Find : M Z :=
  λ m, Ret (fst (bm_find (freeMap m))) (with_freeMap (λ bm, snd (bm_find bm)) m).
Definition Test (which : Z) : M bool := gets (λ m, bm_test (freeMap m) which).
Definition Clear (which : Z) : M unit :=
  modify (with_freeMap (λ bm, bm_clear bm which)).

(** Modelled from the spec: [load_from] and [store_to] of the bitmap,
    that is [freeMap = new BitMap(NumSectors); freeMap->FetchFrom(freeMapFile)]
    and [freeMap->WriteBack(freeMapFile)]. *)
Definition FetchFrom_freeMapFile : M unit :=
  modify (λ m, mkMachine (this m) (freeMapFile m) (synchDisk m) (freeMapFile m)).
Definition WriteBack_freeMapFile : M unit :=
  modify (λ m, mkMachine (this m) (freeMap m) (synchDisk m) (freeMap m)).

(** Modelled from the spec: the block store (class SynchDisk, whose source
    is not part of the sources at hand), [write_sector] and [read_sector]
    of whole sectors addressed by sector number.
    [synchDisk->WriteSector(sector, data)]: sectors are addressed by
    non-negative integers; any other address is outside the model. *)
Definition WriteSector (sector : Z) (img : SectorImage) : M unit :=
  if sector <? 0 then undefined
  else modify (λ m, mkMachine (this m) (freeMap m)
                      (<[sector := img]> (synchDisk m)) (freeMapFile m)).

(** Modelled from the spec: the index node stored in a sector, if the
    sector holds one. *)
Definition disk_node (d : gmap Z SectorImage) (sector : Z) : option SecondNode :=
  if sector <? 0 then None
  else match d !! sector with
       | Some (NodeImage n) => Some n
       | _ => None
       end.

(** Modelled from the spec:
    [synchDisk->ReadSector(sector, (char * )node)] into a [SecondNode]. *)
Definition ReadSector (sector : Z) : M SecondNode :=
  λ m, match disk_node (synchDisk m) sector with
       | Some n => Ret n m
       | None => Undef m
       end.

(** [FileHeader::WriteBack(sector)] *)
Definition WriteBack (sector : Z) : M unit :=
  h <- gets this ;; WriteSector sector (HeaderImage h).

(** ** Example machines

    The design document's illustrative configuration is [SectorSize = 128],
    [NumFirst = 30], [NumSecond = 32]; the disk has 1024 sectors, of which
    sectors 0 and 1 hold the headers of the bitmap file and of the
    directory. *)

Definition example_map : BitMap := true :: true :: replicate 1022 false.

(** A header of an empty file, before any sector is drawn. *)
Definition empty_file : Machine :=
  mkMachine (mkFileHeader 0 0 false (replicate 30 0)) example_map ∅ example_map.

(** A direct file of 1280 bytes in the sectors 2 to 11. *)
Definition ten_sectors_header : FileHeader :=
  mkFileHeader 1280 10 false ([2; 3; 4; 5; 6; 7; 8; 9; 10; 11] ++ replicate 20 0).

Definition ten_sectors_map : BitMap := replicate 12 true ++ replicate 1012 false.

(** ... as [Allocate] leaves it (the bitmap not yet written back), ... *)
Definition ten_sectors_fresh : Machine :=
  mkMachine ten_sectors_header ten_sectors_map ∅ example_map.

(** ... with the bitmap written back, ... *)
Definition ten_sectors : Machine :=
  mkMachine ten_sectors_header ten_sectors_map ∅ ten_sectors_map.

(** ... after [Deallocate], ... *)
Definition ten_sectors_released : Machine :=
  mkMachine ten_sectors_header example_map ∅ ten_sectors_map.

(** ... and on a disk without a free sector. *)
Definition ten_sectors_full_disk : Machine :=
  mkMachine ten_sectors_header (replicate 1024 true) ∅ (replicate 1024 true).

(** An indexed file of 5000 bytes as [Allocate] builds it on the empty
    disk, the bitmap written back: 40 data sectors under the index nodes
    in the sectors 2 and 35. *)
Definition forty_sectors_layout : list (Z * list Z) :=
  [(2, seqZ 3 32); (35, seqZ 36 8)].

Definition forty_sectors_map : BitMap := replicate 44 true ++ replicate 980 false.

Definition forty_sectors : Machine :=
  mkMachine (mkFileHeader 5000 40 true ([2; 35] ++ replicate 28 0))
    forty_sectors_map
    (<[35 := NodeImage (seqZ 36 8 ++ replicate 24 0)]>
       (<[2 := NodeImage (seqZ 3 32)]> ∅))
    forty_sectors_map.

(** ** The methods of FileHeader *)

Section FileHeader.

Variables SectorSize NumFirst NumSecond : Z.

(** The content of freshly allocated, uninitialised memory: every [int]
    of a [new SecondNode] reads as [uninit].  Nothing proved below depends
    on its value. *)
Variable uninit : Z.

Definition new_SecondNode : SecondNode := replicate (Z.to_nat NumSecond) uninit.

(** The inner loops of [AllocateWithIndex] and [addLength]:
    [for (j = lo; j < hi; j++) node->dataSectors[j] = freeMap->Find();] *)
Definition fill_node (lo hi : Z) (node : SecondNode) : M SecondNode :=
  for_fold lo hi (λ j node, v <- Find ;; array_set node j v) node.

Definition AllocateWithIndex (fileSize : Z) : M bool :=
  set_useIndex true ;;
  set_numBytes fileSize ;;
  set_numSectors (divRoundUp fileSize SectorSize) ;;
  nS <- gets (λ m, numSectors (this m)) ;;
  let numNode := divRoundUp nS NumSecond in
  clear <- NumClear ;;
  if clear <? nS + numNode then ret false
  else
    for_ 0 numNode (λ i,
      sector <- Find ;;
      slot_write i sector ;;
      node <- (if i <? numNode - 1
               then fill_node 0 NumSecond new_SecondNode
               else fill_node 0 (nS - NumSecond * (numNode - 1)) new_SecondNode) ;;
      WriteSector sector (NodeImage node)) ;;
    ret true.

Definition Allocate (fileSize : Z) : M bool :=
  set_numBytes fileSize ;;
  set_numSectors (divRoundUp fileSize SectorSize) ;;
  nS <- gets (λ m, numSectors (this m)) ;;
  if nS >? NumFirst then AllocateWithIndex fileSize
  else
    set_useIndex false ;;
    clear <- NumClear ;;
    if clear <? nS then ret false
    else
      for_ 0 nS (λ i, s <- Find ;; slot_write i s) ;;
      ret true.

(** [ASSERT(freeMap->Test(e)); freeMap->Clear(e);] for the entries
    [node->dataSectors[j]], [lo <= j < hi]. *)
Definition free_entries (hi : Z) (snode : SecondNode) : M unit :=
  for_ 0 hi (λ j,
    e <- array_get snode j ;;
    b <- Test e ;;
    ASSERT b ;;
    e' <- array_get snode j ;;
    Clear e').

Definition DeallocateWithIndex : M unit :=
  nS <- gets (λ m, numSectors (this m)) ;;
  let numNode := divRoundUp nS NumSecond in
  for_ 0 numNode (λ i,
    s <- slot_read i ;;
    snode <- ReadSector s ;;
    (if i <? numNode - 1
     then free_entries NumSecond snode
     else free_entries (nS - NumSecond * (numNode - 1)) snode) ;;
    s1 <- slot_read i ;;
    b <- Test s1 ;;
    ASSERT b ;;
    s2 <- slot_read i ;;
    Clear s2).

Definition Deallocate : M unit :=
  ui <- gets (λ m, useIndex (this m)) ;;
  if ui then DeallocateWithIndex
  else
    nS <- gets (λ m, numSectors (this m)) ;;
    for_ 0 nS (λ i,
      s1 <- slot_read i ;;
      b <- Test s1 ;;
      ASSERT b ;;
      s2 <- slot_read i ;;
      Clear s2).

Definition ByteToSectorWithIndex (offset : Z) : M Z :=
  let whichSector := offset `quot` SectorSize in
  let whichNode := whichSector `quot` NumSecond in
  s <- slot_read whichNode ;;
  node <- ReadSector s ;;
  array_get node (whichSector - whichNode * NumSecond).

Definition ByteToSector (offset : Z) : M Z :=
  ui <- gets (λ m, useIndex (this m)) ;;
  if ui then ByteToSectorWithIndex offset
  else slot_read (offset `quot` SectorSize).

(** [addLength]: the parameter [freeMapFile] of the source is the field
    [freeMapFile] of the machine.  The loop that fills the previously last
    node runs while [i < NumSecond && i < numSectors - (oldNumNode - 1) * NumSecond],
    that is up to the smaller of the two bounds. *)
Definition addLength (addBytes headSector : Z) : M bool :=
  nb <- gets (λ m, numBytes (this m)) ;;
  set_numBytes (nb + addBytes) ;;
  oldNumSectors <- gets (λ m, numSectors (this m)) ;;
  nb' <- gets (λ m, numBytes (this m)) ;;
  set_numSectors (divRoundUp nb' SectorSize) ;;
  nS <- gets (λ m, numSectors (this m)) ;;
  if nS - oldNumSectors =? 0 then
    WriteBack headSector ;;
    ret true
  else
    FetchFrom_freeMapFile ;;
    if nS <=? NumFirst then
      for_ oldNumSectors nS (λ i, s <- Find ;; slot_write i s) ;;
      WriteBack_freeMapFile ;;
      WriteBack headSector ;;
      ret true
    else
      ui <- gets (λ m, useIndex (this m)) ;;
      (if (nS >? NumFirst) && negb ui then
         sec <- Find ;;
         snode <- for_fold 0 oldNumSectors
                    (λ i snode, v <- slot_read i ;; array_set snode i v)
                    new_SecondNode ;;
         slot_write 0 sec ;;
         WriteSector sec (NodeImage snode) ;;
         set_useIndex true
       else ret tt) ;;
      let oldNumNode := divRoundUp oldNumSectors NumSecond in
      let numNode := divRoundUp nS NumSecond in
      (if negb (oldNumSectors `rem` NumSecond =? 0) then
         s <- slot_read (oldNumNode - 1) ;;
         snode <- ReadSector s ;;
         snode' <- fill_node (oldNumSectors - (oldNumNode - 1) * NumSecond)
                     (Z.min NumSecond (nS - (oldNumNode - 1) * NumSecond))
                     snode ;;
         s' <- slot_read (oldNumNode - 1) ;;
         WriteSector s' (NodeImage snode')
       else ret tt) ;;
      for_ oldNumNode numNode (λ i,
        sec <- Find ;;
        slot_write i sec ;;
        snode <- (if i <? numNode - 1
                  then fill_node 0 NumSecond new_SecondNode
                  else fill_node 0 (nS - NumSecond * (numNode - 1)) new_SecondNode) ;;
        WriteSector sec (NodeImage snode)) ;;
      WriteBack headSector ;;
      WriteBack_freeMapFile ;;
      ret true.

(** ** Specification vocabulary *)

(** [node_entries numNode nS i]: how many entries of the index node at
    position [i] are in use, as the code computes it in every loop over
    the nodes. *)
Definition node_entries (numNode nS i : Z) : Z :=
  if i <? numNode - 1 then NumSecond else nS - NumSecond * (numNode - 1).

(** The body of the loops over index nodes in [AllocateWithIndex] and
    [addLength] (the two are the same code). *)
Definition new_node (numNode nS i : Z) : M unit :=
  sector <- Find ;;
  slot_write i sector ;;
  node <- (if i <? numNode - 1
           then fill_node 0 NumSecond new_SecondNode
           else fill_node 0 (nS - NumSecond * (numNode - 1)) new_SecondNode) ;;
  WriteSector sector (NodeImage node).

(** Sectors needed by the nodes at positions [i, i + n). *)
Fixpoint nodes_need (numNode nS : Z) (n : nat) (i : Z) : Z :=
  match n with
  | O => 0
  | S n' => 1 + node_entries numNode nS i + nodes_need numNode nS n' (i + 1)
  end.

(** The offset translation as the design document words it:
    direct mode [slots[offset / SectorBytes]]; indexed mode
    [entries[which_sector - which_node * NumSecond]] of the index node
    read at [slots[which_node]].  Division is the mathematical one. *)
Definition sector_of_spec (m : Machine) (offset : Z) : option Z :=
  let slots := dataSectors (this m) in
  let which_sector := offset `div` SectorSize in
  if useIndex (this m) then
    let which_node := which_sector `div` NumSecond in
    s ← slots !! Z.to_nat which_node;
    entries ← disk_node (synchDisk m) s;
    entries !! Z.to_nat (which_sector - which_node * NumSecond)
  else slots !! Z.to_nat which_sector.

(** Invariant 1 of the design document:
    [sector_count = ceil(logical_size / SectorBytes)]. *)
Definition sector_count_ok (h : FileHeader) : Prop :=
  SectorSize * (numSectors h - 1) < numBytes h <= SectorSize * numSectors h.

(** The layout-mode flag agrees with the sector count. *)
Definition mode_ok (h : FileHeader) : Prop :=
  useIndex h = true ↔ NumFirst < numSectors h.

(** The blocks of [addLength] after the direct-growth branch, named:
    migration of a direct header to an index node, ... *)
Definition migrate (oldNumSectors : Z) : M unit :=
  sec <- Find ;;
  snode <- for_fold 0 oldNumSectors
             (λ i snode, v <- slot_read i ;; array_set snode i v)
             new_SecondNode ;;
  slot_write 0 sec ;;
  WriteSector sec (NodeImage snode) ;;
  set_useIndex true.

(** ... and filling the rest of the previously last index node. *)
Definition fill_last_node (oldNumSectors nS : Z) : M unit :=
  let oldNumNode := divRoundUp oldNumSectors NumSecond in
  s <- slot_read (oldNumNode - 1) ;;
  snode <- ReadSector s ;;
  snode' <- fill_node (oldNumSectors - (oldNumNode - 1) * NumSecond)
              (Z.min NumSecond (nS - (oldNumNode - 1) * NumSecond))
              snode ;;
  s' <- slot_read (oldNumNode - 1) ;;
  WriteSector s' (NodeImage snode').

(** [drawn bm l bm']: the sectors [l], pairwise distinct, were clear in
    [bm], are set in [bm'], and nothing else changed. *)
Definition drawn (bm : BitMap) (l : list Z) (bm' : BitMap) : Prop :=
  NoDup l ∧
  (∀ v, v ∈ l → 0 <= v ∧ bm_test bm v = false ∧ bm_test bm' v = true) ∧
  (∀ v, v ∉ l → bm_test bm' v = bm_test bm v) ∧
  bm_numClear bm' = bm_numClear bm - Z.of_nat (length l).

(** The dual: the sectors [l] were set in [bm] and are clear in [bm']. *)
Definition released (bm : BitMap) (l : list Z) (bm' : BitMap) : Prop :=
  (∀ v, v ∈ l → bm_test bm v = true ∧ bm_test bm' v = false) ∧
  (∀ v, v ∉ l → bm_test bm' v = bm_test bm v) ∧
  bm_numClear bm' = bm_numClear bm + Z.of_nat (length l).

(** [same_counts x y]: the header of [y] has the size, sector count and
    mode flag of the header of [x]. *)
Definition same_counts (x y : Machine) : Prop :=
  numBytes (this y) = numBytes (this x) ∧
  numSectors (this y) = numSectors (this x) ∧
  useIndex (this y) = useIndex (this x).

(** [only_clears x y]: from [x] to [y] only the bitmap changed, and only
    by clearing bits. *)
Definition only_clears (x y : Machine) : Prop :=
  this y = this x ∧ synchDisk y = synchDisk x ∧
  ∀ v, bm_test (freeMap y) v = true → bm_test (freeMap x) v = true.

(** [preserves R c]: whenever [c] returns, initial and final state are
    related by [R]. *)
Definition preserves {A} (R : Machine → Machine → Prop) (c : M A) : Prop :=
  ∀ x a y, c x = Ret a y → R x y.

(** [ASSERT(freeMap->Test(e)); freeMap->Clear(e)] for each [e] of a list,
    in order: what both deallocation loops do with the sectors they reach. *)
Fixpoint free_list (l : list Z) : M unit :=
  match l with
  | [] => ret tt
  | e :: rest => b <- Test e ;; ASSERT b ;; Clear e ;; free_list rest
  end.

(** An indexed file as a list of (sector of the index node, data sectors
    in the node's used entries), in node order; [flat] lists all its
    sectors in the order [AllocateWithIndex] draws them, [release_order]
    in the order [DeallocateWithIndex] clears them. *)
Fixpoint flat (layout : list (Z * list Z)) : list Z :=
  match layout with
  | [] => []
  | (s, es) :: rest => s :: es ++ flat rest
  end.

Fixpoint release_order (layout : list (Z * list Z)) : list Z :=
  match layout with
  | [] => []
  | (s, es) :: rest => es ++ s :: release_order rest
  end.

(** [direct_rep m l]: in direct mode the header of [m] owns the data
    sectors [l] (its first [numSectors] slots). *)
Definition direct_rep (m : Machine) (l : list Z) : Prop :=
  useIndex (this m) = false ∧
  length l = Z.to_nat (numSectors (this m)) ∧
  take (length l) (dataSectors (this m)) = l.

(** [indexed_rep m layout]: in indexed mode the header of [m] points to
    the index nodes of [layout], which are on disk and whose used entries
    are the data sectors of [layout]. *)
Definition indexed_rep (m : Machine) (layout : list (Z * list Z)) : Prop :=
  let nS := numSectors (this m) in
  let numNode := divRoundUp nS NumSecond in
  useIndex (this m) = true ∧
  Z.of_nat (length layout) = numNode ∧
  ∀ (k : nat) s es, layout !! k = Some (s, es) →
    dataSectors (this m) !! k = Some s ∧ 0 <= s ∧
    Z.of_nat (length es) = node_entries numNode nS (Z.of_nat k) ∧
    ∃ node : list Z,
      synchDisk m !! s = Some (NodeImage node) ∧ take (length es) node = es.

(** [nodes_rep slots d nS layout]: the first slots of [slots] hold the
    sectors of the index nodes of [layout]; each is on the disk [d] as a
    node of [NumSecond] entries whose used entries are the data sectors
    of [layout], [nS] in total. *)
Definition nodes_rep (slots : list Z) (d : gmap Z SectorImage) (nS : Z)
    (layout : list (Z * list Z)) : Prop :=
  let numNode := divRoundUp nS NumSecond in
  Z.of_nat (length layout) = numNode ∧
  ∀ (k : nat) s es, layout !! k = Some (s, es) →
    slots !! k = Some s ∧ 0 <= s ∧
    Z.of_nat (length es) = node_entries numNode nS (Z.of_nat k) ∧
    ∃ node : list Z,
      d !! s = Some (NodeImage node) ∧
      Z.of_nat (length node) = NumSecond ∧
      take (length es) node = es.

(** [indexed_file m layout]: the header of [m] is in indexed mode and its
    nodes are those of [layout]. *)
Definition indexed_file (m : Machine) (layout : list (Z * list Z)) : Prop :=
  useIndex (this m) = true ∧
  nodes_rep (dataSectors (this m)) (synchDisk m) (numSectors (this m)) layout.

(** [owned bm l]: the sectors [l] are pairwise distinct and marked in [bm]. *)
Definition owned (bm : BitMap) (l : list Z) : Prop :=
  NoDup l ∧ ∀ v, v ∈ l → bm_test bm v = true.

(** ** Assumptions on the configuration *)

Hypothesis SectorSize_pos : 0 < SectorSize.
Hypothesis NumSecond_pos : 0 < NumSecond.
Hypothesis NumFirst_nonneg : 0 <= NumFirst.

(** ** The bitmap *)

Lemma first_clear_Some (bm : list bool) i : first_clear bm = Some i → bm !! i = Some false.
Proof.
  revert i. induction bm as [|b rest IH]; intros i; simpl; [done|].
  destruct b.
  - intros H. apply fmap_Some in H as (j & Hj & ->). by apply IH.
  - by intros [= <-].
Qed.

Lemma first_clear_None (bm : list bool) : first_clear bm = None → count_clear bm = 0%nat.
Proof.
  induction bm as [|b rest IH]; simpl; [done|].
  destruct b; [|done]. intros H. apply fmap_None in H. by rewrite IH.
Qed.

Lemma count_clear_insert (bm : list bool) (i : nat) (b b' : bool) :
  bm !! i = Some b →
  (count_clear (<[i := b']> bm) + (if b' then 1 else 0)
   = count_clear bm + (if b then 1 else 0))%nat.
Proof.
  revert i. induction bm as [|c rest IH]; intros [|i]; simpl; try done.
  - intros [= ->]. destruct b, b'; lia.
  - intros H. specialize (IH _ H). lia.
Qed.

Lemma bm_test_true (bm : list bool) v :
  bm_test bm v = true → 0 <= v ∧ bm !! Z.to_nat v = Some true.
Proof.
  unfold bm_test. destruct (Z.ltb_spec v 0); [done|].
  destruct (bm !! Z.to_nat v) as [[]|]; simpl; try done.
Qed.

Lemma bm_test_insert_eq (bm : list bool) i b :
  (i < length bm)%nat → bm_test (<[i := b]> bm) (Z.of_nat i) = b.
Proof.
  intros Hi. unfold bm_test. destruct (Z.ltb_spec (Z.of_nat i) 0); [lia|].
  by rewrite Nat2Z.id, list_lookup_insert_eq.
Qed.

Lemma bm_test_insert_ne (bm : list bool) i b v :
  v ≠ Z.of_nat i → bm_test (<[i := b]> bm) v = bm_test bm v.
Proof.
  intros Hne. unfold bm_test. destruct (Z.ltb_spec v 0); [done|].
  rewrite list_lookup_insert_ne; [done|lia].
Qed.

Lemma bm_find_spec bm :
  0 < bm_numClear bm → drawn bm [fst (bm_find bm)] (snd (bm_find bm)).
Proof.
  unfold bm_numClear, bm_find. intros Hc.
  destruct (first_clear bm) as [i|] eqn:Hf.
  2:{ apply first_clear_None in Hf. lia. }
  apply first_clear_Some in Hf. simpl.
  pose proof (lookup_lt_Some _ _ _ Hf) as Hlt.
  split; [apply NoDup_singleton|]. split; [|split].
  - intros v Hv. apply list_elem_of_singleton in Hv as ->.
    split; [lia|]. split; [|by apply bm_test_insert_eq].
    unfold bm_test. destruct (Z.ltb_spec (Z.of_nat i) 0); [done|].
    by rewrite Nat2Z.id, Hf.
  - intros v Hv. apply bm_test_insert_ne. intros ->. apply Hv. by left.
  - pose proof (count_clear_insert bm i false true Hf).
    unfold bm_numClear. simpl in *. lia.
Qed.

Lemma bm_find_none bm :
  bm_numClear bm = 0 → bm_find bm = (-1, bm).
Proof.
  unfold bm_numClear, bm_find. intros Hc.
  destruct (first_clear bm) as [i|] eqn:Hf; [|done].
  apply first_clear_Some in Hf.
  pose proof (count_clear_insert bm i false true Hf). simpl in *. lia.
Qed.

Lemma drawn_nil bm : drawn bm [] bm.
Proof.
  split; [apply NoDup_nil_2|]. split; [|split].
  - intros v Hv. by apply not_elem_of_nil in Hv.
  - done.
  - simpl. lia.
Qed.

Lemma drawn_app bm l1 bm1 l2 bm2 :
  drawn bm l1 bm1 → drawn bm1 l2 bm2 → drawn bm (l1 ++ l2) bm2.
Proof.
  intros (Hnd1 & Hin1 & Hout1 & Hc1) (Hnd2 & Hin2 & Hout2 & Hc2).
  assert (Hdisj : ∀ v, v ∈ l1 → v ∉ l2).
  { intros v H1 H2. destruct (Hin1 v H1) as (_ & _ & Ht).
    destruct (Hin2 v H2) as (_ & Hf & _). congruence. }
  split; [|split; [|split]].
  - apply NoDup_app; auto.
  - intros v Hv. apply elem_of_app in Hv as [Hv|Hv].
    + destruct (Hin1 v Hv) as (? & ? & ?). repeat split; auto.
      rewrite Hout2; auto.
    + destruct (Hin2 v Hv) as (? & ? & ?). repeat split; auto.
      rewrite <- Hout1; auto. intros Hv1. by apply (Hdisj v).
  - intros v Hv. rewrite Hout2, Hout1; auto.
    all: intros ?; apply Hv; apply elem_of_app; auto.
  - rewrite length_app. lia.
Qed.


(** ** Running programs *)

Lemma bind_Ret {A B} (c : M A) (k : A → M B) m a m' :
  c m = Ret a m' → bind c k m = k a m'.
Proof. unfold bind. by intros ->. Qed.

Lemma bind_run {A B} (c : M A) (k : A → M B) m a m1 r :
  c m = Ret a m1 → k a m1 = r → bind c k m = r.
Proof. unfold bind. by intros -> <-. Qed.

Lemma bind_bind {A B C} (c : M A) (k1 : A → M B) (k2 : B → M C) m :
  bind (bind c k1) k2 m = bind c (λ a, bind (k1 a) k2) m.
Proof. unfold bind. by destruct (c m). Qed.

Lemma bind_ext_l {A B} (c c' : M A) (k : A → M B) m :
  c m = c' m → bind c k m = bind c' k m.
Proof. unfold bind. by intros ->. Qed.

Lemma bind_Ret_inv {A B} (c : M A) (k : A → M B) m b m' :
  bind c k m = Ret b m' → ∃ a m1, c m = Ret a m1 ∧ k a m1 = Ret b m'.
Proof. unfold bind. destruct (c m) as [a m1| |]; [eauto|done|done]. Qed.

Lemma bind_AssertFail {A B} (c : M A) (k : A → M B) m m' :
  c m = AssertFail m' → bind c k m = AssertFail m'.
Proof. unfold bind. by intros ->. Qed.

Lemma for_fold_nil {A} lo hi (body : Z → A → M A) a m :
  hi <= lo → for_fold lo hi body a m = Ret a m.
Proof.
  intros H. unfold for_fold. by replace (Z.to_nat (hi - lo)) with O by lia.
Qed.

Lemma for_fold_step {A} lo hi (body : Z → A → M A) a m :
  lo < hi →
  for_fold lo hi body a m = bind (body lo a) (for_fold (lo + 1) hi body) m.
Proof.
  intros H. unfold for_fold.
  replace (Z.to_nat (hi - lo)) with (S (Z.to_nat (hi - (lo + 1)))) by lia.
  done.
Qed.

(** A loop over [lo, hi) is a loop over [lo, mid) followed by one over
    [mid, hi). *)
Lemma iter_add {A} n1 n2 lo (body : Z → A → M A) a m :
  iter (n1 + n2) lo body a m
  = bind (iter n1 lo body a) (iter n2 (lo + Z.of_nat n1) body) m.
Proof.
  revert lo a m. induction n1 as [|n1 IH]; intros lo a m.
  - simpl. unfold bind, ret. by rewrite Z.add_0_r.
  - simpl. unfold bind. destruct (body lo a m) as [a1 m1| |]; try done.
    rewrite IH. unfold bind.
    by replace (lo + 1 + Z.of_nat n1) with (lo + Z.of_nat (S n1)) by lia.
Qed.

Lemma for_fold_split {A} lo mid hi (body : Z → A → M A) a m :
  lo <= mid <= hi →
  for_fold lo hi body a m
  = bind (for_fold lo mid body a) (for_fold mid hi body) m.
Proof.
  intros H. unfold for_fold.
  replace (Z.to_nat (hi - lo))
    with (Z.to_nat (mid - lo) + Z.to_nat (hi - mid))%nat by lia.
  rewrite iter_add. by replace (lo + Z.of_nat (Z.to_nat (mid - lo))) with mid by lia.
Qed.

(** Whatever a relation closed under reflexivity and transitivity the body
    of a loop respects, the loop respects. *)
Lemma iter_preserves {A} (R : Machine → Machine → Prop) n lo
    (body : Z → A → M A) a m a' m' :
  (∀ x, R x x) → (∀ x y z, R x y → R y z → R x z) →
  (∀ i b x b' x', body i b x = Ret b' x' → R x x') →
  iter n lo body a m = Ret a' m' → R m m'.
Proof.
  intros Hrefl Htrans Hbody. revert lo a m.
  induction n as [|n IH]; intros lo a m; simpl.
  - intros [= _ <-]. apply Hrefl.
  - intros H. apply bind_Ret_inv in H as (a1 & m1 & H1 & H2).
    eapply Htrans; [by eapply Hbody|by eapply IH].
Qed.

(** ** Array accesses and the primitive steps *)

Lemma array_get_ok (a : list Z) i v m :
  0 <= i → a !! Z.to_nat i = Some v → array_get a i m = Ret v m.
Proof.
  intros Hi Hv. unfold array_get.
  destruct (Z.ltb_spec i 0); [lia|]. by rewrite Hv.
Qed.

Lemma array_set_ok (a : list Z) i v m :
  0 <= i < Z.of_nat (length a) →
  array_set a i v m = Ret (<[Z.to_nat i := v]> a) m.
Proof.
  intros Hi. unfold array_set.
  destruct (Z.leb_spec 0 i); [|lia].
  destruct (Z.ltb_spec i (Z.of_nat (length a))); [done|lia].
Qed.

Lemma slot_read_ok nb ns ui (slots : list Z) bm d f i v :
  0 <= i → slots !! Z.to_nat i = Some v →
  slot_read i (mkMachine (mkFileHeader nb ns ui slots) bm d f)
  = Ret v (mkMachine (mkFileHeader nb ns ui slots) bm d f).
Proof.
  intros Hi Hv. unfold slot_read, bind, gets. simpl. by apply array_get_ok.
Qed.

Lemma slot_write_ok nb ns ui (slots : list Z) bm d f i v :
  0 <= i < Z.of_nat (length slots) →
  slot_write i v (mkMachine (mkFileHeader nb ns ui slots) bm d f)
  = Ret tt (mkMachine (mkFileHeader nb ns ui (<[Z.to_nat i := v]> slots)) bm d f).
Proof.
  intros Hi. unfold slot_write, bind, gets. simpl.
  by rewrite array_set_ok.
Qed.

Lemma Find_ok h bm d f :
  Find (mkMachine h bm d f)
  = Ret (fst (bm_find bm)) (mkMachine h (snd (bm_find bm)) d f).
Proof. done. Qed.

Lemma WriteSector_ok h bm d f s img :
  0 <= s →
  WriteSector s img (mkMachine h bm d f)
  = Ret tt (mkMachine h bm (<[s := img]> d) f).
Proof.
  intros Hs. unfold WriteSector. by destruct (Z.ltb_spec s 0); [lia|].
Qed.

Lemma ReadSector_ok h bm (d : gmap Z SectorImage) f s n :
  0 <= s → d !! s = Some (NodeImage n) →
  ReadSector s (mkMachine h bm d f) = Ret n (mkMachine h bm d f).
Proof.
  intros Hs Hd. unfold ReadSector, disk_node. destruct (Z.ltb_spec s 0); [lia|].
  simpl. by rewrite Hd.
Qed.

Lemma fill_step_list (a : list Z) k v l n :
  (k < length a)%nat →
  take (S k) (<[k := v]> a) ++ l ++ drop (S k + n) (<[k := v]> a)
  = take k a ++ (v :: l) ++ drop (k + S n) a.
Proof.
  intros Hk.
  rewrite (take_S_r _ _ v) by (by apply list_lookup_insert_eq).
  rewrite take_insert_ge by lia. rewrite drop_insert_lt by lia.
  rewrite <- app_assoc. simpl. do 3 f_equal. f_equal. lia.
Qed.

(** ** The loops that draw sectors *)

(** [for (i = lo; i < lo + n; i++) dataSectors[i] = freeMap->Find();]
    writes the slots [lo, lo + n) and no other; the values are fresh
    sectors whenever the bitmap has [n] clear bits. *)
Lemma iter_fill_slots n : ∀ lo nb ns ui (slots : list Z) bm d f,
  0 <= lo → lo + Z.of_nat n <= Z.of_nat (length slots) →
  ∃ l bm',
    length l = n ∧
    (Z.of_nat n <= bm_numClear bm → drawn bm l bm') ∧
    iter n lo (λ i _, s <- Find ;; slot_write i s) tt
      (mkMachine (mkFileHeader nb ns ui slots) bm d f)
    = Ret tt (mkMachine
                (mkFileHeader nb ns ui
                   (take (Z.to_nat lo) slots ++ l
                      ++ drop (Z.to_nat lo + n) slots))
                bm' d f).
Proof.
  induction n as [|n IH]; intros lo nb ns ui slots bm d f Hlo Hhi.
  - exists [], bm. split; [done|]. split; [intros _; apply drawn_nil|].
    simpl. unfold ret. rewrite Nat.add_0_r. by rewrite take_drop.
  - destruct (IH (lo + 1) nb ns ui (<[Z.to_nat lo := fst (bm_find bm)]> slots)
                (snd (bm_find bm)) d f) as (l & bm' & Hlen & Hdr & Hrun).
    { lia. } { rewrite length_insert. lia. }
    exists (fst (bm_find bm) :: l), bm'. split; [simpl; lia|]. split.
    + intros Hc. apply (drawn_app _ [_] (snd (bm_find bm))).
      * apply bm_find_spec. lia.
      * apply Hdr. pose proof (bm_find_spec bm) as (_ & _ & _ & Hcnt); [lia|].
        simpl in Hcnt. lia.
    + cbn [iter]. eapply bind_run.
      { eapply bind_run; [apply Find_ok|]. apply slot_write_ok. lia. }
      rewrite Hrun.
      replace (Z.to_nat (lo + 1)) with (S (Z.to_nat lo)) by lia.
      rewrite fill_step_list by lia. done.
Qed.

(** [for (j = lo; j < lo + n; j++) node->dataSectors[j] = freeMap->Find();] *)
Lemma iter_fill_node n : ∀ lo (node : list Z) h bm d f,
  0 <= lo → lo + Z.of_nat n <= Z.of_nat (length node) →
  ∃ l bm',
    length l = n ∧
    (Z.of_nat n <= bm_numClear bm → drawn bm l bm') ∧
    iter n lo (λ j node, v <- Find ;; array_set node j v) node
      (mkMachine h bm d f)
    = Ret (take (Z.to_nat lo) node ++ l ++ drop (Z.to_nat lo + n) node)
          (mkMachine h bm' d f).
Proof.
  induction n as [|n IH]; intros lo node h bm d f Hlo Hhi.
  - exists [], bm. split; [done|]. split; [intros _; apply drawn_nil|].
    simpl. unfold ret. rewrite Nat.add_0_r. by rewrite take_drop.
  - destruct (IH (lo + 1) (<[Z.to_nat lo := fst (bm_find bm)]> node) h
                (snd (bm_find bm)) d f) as (l & bm' & Hlen & Hdr & Hrun).
    { lia. } { rewrite length_insert. lia. }
    exists (fst (bm_find bm) :: l), bm'. split; [simpl; lia|]. split.
    + intros Hc. apply (drawn_app _ [_] (snd (bm_find bm))).
      * apply bm_find_spec. lia.
      * apply Hdr. pose proof (bm_find_spec bm) as (_ & _ & _ & Hcnt); [lia|].
        simpl in Hcnt. lia.
    + cbn [iter]. eapply bind_run.
      { eapply bind_run; [apply Find_ok|]. apply array_set_ok. lia. }
      rewrite Hrun.
      replace (Z.to_nat (lo + 1)) with (S (Z.to_nat lo)) by lia.
      rewrite fill_step_list by lia. done.
Qed.

Lemma fill_node_spec lo hi (node : list Z) h bm d f :
  0 <= lo <= hi → hi <= Z.of_nat (length node) →
  ∃ l bm',
    Z.of_nat (length l) = hi - lo ∧
    (hi - lo <= bm_numClear bm → drawn bm l bm') ∧
    fill_node lo hi node (mkMachine h bm d f)
    = Ret (take (Z.to_nat lo) node ++ l ++ drop (Z.to_nat hi) node)
          (mkMachine h bm' d f).
Proof.
  intros Hlo Hhi. unfold fill_node, for_fold.
  destruct (iter_fill_node (Z.to_nat (hi - lo)) lo node h bm d f)
    as (l & bm' & Hlen & Hdr & Hrun); [lia|lia|].
  exists l, bm'. split; [lia|]. split; [intros; apply Hdr; lia|].
  replace (Z.to_nat hi) with (Z.to_nat lo + Z.to_nat (hi - lo))%nat by lia.
  exact Hrun.
Qed.

(** ** Building index nodes *)

Lemma elem_of_flat_fst (layout : list (Z * list Z)) s :
  s ∈ layout.*1 → s ∈ flat layout.
Proof.
  induction layout as [|[s0 es0] rest IH]; simpl; [done|].
  intros H. apply elem_of_cons in H as [->|H]; [by left|].
  right. apply elem_of_app. right. by apply IH.
Qed.

Lemma elem_of_flat_snd (layout : list (Z * list Z)) k s es v :
  layout !! k = Some (s, es) → v ∈ es → v ∈ flat layout.
Proof.
  revert k. induction layout as [|[s0 es0] rest IH]; intros [|k]; simpl; try done.
  - intros [= -> ->] Hv. right. apply elem_of_app. by left.
  - intros Hk Hv. right. apply elem_of_app. right. by eapply IH.
Qed.

Lemma length_new_SecondNode : Z.of_nat (length new_SecondNode) = NumSecond.
Proof. unfold new_SecondNode. rewrite length_replicate. lia. Qed.

Lemma new_node_spec numNode nS i nb ns ui (slots : list Z) bm d f :
  0 <= i < Z.of_nat (length slots) →
  0 <= node_entries numNode nS i <= NumSecond →
  1 + node_entries numNode nS i <= bm_numClear bm →
  ∃ s es bm',
    drawn bm (s :: es) bm' ∧
    Z.of_nat (length es) = node_entries numNode nS i ∧
    new_node numNode nS i (mkMachine (mkFileHeader nb ns ui slots) bm d f)
    = Ret tt (mkMachine
                (mkFileHeader nb ns ui (<[Z.to_nat i := s]> slots)) bm'
                (<[s := NodeImage (es ++ drop (length es) new_SecondNode)]> d)
                f).
Proof.
  intros Hi Hcnt Hclear.
  pose proof (bm_find_spec bm) as Hfind.
  destruct Hfind as (Hnd & Hin & Hout & Hc); [lia|].
  set (s := fst (bm_find bm)) in *. set (bm1 := snd (bm_find bm)) in *.
  destruct (fill_node_spec 0 (node_entries numNode nS i) new_SecondNode
              (mkFileHeader nb ns ui (<[Z.to_nat i := s]> slots)) bm1 d f)
    as (es & bm' & Hlen & Hdr & Hrun).
  { lia. } { rewrite length_new_SecondNode. lia. }
  exists s, es, bm'. split; [|split; [lia|]].
  - apply (drawn_app _ [s] bm1); [done|]. apply Hdr. simpl in Hc. lia.
  - unfold new_node. eapply bind_run; [apply Find_ok|]. fold s bm1.
    eapply bind_run; [apply slot_write_ok; lia|].
    eapply bind_run.
    { instantiate (2 := es ++ drop (length es) new_SecondNode).
      unfold node_entries in Hrun.
      replace (Z.to_nat (if i <? numNode - 1 then NumSecond
                         else nS - NumSecond * (numNode - 1)))
        with (length es) in Hrun
        by (unfold node_entries in Hlen; lia).
      destruct (i <? numNode - 1); exact Hrun. }
    apply WriteSector_ok. destruct (Hin s) as (? & _); [by left|done].
Qed.

Lemma iter_new_nodes numNode nS n : ∀ lo nb ns ui (slots : list Z) bm d f,
  0 <= lo → lo + Z.of_nat n <= Z.of_nat (length slots) →
  (∀ i, lo <= i < lo + Z.of_nat n → 0 <= node_entries numNode nS i <= NumSecond) →
  nodes_need numNode nS n lo <= bm_numClear bm →
  ∃ (layout : list (Z * list Z)) bm' (d' : gmap Z SectorImage),
    length layout = n ∧
    drawn bm (flat layout) bm' ∧
    iter n lo (λ i _, new_node numNode nS i) tt
      (mkMachine (mkFileHeader nb ns ui slots) bm d f)
    = Ret tt (mkMachine
                (mkFileHeader nb ns ui
                   (take (Z.to_nat lo) slots ++ layout.*1
                      ++ drop (Z.to_nat lo + n) slots))
                bm' d' f) ∧
    (∀ k s es, layout !! k = Some (s, es) →
       Z.of_nat (length es) = node_entries numNode nS (lo + Z.of_nat k) ∧
       ∃ node : list Z,
         d' !! s = Some (NodeImage node) ∧
         Z.of_nat (length node) = NumSecond ∧
         take (length es) node = es) ∧
    (∀ s, s ∉ layout.*1 → d' !! s = d !! s).
Proof.
  induction n as [|n IH]; intros lo nb ns ui slots bm d f Hlo Hhi Hcnt Hneed.
  - exists [], bm, d. split; [done|]. split; [apply drawn_nil|].
    split; [|split; [done|done]].
    simpl. unfold ret. rewrite Nat.add_0_r. by rewrite take_drop.
  - cbn [nodes_need] in Hneed.
    assert (Hn0 : 0 <= nodes_need numNode nS n (lo + 1)).
    { clear -Hcnt. assert (H : ∀ i, lo + 1 <= i < lo + 1 + Z.of_nat n →
         0 <= node_entries numNode nS i <= NumSecond) by (intros; apply Hcnt; lia).
      clear Hcnt. revert H. generalize (lo + 1). induction n as [|n IHn]; intros z H.
      - simpl. lia.
      - cbn [nodes_need]. specialize (IHn (z + 1)).
        assert (0 <= node_entries numNode nS z <= NumSecond) by (apply H; lia).
        assert (0 <= nodes_need numNode nS n (z + 1)) by (apply IHn; intros; apply H; lia).
        lia. }
    destruct (new_node_spec numNode nS lo nb ns ui slots bm d f)
      as (s & es & bm1 & Hdr1 & Hlen1 & Hrun1).
    { lia. } { apply Hcnt. lia. } { lia. }
    pose proof Hdr1 as (_ & Hin1 & _ & Hc1).
    destruct (IH (lo + 1) nb ns ui (<[Z.to_nat lo := s]> slots) bm1
                (<[s := NodeImage (es ++ drop (length es) new_SecondNode)]> d) f)
      as (layout & bm' & d' & Hlen & Hdr & Hrun & Hnodes & Hother).
    { lia. } { rewrite length_insert. lia. } { intros; apply Hcnt; lia. }
    { simpl in Hc1. lia. }
    assert (Hs : s ∉ layout.*1).
    { intros Hs. apply elem_of_flat_fst in Hs.
      destruct Hdr as (_ & Hin & _). destruct (Hin s Hs) as (_ & Hf & _).
      destruct (Hin1 s) as (_ & _ & Ht); [by left|]. congruence. }
    exists ((s, es) :: layout), bm', d'. split; [simpl; lia|]. split.
    { apply (drawn_app _ (s :: es) bm1 (flat layout)); done. }
    split; [|split].
    + cbn [iter]. eapply bind_run; [exact Hrun1|]. rewrite Hrun.
      replace (Z.to_nat (lo + 1)) with (S (Z.to_nat lo)) by lia.
      rewrite fill_step_list by lia. done.
    + intros [|k] s' es'; simpl.
      * intros [= <- <-]. split; [rewrite Hlen1; f_equal; lia|].
        exists (es ++ drop (length es) new_SecondNode).
        split; [by rewrite Hother, lookup_insert_eq|]. split.
        -- rewrite length_app, length_drop.
           pose proof length_new_SecondNode.
           assert (0 <= node_entries numNode nS lo <= NumSecond) by (apply Hcnt; lia).
           lia.
        -- by rewrite take_app_length.
      * intros Hk. destruct (Hnodes k s' es' Hk) as (He & Hn).
        split; [rewrite He; f_equal; lia|done].
    + intros s' Hs'. simpl in Hs'. apply not_elem_of_cons in Hs' as [Hne Hs'].
      rewrite Hother by done. by rewrite lookup_insert_ne.
Qed.

(** ** Arithmetic of sector and node counts *)

(** [divRoundUp n s] is the ceiling of [n / s]. *)
Lemma divRoundUp_bounds n s :
  0 < s → s * (divRoundUp n s - 1) < n <= s * divRoundUp n s.
Proof.
  intros Hs. unfold divRoundUp.
  pose proof (Z.div_mod (n + s - 1) s) as Hdm.
  pose proof (Z.mod_pos_bound (n + s - 1) s Hs). lia.
Qed.

Lemma divRoundUp_unique n s q :
  0 < s → s * (q - 1) < n <= s * q → divRoundUp n s = q.
Proof.
  intros Hs Hq. pose proof (divRoundUp_bounds n s Hs). nia.
Qed.

Lemma divRoundUp_pos n s : 0 < s → 0 < n → 0 < divRoundUp n s.
Proof. intros Hs Hn. pose proof (divRoundUp_bounds n s Hs). nia. Qed.

Lemma divRoundUp_le n s q : 0 < s → n <= s * q → divRoundUp n s <= q.
Proof. intros Hs Hn. pose proof (divRoundUp_bounds n s Hs). nia. Qed.

Lemma node_entries_bounds nS i :
  0 <= i < divRoundUp nS NumSecond →
  1 <= node_entries (divRoundUp nS NumSecond) nS i <= NumSecond.
Proof.
  intros Hi. pose proof (divRoundUp_bounds nS NumSecond NumSecond_pos).
  unfold node_entries. destruct (Z.ltb_spec i (divRoundUp nS NumSecond - 1)); lia.
Qed.

Lemma nodes_need_closed numNode nS n : ∀ lo,
  lo + Z.of_nat n = numNode → (1 <= n)%nat →
  nodes_need numNode nS n lo = (numNode - lo) + nS - NumSecond * lo.
Proof.
  induction n as [|n IH]; intros lo Hlo Hn; [lia|].
  cbn [nodes_need]. unfold node_entries at 1.
  destruct n as [|n].
  - simpl. destruct (Z.ltb_spec lo (numNode - 1)); [lia|].
    replace lo with (numNode - 1) by lia. lia.
  - rewrite IH by lia. destruct (Z.ltb_spec lo (numNode - 1)); lia.
Qed.

Lemma nodes_need_full numNode nS n : ∀ lo,
  lo + Z.of_nat n <= numNode - 1 →
  nodes_need numNode nS n lo = Z.of_nat n * (1 + NumSecond).
Proof.
  induction n as [|n IH]; intros lo Hlo; [done|].
  cbn [nodes_need]. unfold node_entries at 1. rewrite IH by lia.
  destruct (Z.ltb_spec lo (numNode - 1)); lia.
Qed.

(** Position of a byte inside a file of [nS] sectors. *)
Lemma offset_position nS offset :
  0 <= offset < SectorSize * nS →
  offset `quot` SectorSize = offset `div` SectorSize ∧
  (offset `quot` SectorSize) `quot` NumSecond
    = (offset `div` SectorSize) `div` NumSecond ∧
  0 <= offset `div` SectorSize < nS ∧
  0 <= (offset `div` SectorSize) `div` NumSecond < divRoundUp nS NumSecond ∧
  0 <= offset `div` SectorSize
       - (offset `div` SectorSize) `div` NumSecond * NumSecond
    < node_entries (divRoundUp nS NumSecond) nS
        ((offset `div` SectorSize) `div` NumSecond).
Proof.
  intros Hoff.
  assert (Hws : offset `quot` SectorSize = offset `div` SectorSize)
    by (apply Z.quot_div_nonneg; lia).
  rewrite Hws. set (ws := offset `div` SectorSize).
  assert (0 <= ws < nS).
  { unfold ws. split; [apply Z.div_pos; lia|].
    apply Z.div_lt_upper_bound; lia. }
  assert (Hwn : ws `quot` NumSecond = ws `div` NumSecond)
    by (apply Z.quot_div_nonneg; lia).
  rewrite Hwn. set (wn := ws `div` NumSecond).
  pose proof (Z.div_mod ws NumSecond) as Hdm. fold wn in Hdm.
  pose proof (Z.mod_pos_bound ws NumSecond NumSecond_pos).
  pose proof (divRoundUp_bounds nS NumSecond NumSecond_pos).
  assert (0 <= wn) by (unfold wn; apply Z.div_pos; lia).
  assert (wn < divRoundUp nS NumSecond) by nia.
  repeat split; try lia.
  unfold node_entries. destruct (Z.ltb_spec wn (divRoundUp nS NumSecond - 1)); nia.
Qed.

(** ** Allocate *)

Lemma AllocateWithIndex_unfold size nb0 ns0 ui0 slots bm d f :
  let nS := divRoundUp size SectorSize in
  let numNode := divRoundUp nS NumSecond in
  AllocateWithIndex size (mkMachine (mkFileHeader nb0 ns0 ui0 slots) bm d f)
  = if bm_numClear bm <? nS + numNode
    then Ret false (mkMachine (mkFileHeader size nS true slots) bm d f)
    else bind (for_ 0 numNode (new_node numNode nS)) (λ _, ret true)
           (mkMachine (mkFileHeader size nS true slots) bm d f).
Proof.
  intros nS numNode. unfold AllocateWithIndex, bind at 1 2 3 4 5. simpl.
  fold nS. fold numNode. by destruct (bm_numClear bm <? nS + numNode).
Qed.

Lemma Allocate_unfold size nb0 ns0 ui0 slots bm d f :
  let nS := divRoundUp size SectorSize in
  Allocate size (mkMachine (mkFileHeader nb0 ns0 ui0 slots) bm d f)
  = if nS >? NumFirst
    then AllocateWithIndex size
           (mkMachine (mkFileHeader size nS ui0 slots) bm d f)
    else if bm_numClear bm <? nS
    then Ret false (mkMachine (mkFileHeader size nS false slots) bm d f)
    else bind (for_ 0 nS (λ i, s <- Find ;; slot_write i s)) (λ _, ret true)
           (mkMachine (mkFileHeader size nS false slots) bm d f).
Proof.
  intros nS. unfold Allocate, bind at 1 2 3. simpl. fold nS.
  destruct (nS >? NumFirst); [done|].
  unfold bind at 1 2. simpl. by destruct (bm_numClear bm <? nS).
Qed.

Lemma for_new_nodes numNode nS lo hi nb ns ui (slots : list Z) bm d f :
  0 <= lo <= hi → hi <= Z.of_nat (length slots) →
  (∀ i, lo <= i < hi → 0 <= node_entries numNode nS i <= NumSecond) →
  nodes_need numNode nS (Z.to_nat (hi - lo)) lo <= bm_numClear bm →
  ∃ (layout : list (Z * list Z)) bm' (d' : gmap Z SectorImage),
    Z.of_nat (length layout) = hi - lo ∧
    drawn bm (flat layout) bm' ∧
    for_ lo hi (new_node numNode nS)
      (mkMachine (mkFileHeader nb ns ui slots) bm d f)
    = Ret tt (mkMachine
                (mkFileHeader nb ns ui
                   (take (Z.to_nat lo) slots ++ layout.*1
                      ++ drop (Z.to_nat hi) slots))
                bm' d' f) ∧
    (∀ (k : nat) s es, layout !! k = Some (s, es) →
       Z.of_nat (length es) = node_entries numNode nS (lo + Z.of_nat k) ∧
       ∃ node : list Z,
         d' !! s = Some (NodeImage node) ∧
         Z.of_nat (length node) = NumSecond ∧
         take (length es) node = es) ∧
    (∀ s, s ∉ layout.*1 → d' !! s = d !! s).
Proof.
  intros Hlo Hhi Hcnt Hneed.
  destruct (iter_new_nodes numNode nS (Z.to_nat (hi - lo)) lo nb ns ui slots bm d f)
    as (layout & bm' & d' & Hlen & Hdr & Hrun & Hnodes & Hother).
  { lia. } { lia. } { intros; apply Hcnt; lia. } { done. }
  exists layout, bm', d'. split; [lia|]. split; [done|]. split; [|done].
  unfold for_, for_fold.
  replace (Z.to_nat hi) with (Z.to_nat lo + Z.to_nat (hi - lo))%nat by lia.
  exact Hrun.
Qed.

Lemma AllocateWithIndex_ok size nb0 ns0 ui0 (slots : list Z) bm d f :
  let nS := divRoundUp size SectorSize in
  let numNode := divRoundUp nS NumSecond in
  1 <= nS → numNode <= Z.of_nat (length slots) →
  nS + numNode <= bm_numClear bm →
  ∃ (layout : list (Z * list Z)) bm' (d' : gmap Z SectorImage),
    AllocateWithIndex size (mkMachine (mkFileHeader nb0 ns0 ui0 slots) bm d f)
    = Ret true (mkMachine
                  (mkFileHeader size nS true
                     (layout.*1 ++ drop (Z.to_nat numNode) slots))
                  bm' d' f) ∧
    drawn bm (flat layout) bm' ∧
    indexed_rep (mkMachine
                   (mkFileHeader size nS true
                      (layout.*1 ++ drop (Z.to_nat numNode) slots))
                   bm' d' f) layout.
Proof.
  intros nS numNode HnS Hslots Hclear.
  assert (HnN : 1 <= numNode).
  { pose proof (divRoundUp_pos nS NumSecond NumSecond_pos). unfold numNode. lia. }
  destruct (for_new_nodes numNode nS 0 numNode size nS true slots bm d f)
    as (layout & bm' & d' & Hlen & Hdr & Hrun & Hnodes & Hother).
  { lia. } { lia. }
  { intros i Hi. pose proof (node_entries_bounds nS i Hi) as H.
    fold numNode in H. lia. }
  { rewrite (nodes_need_closed numNode nS _ 0) by lia. lia. }
  exists layout, bm', d'. split; [|split; [done|]].
  - rewrite AllocateWithIndex_unfold. fold nS. fold numNode.
    destruct (Z.ltb_spec (bm_numClear bm) (nS + numNode)); [lia|].
    eapply bind_run; [exact Hrun|]. done.
  - unfold indexed_rep. cbn [this numSectors useIndex dataSectors synchDisk].
    fold numNode. split; [done|]. split; [lia|].
    intros k s es Hk. destruct (Hnodes k s es Hk) as (He & node & Hd & _ & Ht).
    split; [|split; [|split]].
    + apply lookup_app_l_Some. rewrite list_lookup_fmap, Hk. done.
    + destruct Hdr as (_ & Hin & _). apply (Hin s).
      apply elem_of_flat_fst. apply list_elem_of_lookup. exists k.
      by rewrite list_lookup_fmap, Hk.
    + rewrite He. f_equal.
    + by exists node.
Qed.

Lemma AllocateWithIndex_fail size nb0 ns0 ui0 (slots : list Z) bm d f :
  let nS := divRoundUp size SectorSize in
  let numNode := divRoundUp nS NumSecond in
  bm_numClear bm < nS + numNode →
  AllocateWithIndex size (mkMachine (mkFileHeader nb0 ns0 ui0 slots) bm d f)
  = Ret false (mkMachine (mkFileHeader size nS true slots) bm d f).
Proof.
  intros nS numNode Hclear. rewrite AllocateWithIndex_unfold.
  fold nS. fold numNode.
  by destruct (Z.ltb_spec (bm_numClear bm) (nS + numNode)); [|lia].
Qed.

Lemma for_fill_slots lo hi nb ns ui (slots : list Z) bm d f :
  0 <= lo → hi <= Z.of_nat (length slots) →
  ∃ l bm',
    length l = Z.to_nat (hi - lo) ∧
    (hi - lo <= bm_numClear bm → drawn bm l bm') ∧
    for_ lo hi (λ i, s <- Find ;; slot_write i s)
      (mkMachine (mkFileHeader nb ns ui slots) bm d f)
    = Ret tt (mkMachine
                (mkFileHeader nb ns ui
                   (take (Z.to_nat lo) slots ++ l
                      ++ drop (Z.to_nat lo + Z.to_nat (hi - lo)) slots))
                bm' d f).
Proof.
  intros Hlo Hhi. destruct (Z.le_gt_cases hi lo) as [Hle|Hgt].
  { exists [], bm. replace (Z.to_nat (hi - lo)) with O by lia.
    split; [done|]. split; [intros _; apply drawn_nil|].
    unfold for_. rewrite for_fold_nil by done.
    simpl. by rewrite Nat.add_0_r, take_drop. }
  destruct (iter_fill_slots (Z.to_nat (hi - lo)) lo nb ns ui slots bm d f)
    as (l & bm' & Hlen & Hdr & Hrun); [lia|lia|].
  exists l, bm'. split; [done|]. split; [intros; apply Hdr; lia|done].
Qed.

Lemma Allocate_direct_ok size nb0 ns0 ui0 (slots : list Z) bm d f :
  let nS := divRoundUp size SectorSize in
  nS <= NumFirst → nS <= Z.of_nat (length slots) → nS <= bm_numClear bm →
  ∃ l bm',
    Allocate size (mkMachine (mkFileHeader nb0 ns0 ui0 slots) bm d f)
    = Ret true (mkMachine
                  (mkFileHeader size nS false (l ++ drop (length l) slots))
                  bm' d f) ∧
    length l = Z.to_nat nS ∧ drawn bm l bm'.
Proof.
  intros nS HnS Hslots Hclear.
  destruct (for_fill_slots 0 nS size nS false slots bm d f)
    as (l & bm' & Hlen & Hdr & Hrun); [lia|lia|].
  exists l, bm'. split; [|split; [lia|apply Hdr; lia]].
  rewrite Allocate_unfold. fold nS.
  destruct (Z.gtb_spec nS NumFirst); [lia|].
  destruct (Z.ltb_spec (bm_numClear bm) nS); [lia|].
  eapply bind_run; [exact Hrun|]. unfold ret. simpl.
  by rewrite <- Hlen.
Qed.

(** ** ByteToSector on a represented file *)

Lemma NoDup_flat_inj (layout : list (Z * list Z)) :
  NoDup (flat layout) →
  ∀ (k1 k2 j1 j2 : nat) s1 es1 s2 es2 v,
    layout !! k1 = Some (s1, es1) → es1 !! j1 = Some v →
    layout !! k2 = Some (s2, es2) → es2 !! j2 = Some v →
    k1 = k2 ∧ j1 = j2.
Proof.
  induction layout as [|[s es] rest IH]; intros Hnd k1 k2 j1 j2 s1 es1 s2 es2 v;
    [done|].
  simpl in Hnd. apply NoDup_cons in Hnd as [Hs Hnd].
  apply NoDup_app in Hnd as (Hes & Hdisj & Hrest).
  destruct k1 as [|k1], k2 as [|k2]; simpl.
  - intros [= <- <-] H1 [= <- <-] H2. split; [done|].
    exact (NoDup_lookup es j1 j2 v Hes H1 H2).
  - intros [= <- <-] H1 Hk2 H2. exfalso. apply (Hdisj v).
    + by eapply list_elem_of_lookup_2.
    + eapply elem_of_flat_snd; [done|]. by eapply list_elem_of_lookup_2.
  - intros Hk1 H1 [= <- <-] H2. exfalso. apply (Hdisj v).
    + by eapply list_elem_of_lookup_2.
    + eapply elem_of_flat_snd; [done|]. by eapply list_elem_of_lookup_2.
  - intros Hk1 H1 Hk2 H2.
    destruct (IH Hrest k1 k2 j1 j2 s1 es1 s2 es2 v) as [-> ->]; done.
Qed.

Lemma ByteToSector_direct m (l : list Z) offset :
  direct_rep m l →
  0 <= offset < SectorSize * numSectors (this m) →
  ∃ v, l !! Z.to_nat (offset `div` SectorSize) = Some v ∧
       ByteToSector offset m = Ret v m.
Proof.
  destruct m as [[nb ns ui slots] bm d f]. unfold direct_rep. simpl.
  intros (-> & Hlen & Htake) Hoff.
  destruct (offset_position ns offset Hoff) as (Hws & _ & Hr & _).
  destruct (lookup_lt_is_Some_2 l (Z.to_nat (offset `div` SectorSize)))
    as [v Hv]; [lia|].
  exists v. split; [done|].
  unfold ByteToSector, bind, gets. simpl. rewrite Hws.
  apply slot_read_ok; [lia|].
  rewrite <- Htake in Hv. by apply lookup_take_Some in Hv as [? _].
Qed.

Lemma ByteToSector_indexed m (layout : list (Z * list Z)) offset :
  indexed_rep m layout →
  0 <= offset < SectorSize * numSectors (this m) →
  ∃ s es v,
    layout !! Z.to_nat ((offset `div` SectorSize) `div` NumSecond)
      = Some (s, es) ∧
    es !! Z.to_nat (offset `div` SectorSize
                    - (offset `div` SectorSize) `div` NumSecond * NumSecond)
      = Some v ∧
    ByteToSector offset m = Ret v m.
Proof.
  destruct m as [[nb ns ui slots] bm d f]. unfold indexed_rep. simpl.
  intros (-> & Hlen & Hnodes) Hoff.
  destruct (offset_position ns offset Hoff) as (Hws & Hwn & Hr & Hrn & Hj).
  set (ws := offset `div` SectorSize) in *.
  set (wn := ws `div` NumSecond) in *.
  destruct (lookup_lt_is_Some_2 layout (Z.to_nat wn)) as [[s es] Hk]; [lia|].
  destruct (Hnodes _ _ _ Hk) as (Hslot & Hs & Hes & node & Hd & Ht).
  rewrite Z2Nat.id in Hes by lia.
  destruct (lookup_lt_is_Some_2 es (Z.to_nat (ws - wn * NumSecond)))
    as [v Hv]; [lia|].
  exists s, es, v. split; [done|]. split; [done|].
  unfold ByteToSector, bind, gets. simpl.
  unfold ByteToSectorWithIndex. rewrite Hwn, Hws.
  eapply bind_run; [by apply slot_read_ok; [lia|]|].
  eapply bind_run; [by apply ReadSector_ok|].
  apply array_get_ok; [lia|].
  rewrite <- Ht in Hv. by apply lookup_take_Some in Hv as [? _].
Qed.

(** ** Allocation followed by translation *)

Lemma direct_rep_translate m bm0 (l : list Z) :
  direct_rep m l → drawn bm0 l (freeMap m) →
  numSectors (this m) = divRoundUp (numBytes (this m)) SectorSize →
  (∀ offset, 0 <= offset < numBytes (this m) →
     ∃ v, ByteToSector offset m = Ret v m ∧ bm_test (freeMap m) v = true) ∧
  (∀ o1 o2 v, 0 <= o1 < numBytes (this m) → 0 <= o2 < numBytes (this m) →
     ByteToSector o1 m = Ret v m → ByteToSector o2 m = Ret v m →
     o1 `div` SectorSize = o2 `div` SectorSize).
Proof.
  intros Hrep (Hnd & Hin & _) HnS.
  pose proof (divRoundUp_bounds (numBytes (this m)) SectorSize SectorSize_pos) as Hb.
  rewrite <- HnS in Hb. split.
  - intros offset Hoff.
    destruct (ByteToSector_direct m l offset Hrep) as (v & Hv & Hrun); [lia|].
    exists v. split; [done|]. apply Hin. by eapply list_elem_of_lookup_2.
  - intros o1 o2 v H1 H2 Hr1 Hr2.
    destruct (ByteToSector_direct m l o1 Hrep) as (v1 & Hv1 & Hrun1); [lia|].
    destruct (ByteToSector_direct m l o2 Hrep) as (v2 & Hv2 & Hrun2); [lia|].
    rewrite Hr1 in Hrun1. rewrite Hr2 in Hrun2.
    injection Hrun1 as <-. injection Hrun2 as <-.
    pose proof (NoDup_lookup l _ _ v Hnd Hv1 Hv2) as Heq.
    destruct (offset_position (numSectors (this m)) o1) as (_ & _ & ? & _); [lia|].
    destruct (offset_position (numSectors (this m)) o2) as (_ & _ & ? & _); [lia|].
    lia.
Qed.

Lemma indexed_rep_translate m bm0 (layout : list (Z * list Z)) :
  indexed_rep m layout → drawn bm0 (flat layout) (freeMap m) →
  numSectors (this m) = divRoundUp (numBytes (this m)) SectorSize →
  (∀ offset, 0 <= offset < numBytes (this m) →
     ∃ v, ByteToSector offset m = Ret v m ∧ bm_test (freeMap m) v = true) ∧
  (∀ o1 o2 v, 0 <= o1 < numBytes (this m) → 0 <= o2 < numBytes (this m) →
     ByteToSector o1 m = Ret v m → ByteToSector o2 m = Ret v m →
     o1 `div` SectorSize = o2 `div` SectorSize).
Proof.
  intros Hrep (Hnd & Hin & _) HnS.
  pose proof (divRoundUp_bounds (numBytes (this m)) SectorSize SectorSize_pos) as Hb.
  rewrite <- HnS in Hb. split.
  - intros offset Hoff.
    destruct (ByteToSector_indexed m layout offset Hrep)
      as (s & es & v & Hk & Hv & Hrun); [lia|].
    exists v. split; [done|]. apply Hin.
    eapply elem_of_flat_snd; [done|]. by eapply list_elem_of_lookup_2.
  - intros o1 o2 v H1 H2 Hr1 Hr2.
    destruct (ByteToSector_indexed m layout o1 Hrep)
      as (s1 & es1 & v1 & Hk1 & Hv1 & Hrun1); [lia|].
    destruct (ByteToSector_indexed m layout o2 Hrep)
      as (s2 & es2 & v2 & Hk2 & Hv2 & Hrun2); [lia|].
    rewrite Hr1 in Hrun1. rewrite Hr2 in Hrun2.
    injection Hrun1 as <-. injection Hrun2 as <-.
    destruct (NoDup_flat_inj layout Hnd _ _ _ _ _ _ _ _ v Hk1 Hv1 Hk2 Hv2)
      as [Hk Hj].
    destruct (offset_position (numSectors (this m)) o1) as (_ & _ & ? & ? & ?); [lia|].
    destruct (offset_position (numSectors (this m)) o2) as (_ & _ & ? & ? & ?); [lia|].
    assert (Hwn : (o1 `div` SectorSize) `div` NumSecond
                  = (o2 `div` SectorSize) `div` NumSecond) by lia.
    rewrite Hwn in Hj. lia.
Qed.

Lemma Allocate_success m size :
  Z.of_nat (length (dataSectors (this m))) = NumFirst →
  divRoundUp size SectorSize <= NumFirst
  ∨ divRoundUp (divRoundUp size SectorSize) NumSecond <= NumFirst →
  (if divRoundUp size SectorSize <=? NumFirst then divRoundUp size SectorSize
   else divRoundUp size SectorSize
        + divRoundUp (divRoundUp size SectorSize) NumSecond)
    <= bm_numClear (freeMap m) →
  ∃ m', Allocate size m = Ret true m' ∧
    numBytes (this m') = size ∧
    numSectors (this m') = divRoundUp size SectorSize ∧
    ((divRoundUp size SectorSize <= NumFirst ∧
      ∃ l, direct_rep m' l ∧ drawn (freeMap m) l (freeMap m')) ∨
     (NumFirst < divRoundUp size SectorSize ∧
      ∃ layout, indexed_rep m' layout ∧
                drawn (freeMap m) (flat layout) (freeMap m'))).
Proof.
  destruct m as [[nb0 ns0 ui0 slots] bm d f]. simpl. intros Hlen Hsize Hclear.
  set (nS := divRoundUp size SectorSize) in *.
  destruct (Z.leb_spec nS NumFirst) as [Hle|Hgt].
  - destruct (Allocate_direct_ok size nb0 ns0 ui0 slots bm d f)
      as (l & bm' & Hrun & Hl & Hdr); [done|fold nS; lia|done|].
    eexists. split; [exact Hrun|]. simpl. split; [done|]. split; [done|].
    left. split; [done|]. exists l. split; [|done]. unfold direct_rep. simpl.
    split; [done|]. split; [done|]. by rewrite take_app_length.
  - assert (HnN : divRoundUp nS NumSecond <= NumFirst) by lia.
    destruct (AllocateWithIndex_ok size size nS ui0 slots bm d f)
      as (layout & bm' & d' & Hrun & Hdr & Hrep); [fold nS; lia..|].
    eexists. split.
    { rewrite Allocate_unfold. fold nS.
      destruct (Z.gtb_spec nS NumFirst); [|lia]. exact Hrun. }
    simpl. split; [done|]. split; [done|]. right. split; [done|]. by exists layout.
Qed.

Lemma size_in_range size :
  1 <= size <= NumFirst * NumSecond * SectorSize →
  divRoundUp (divRoundUp size SectorSize) NumSecond <= NumFirst.
Proof.
  intros Hsize. apply divRoundUp_le; [done|]. apply divRoundUp_le; [done|]. lia.
Qed.

Lemma Allocate_failure m size :
  Z.of_nat (length (dataSectors (this m))) = NumFirst →
  bm_numClear (freeMap m)
    < (if divRoundUp size SectorSize <=? NumFirst then divRoundUp size SectorSize
       else divRoundUp size SectorSize
            + divRoundUp (divRoundUp size SectorSize) NumSecond) →
  ∃ m', Allocate size m = Ret false m' ∧ freeMap m' = freeMap m.
Proof.
  destruct m as [[nb0 ns0 ui0 slots] bm d f]. simpl. intros Hlen Hclear.
  rewrite Allocate_unfold. set (nS := divRoundUp size SectorSize) in *.
  destruct (Z.leb_spec nS NumFirst) as [Hle|Hgt].
  - destruct (Z.gtb_spec nS NumFirst); [lia|].
    destruct (Z.ltb_spec (bm_numClear bm) nS); [|lia]. by eexists.
  - destruct (Z.gtb_spec nS NumFirst); [|lia].
    rewrite AllocateWithIndex_fail by (fold nS; lia). by eexists.
Qed.

(** C1.  For every size in [1, NumFirst * NumSecond * SectorSize] and
    every bitmap, [Allocate] returns TRUE exactly when the bitmap has
    enough clear bits (direct mode: the number of data sectors; indexed
    mode: data sectors plus index nodes) and returns FALSE otherwise; on
    success [ByteToSector] of every offset below the size is a sector
    marked in the bitmap, and offsets in different sectors of the file are
    translated to different disk sectors. *)
Theorem Allocate_round_trip m size :
  Z.of_nat (length (dataSectors (this m))) = NumFirst →
  1 <= size <= NumFirst * NumSecond * SectorSize →
  let nS := divRoundUp size SectorSize in
  let need := if nS <=? NumFirst then nS else nS + divRoundUp nS NumSecond in
  ((∃ m', Allocate size m = Ret true m') ↔ need <= bm_numClear (freeMap m)) ∧
  (bm_numClear (freeMap m) < need → ∃ m', Allocate size m = Ret false m') ∧
  (∀ m', Allocate size m = Ret true m' →
     (∀ offset, 0 <= offset < size →
        ∃ v, ByteToSector offset m' = Ret v m' ∧
             bm_test (freeMap m') v = true) ∧
     (∀ o1 o2 v, 0 <= o1 < size → 0 <= o2 < size →
        ByteToSector o1 m' = Ret v m' → ByteToSector o2 m' = Ret v m' →
        o1 `div` SectorSize = o2 `div` SectorSize)).
Proof.
  intros Hlen Hsize nS need.
  assert (Hiff : (∃ m', Allocate size m = Ret true m')
                 ↔ need <= bm_numClear (freeMap m)).
  { split.
    - intros [m' Hrun]. destruct (Z.le_gt_cases need (bm_numClear (freeMap m)))
        as [|Hlt]; [done|].
      destruct (Allocate_failure m size Hlen) as (m'' & Hf & _); [exact Hlt|].
      congruence.
    - intros Hneed.
      destruct (Allocate_success m size Hlen (or_intror (size_in_range _ Hsize)) Hneed)
        as (m' & Hrun & _). by exists m'. }
  split; [done|]. split.
  - intros Hlt. destruct (Allocate_failure m size Hlen Hlt) as (m' & Hf & _).
    by exists m'.
  - intros m' Hrun. assert (Hneed : need <= bm_numClear (freeMap m))
      by (apply Hiff; by exists m').
    destruct (Allocate_success m size Hlen (or_intror (size_in_range _ Hsize)) Hneed)
      as (m'' & Hrun' & Hnb & HnS & Hrep).
    rewrite Hrun in Hrun'. injection Hrun' as <-.
    rewrite <- Hnb. rewrite <- Hnb in HnS.
    destruct Hrep as [(_ & l & Hrep & Hdr)|(_ & layout & Hrep & Hdr)].
    + by eapply direct_rep_translate.
    + by eapply indexed_rep_translate.
Qed.

(** ** Releasing sectors *)

Lemma bm_test_clear_eq (bm : list bool) e : bm_test (bm_clear bm e) e = false.
Proof.
  unfold bm_test, bm_clear. destruct (Z.ltb_spec e 0); [done|].
  destruct (decide (Z.to_nat e < length bm)%nat).
  - by rewrite list_lookup_insert_eq.
  - rewrite list_insert_ge by lia. by rewrite lookup_ge_None_2 by lia.
Qed.

Lemma bm_test_clear_ne (bm : list bool) e v :
  v ≠ e → bm_test (bm_clear bm e) v = bm_test bm v.
Proof.
  intros Hne. unfold bm_test, bm_clear.
  destruct (Z.ltb_spec v 0); [done|]. destruct (Z.ltb_spec e 0); [done|].
  rewrite list_lookup_insert_ne; [done|lia].
Qed.

Lemma bm_test_clear_mono (bm : list bool) e v :
  bm_test (bm_clear bm e) v = true → bm_test bm v = true.
Proof.
  destruct (decide (v = e)) as [->|Hne].
  - by rewrite bm_test_clear_eq.
  - by rewrite bm_test_clear_ne.
Qed.

Lemma bm_numClear_clear (bm : list bool) e :
  bm_test bm e = true → bm_numClear (bm_clear bm e) = bm_numClear bm + 1.
Proof.
  intros Ht. apply bm_test_true in Ht as [He Hl].
  unfold bm_numClear, bm_clear. destruct (Z.ltb_spec e 0); [lia|].
  pose proof (count_clear_insert bm _ true false Hl). simpl in *. lia.
Qed.

Lemma free_list_cons_set h bm d f e rest :
  bm_test bm e = true →
  free_list (e :: rest) (mkMachine h bm d f)
  = free_list rest (mkMachine h (bm_clear bm e) d f).
Proof.
  intros Ht. cbn [free_list]. unfold bind, Test, gets, ASSERT. simpl.
  by rewrite Ht.
Qed.

Lemma free_list_cons_clear h bm d f e rest :
  bm_test bm e = false →
  free_list (e :: rest) (mkMachine h bm d f) = AssertFail (mkMachine h bm d f).
Proof.
  intros Ht. cbn [free_list]. unfold bind, Test, gets, ASSERT. simpl.
  by rewrite Ht.
Qed.

Lemma free_list_app l1 l2 m :
  free_list (l1 ++ l2) m = bind (free_list l1) (λ _, free_list l2) m.
Proof.
  revert m. induction l1 as [|e l1 IH]; intros [h bm d f]; [done|].
  simpl app. destruct (bm_test bm e) eqn:Ht.
  - rewrite free_list_cons_set by done. rewrite IH. unfold bind.
    by rewrite free_list_cons_set by done.
  - rewrite free_list_cons_clear by done. unfold bind.
    by rewrite free_list_cons_clear by done.
Qed.

(** Releasing pairwise distinct, marked sectors succeeds and gives back as
    many clear bits. *)
Lemma free_list_ok (l : list Z) : ∀ h bm d f,
  NoDup l → (∀ v, v ∈ l → bm_test bm v = true) →
  ∃ bm', free_list l (mkMachine h bm d f) = Ret tt (mkMachine h bm' d f) ∧
         released bm l bm'.
Proof.
  induction l as [|e rest IH]; intros h bm d f Hnd Hset.
  - exists bm. split; [done|]. split; [|split; [done|simpl; lia]].
    intros v Hv. by apply not_elem_of_nil in Hv.
  - apply NoDup_cons in Hnd as [He Hnd].
    assert (Hte : bm_test bm e = true) by (apply Hset; by left).
    destruct (IH h (bm_clear bm e) d f Hnd) as (bm' & Hrun & Hin & Hout & Hc).
    { intros v Hv. rewrite bm_test_clear_ne; [apply Hset; by right|].
      intros ->. done. }
    exists bm'. split; [by rewrite free_list_cons_set|].
    split; [|split].
    + intros v Hv. apply elem_of_cons in Hv as [->|Hv].
      * split; [done|]. rewrite Hout by done. apply bm_test_clear_eq.
      * split; [apply Hset; by right|]. by apply Hin.
    + intros v Hv. apply not_elem_of_cons in Hv as [Hne Hv].
      rewrite Hout by done. by apply bm_test_clear_ne.
    + rewrite Hc, bm_numClear_clear by done. simpl. lia.
Qed.

(** Releasing halts as soon as a sector of the list is found clear; a
    sector that is clear beforehand is found clear at the latest when it
    is reached. *)
Lemma free_list_halts (l : list Z) : ∀ h bm d f v,
  v ∈ l → bm_test bm v = false →
  ∃ m', free_list l (mkMachine h bm d f) = AssertFail m'.
Proof.
  induction l as [|e rest IH]; intros h bm d f v Hv Hclear.
  - by apply not_elem_of_nil in Hv.
  - destruct (bm_test bm e) eqn:Hte.
    + rewrite free_list_cons_set by done.
      apply elem_of_cons in Hv as [->|Hv]; [congruence|].
      apply (IH _ _ _ _ v Hv). rewrite bm_test_clear_ne; [done|].
      intros ->. congruence.
    + rewrite free_list_cons_clear by done. by eexists.
Qed.

Lemma free_list_state (l : list Z) : ∀ h bm d f,
  (∃ bm', free_list l (mkMachine h bm d f) = Ret tt (mkMachine h bm' d f))
  ∨ (∃ m', free_list l (mkMachine h bm d f) = AssertFail m').
Proof.
  induction l as [|e rest IH]; intros h bm d f.
  - left. by exists bm.
  - destruct (bm_test bm e) eqn:Hte.
    + rewrite free_list_cons_set by done. apply IH.
    + rewrite free_list_cons_clear by done. right. by eexists.
Qed.

(** The statements of the loop bodies, with the double read of the array
    element folded into one. *)
Lemma free_entry_body (snode : list Z) j m :
  (e <- array_get snode j ;; b <- Test e ;; ASSERT b ;;
   e' <- array_get snode j ;; Clear e') m
  = (e <- array_get snode j ;; free_list [e]) m.
Proof.
  destruct m as [h bm d f]. unfold bind, array_get, undefined, ret.
  destruct (j <? 0); [done|].
  destruct (snode !! Z.to_nat j) as [e|]; [|done].
  cbn [free_list]. unfold bind, Test, gets, ASSERT, Clear, modify, ret. simpl.
  by destruct (bm_test bm e).
Qed.

Lemma free_slot_body i m :
  (s1 <- slot_read i ;; b <- Test s1 ;; ASSERT b ;;
   s2 <- slot_read i ;; Clear s2) m
  = (s <- slot_read i ;; free_list [s]) m.
Proof.
  destruct m as [[nb ns ui slots] bm d f].
  unfold slot_read, bind, gets, array_get, undefined, ret. simpl.
  destruct (i <? 0) eqn:Hi; [done|].
  destruct (slots !! Z.to_nat i) as [e|] eqn:He; [|done].
  cbn [free_list]. unfold bind, Test, gets, ASSERT, Clear, modify, ret. simpl.
  destruct (bm_test bm e); [|done]. cbn [this dataSectors]. by rewrite He.
Qed.

Lemma iter_free_entries (snode : list Z) n : ∀ lo h bm d f,
  0 <= lo → lo + Z.of_nat n <= Z.of_nat (length snode) →
  iter n lo (λ j _, e <- array_get snode j ;; b <- Test e ;; ASSERT b ;;
                     e' <- array_get snode j ;; Clear e') tt
    (mkMachine h bm d f)
  = free_list (take n (drop (Z.to_nat lo) snode)) (mkMachine h bm d f).
Proof.
  induction n as [|n IH]; intros lo h bm d f Hlo Hhi; [done|].
  destruct (lookup_lt_is_Some_2 snode (Z.to_nat lo)) as [e He]; [lia|].
  rewrite (drop_S _ _ _ He). cbn [iter take].
  unfold bind at 1. rewrite free_entry_body.
  erewrite bind_run; [|by apply array_get_ok|reflexivity].
  destruct (bm_test bm e) eqn:Hte.
  - rewrite !free_list_cons_set by done. cbn [free_list]. unfold ret.
    rewrite IH by lia. by replace (Z.to_nat (lo + 1)) with (S (Z.to_nat lo)) by lia.
  - by rewrite !free_list_cons_clear by done.
Qed.

Lemma free_entries_spec hi (snode : list Z) h bm d f :
  0 <= hi <= Z.of_nat (length snode) →
  free_entries hi snode (mkMachine h bm d f)
  = free_list (take (Z.to_nat hi) snode) (mkMachine h bm d f).
Proof.
  intros Hhi. unfold free_entries, for_, for_fold.
  rewrite iter_free_entries by lia. by rewrite Z.sub_0_r.
Qed.

Lemma iter_free_slots n : ∀ lo nb ns ui (slots : list Z) bm d f,
  0 <= lo → lo + Z.of_nat n <= Z.of_nat (length slots) →
  iter n lo (λ i _, s1 <- slot_read i ;; b <- Test s1 ;; ASSERT b ;;
                     s2 <- slot_read i ;; Clear s2) tt
    (mkMachine (mkFileHeader nb ns ui slots) bm d f)
  = free_list (take n (drop (Z.to_nat lo) slots))
      (mkMachine (mkFileHeader nb ns ui slots) bm d f).
Proof.
  induction n as [|n IH]; intros lo nb ns ui slots bm d f Hlo Hhi; [done|].
  destruct (lookup_lt_is_Some_2 slots (Z.to_nat lo)) as [e He]; [lia|].
  rewrite (drop_S _ _ _ He). cbn [iter take].
  unfold bind at 1. rewrite free_slot_body.
  erewrite bind_run; [|by apply slot_read_ok|reflexivity].
  destruct (bm_test bm e) eqn:Hte.
  - rewrite !free_list_cons_set by done. cbn [free_list]. unfold ret.
    rewrite IH by lia. by replace (Z.to_nat (lo + 1)) with (S (Z.to_nat lo)) by lia.
  - by rewrite !free_list_cons_clear by done.
Qed.

Lemma Deallocate_direct m (l : list Z) :
  direct_rep m l → Deallocate m = free_list l m.
Proof.
  destruct m as [[nb ns ui slots] bm d f]. unfold direct_rep. simpl.
  intros (-> & Hlen & Htake).
  assert (length l <= length slots)%nat.
  { rewrite <- Htake at 1. rewrite length_take. lia. }
  unfold Deallocate, bind at 1 2, gets. simpl. unfold for_, for_fold.
  destruct (decide (ns <= 0)) as [Hns|Hns].
  - replace (Z.to_nat (ns - 0)) with O by lia.
    destruct l; [done|simpl in Hlen; lia].
  - rewrite iter_free_slots by lia.
    rewrite Z.sub_0_r, <- Hlen. change (Z.to_nat 0) with O.
    by rewrite drop_0, Htake.
Qed.

Lemma iter_free_nodes numNode nS (layout : list (Z * list Z)) :
  ∀ lo nb ns ui (slots : list Z) bm (d : gmap Z SectorImage) f,
  0 <= lo →
  (∀ (k : nat) s es, layout !! k = Some (s, es) →
     slots !! (Z.to_nat lo + k)%nat = Some s ∧ 0 <= s ∧
     Z.of_nat (length es) = node_entries numNode nS (lo + Z.of_nat k) ∧
     ∃ node : list Z,
       d !! s = Some (NodeImage node) ∧ take (length es) node = es) →
  iter (length layout) lo
    (λ i _,
       s <- slot_read i ;;
       snode <- ReadSector s ;;
       (if i <? numNode - 1
        then free_entries NumSecond snode
        else free_entries (nS - NumSecond * (numNode - 1)) snode) ;;
       s1 <- slot_read i ;;
       b <- Test s1 ;;
       ASSERT b ;;
       s2 <- slot_read i ;;
       Clear s2) tt
    (mkMachine (mkFileHeader nb ns ui slots) bm d f)
  = free_list (release_order layout)
      (mkMachine (mkFileHeader nb ns ui slots) bm d f).
Proof.
  induction layout as [|[s es] rest IH];
    intros lo nb ns ui slots bm d f Hlo Hnodes; [done|].
  destruct (Hnodes O s es eq_refl) as (Hslot & Hs & Hes & node & Hd & Ht).
  rewrite Nat.add_0_r in Hslot. rewrite Z.add_0_r in Hes.
  assert (Hle : (length es <= length node)%nat).
  { rewrite <- Ht at 1. rewrite length_take. lia. }
  cbn [length iter release_order].
  rewrite free_list_app.
  rewrite !bind_bind.
  erewrite bind_Ret by (by apply slot_read_ok).
  rewrite !bind_bind.
  erewrite bind_Ret by (by apply ReadSector_ok).
  rewrite !bind_bind.
  erewrite (bind_ext_l _ (free_list es)).
  2:{ transitivity (free_entries (node_entries numNode nS lo) node
                      (mkMachine (mkFileHeader nb ns ui slots) bm d f)).
      { unfold node_entries. by destruct (lo <? numNode - 1). }
      rewrite free_entries_spec by lia.
      by rewrite <- Hes, Nat2Z.id, Ht. }
  destruct (free_list_state es (mkFileHeader nb ns ui slots) bm d f)
    as [[bm1 E]|[m' E]].
  2:{ by rewrite !(bind_AssertFail _ _ _ _ E). }
  rewrite !(bind_Ret _ _ _ _ _ E).
  erewrite (bind_ext_l _ (s0 <- slot_read lo ;; free_list [s0])).
  2:{ apply free_slot_body. }
  rewrite !bind_bind.
  erewrite bind_Ret by (by apply slot_read_ok).
  destruct (bm_test bm1 s) eqn:Hts.
  - unfold bind at 1. rewrite !free_list_cons_set by done.
    cbn [free_list]. unfold ret.
    rewrite IH; [done|lia|].
    intros k s' es' Hk. destruct (Hnodes (S k) s' es' Hk) as (? & ? & He' & ?).
    split; [|split; [done|split; [|done]]].
    + by replace (Z.to_nat (lo + 1) + k)%nat with (Z.to_nat lo + S k)%nat by lia.
    + rewrite He'. f_equal. lia.
  - unfold bind at 1. by rewrite !free_list_cons_clear by done.
Qed.

Lemma Deallocate_indexed m (layout : list (Z * list Z)) :
  indexed_rep m layout → Deallocate m = free_list (release_order layout) m.
Proof.
  destruct m as [[nb ns ui slots] bm d f]. unfold indexed_rep. simpl.
  intros (-> & Hlen & Hnodes).
  unfold Deallocate, bind at 1, gets. simpl.
  unfold DeallocateWithIndex, bind at 1, gets. simpl.
  unfold for_, for_fold.
  rewrite Z.sub_0_r, <- Hlen, Nat2Z.id.
  apply iter_free_nodes; [done|].
  intros k s es Hk. destruct (Hnodes k s es Hk) as (? & ? & ? & ?).
  repeat split; try done. by rewrite Hlen.
Qed.

Lemma release_order_perm (layout : list (Z * list Z)) :
  release_order layout ≡ₚ flat layout.
Proof.
  induction layout as [|[s es] rest IH]; [done|].
  simpl. rewrite IH. by rewrite <- Permutation_middle.
Qed.

(** A file drawn from the bitmap can be released, and the bitmap then has
    as many clear bits as before the file was created. *)
Lemma release_after_draw bm0 (l l' : list Z) h bm d f :
  drawn bm0 l bm → l' ≡ₚ l →
  ∃ bm', free_list l' (mkMachine h bm d f) = Ret tt (mkMachine h bm' d f) ∧
         bm_numClear bm' = bm_numClear bm0.
Proof.
  intros (Hnd & Hin & _ & Hc) Hperm.
  destruct (free_list_ok l' h bm d f) as (bm' & Hrun & _ & _ & Hc').
  { by rewrite Hperm. }
  { intros v Hv. rewrite Hperm in Hv. by apply Hin. }
  exists bm'. split; [done|]. rewrite Hc', Hc. rewrite Hperm. lia.
Qed.

(** ** Allocation beyond the header's slot array *)

Lemma slot_write_oob nb ns ui (slots : list Z) bm d f i v :
  ¬ (0 <= i < Z.of_nat (length slots)) →
  slot_write i v (mkMachine (mkFileHeader nb ns ui slots) bm d f)
  = Undef (mkMachine (mkFileHeader nb ns ui slots) bm d f).
Proof.
  intros Hi. unfold slot_write, bind, gets, array_set. simpl.
  destruct (Z.leb_spec 0 i); [|done].
  destruct (Z.ltb_spec i (Z.of_nat (length slots))); [lia|done].
Qed.

Lemma new_node_oob numNode nS nb ns ui (slots : list Z) bm d f i :
  ¬ (0 <= i < Z.of_nat (length slots)) →
  ∃ m', new_node numNode nS i (mkMachine (mkFileHeader nb ns ui slots) bm d f)
        = Undef m'.
Proof.
  intros Hi. unfold new_node. eexists.
  eapply bind_run; [apply Find_ok|].
  unfold bind. by rewrite slot_write_oob.
Qed.

(** With more index nodes than slots, the node loop runs past the end of
    [dataSectors]. *)
Lemma for_new_nodes_overflow nS nb ns ui (slots : list Z) bm d f :
  Z.of_nat (length slots) < divRoundUp nS NumSecond →
  nS + divRoundUp nS NumSecond <= bm_numClear bm →
  ∃ m', for_ 0 (divRoundUp nS NumSecond) (new_node (divRoundUp nS NumSecond) nS)
          (mkMachine (mkFileHeader nb ns ui slots) bm d f)
        = Undef m'.
Proof.
  set (numNode := divRoundUp nS NumSecond). intros Hlen Hclear.
  pose proof (divRoundUp_bounds nS NumSecond NumSecond_pos) as Hb.
  fold numNode in Hb.
  destruct (for_new_nodes numNode nS 0 (Z.of_nat (length slots)) nb ns ui slots bm d f)
    as (layout & bm' & d' & Hl & _ & Hrun & _); [lia|lia| | |].
  { intros i Hi. unfold node_entries.
    destruct (Z.ltb_spec i (numNode - 1)); lia. }
  { rewrite nodes_need_full by lia. nia. }
  unfold for_ in *.
  rewrite (for_fold_split 0 (Z.of_nat (length slots)) numNode) by lia.
  rewrite (bind_Ret _ _ _ _ _ Hrun).
  rewrite for_fold_step by lia.
  edestruct (new_node_oob numNode nS nb ns ui) as [m' Hm']; last first.
  { exists m'. unfold bind. by rewrite Hm'. }
  rewrite !length_app, length_take, length_fmap, length_drop. lia.
Qed.

Lemma Allocate_overflow m size m' :
  Z.of_nat (length (dataSectors (this m))) = NumFirst →
  NumFirst < divRoundUp size SectorSize →
  NumFirst < divRoundUp (divRoundUp size SectorSize) NumSecond →
  Allocate size m ≠ Ret true m'.
Proof.
  destruct m as [[nb0 ns0 ui0 slots] bm d f]. simpl. intros Hlen HnS HnN.
  rewrite Allocate_unfold. destruct (Z.gtb_spec (divRoundUp size SectorSize) NumFirst); [|lia].
  rewrite AllocateWithIndex_unfold.
  destruct (Z.ltb_spec (bm_numClear bm)
              (divRoundUp size SectorSize
               + divRoundUp (divRoundUp size SectorSize) NumSecond)); [done|].
  destruct (for_new_nodes_overflow (divRoundUp size SectorSize) size
              (divRoundUp size SectorSize) true slots bm d f) as [m1 Hm1];
    [lia|lia|].
  unfold bind. by rewrite Hm1.
Qed.

(** Every successful [Allocate] leaves a represented file whose sectors
    were drawn from the bitmap. *)
Lemma Allocate_true_inv m size m' :
  Z.of_nat (length (dataSectors (this m))) = NumFirst →
  Allocate size m = Ret true m' →
  numBytes (this m') = size ∧
  numSectors (this m') = divRoundUp size SectorSize ∧
  ((divRoundUp size SectorSize <= NumFirst ∧
    ∃ l, direct_rep m' l ∧ drawn (freeMap m) l (freeMap m')) ∨
   (NumFirst < divRoundUp size SectorSize ∧
    ∃ layout, indexed_rep m' layout ∧
              drawn (freeMap m) (flat layout) (freeMap m'))).
Proof.
  intros Hlen Hrun.
  set (nS := divRoundUp size SectorSize).
  set (need := if nS <=? NumFirst then nS else nS + divRoundUp nS NumSecond).
  assert (Hneed : need <= bm_numClear (freeMap m)).
  { destruct (Z.le_gt_cases need (bm_numClear (freeMap m))) as [|Hlt]; [done|].
    destruct (Allocate_failure m size Hlen Hlt) as (m'' & Hf & _). congruence. }
  assert (Hfit : nS <= NumFirst ∨ divRoundUp nS NumSecond <= NumFirst).
  { destruct (Z.le_gt_cases nS NumFirst) as [|H1]; [by left|].
    destruct (Z.le_gt_cases (divRoundUp nS NumSecond) NumFirst) as [|H2];
      [by right|].
    exfalso. by apply (Allocate_overflow m size m' Hlen). }
  destruct (Allocate_success m size Hlen Hfit Hneed)
    as (m'' & Hrun' & Hnb & Hns & Hrep).
  rewrite Hrun in Hrun'. by injection Hrun' as <-.
Qed.

(** C5.  Whenever [Allocate] succeeds, [Deallocate] on the resulting
    header returns normally and the bitmap has again as many clear bits as
    before the call to [Allocate]. *)
Theorem Deallocate_restores_NumClear m size m1 :
  Z.of_nat (length (dataSectors (this m))) = NumFirst →
  Allocate size m = Ret true m1 →
  ∃ m2, Deallocate m1 = Ret tt m2 ∧
        bm_numClear (freeMap m2) = bm_numClear (freeMap m).
Proof.
  intros Hlen Hrun.
  destruct (Allocate_true_inv m size m1 Hlen Hrun) as (_ & _ & Hrep).
  destruct m1 as [h1 bm1 d1 f1].
  destruct Hrep as [(_ & l & Hrep & Hdr)|(_ & layout & Hrep & Hdr)].
  - rewrite (Deallocate_direct _ l Hrep).
    destruct (release_after_draw (freeMap m) l l h1 bm1 d1 f1 Hdr)
      as (bm' & Hfree & Hc); [done|].
    eexists. split; [exact Hfree|done].
  - rewrite (Deallocate_indexed _ layout Hrep).
    destruct (release_after_draw (freeMap m) (flat layout) (release_order layout)
                h1 bm1 d1 f1 Hdr) as (bm' & Hfree & Hc);
      [apply release_order_perm|].
    eexists. split; [exact Hfree|done].
Qed.

(** ** ByteToSector against the design document *)

Lemma ByteToSector_spec_eq m offset :
  0 <= offset →
  ByteToSector offset m
  = match sector_of_spec m offset with
    | Some v => Ret v m
    | None => Undef m
    end.
Proof.
  intros Hoff. destruct m as [[nb ns ui slots] bm d f].
  assert (Hws : offset `quot` SectorSize = offset `div` SectorSize)
    by (apply Z.quot_div_nonneg; lia).
  assert (0 <= offset `div` SectorSize) by (apply Z.div_pos; lia).
  unfold ByteToSector, sector_of_spec, bind, gets. simpl. destruct ui.
  - unfold ByteToSectorWithIndex. rewrite Hws.
    set (ws := offset `div` SectorSize) in *.
    assert (Hwn : ws `quot` NumSecond = ws `div` NumSecond)
      by (apply Z.quot_div_nonneg; lia).
    rewrite Hwn. set (wn := ws `div` NumSecond).
    assert (0 <= wn) by (apply Z.div_pos; lia).
    assert (0 <= ws - wn * NumSecond).
    { pose proof (Z.div_mod ws NumSecond).
      pose proof (Z.mod_pos_bound ws NumSecond NumSecond_pos). unfold wn. lia. }
    unfold bind, slot_read, bind, gets, array_get, undefined, ret. simpl.
    destruct (Z.ltb_spec wn 0); [lia|].
    destruct (slots !! Z.to_nat wn) as [s|]; [|done]. simpl.
    unfold ReadSector. simpl.
    destruct (disk_node d s) as [entries|]; [|done]. simpl.
    destruct (Z.ltb_spec (ws - wn * NumSecond) 0); [lia|].
    by destruct (entries !! _).
  - rewrite Hws. unfold slot_read, bind, gets, array_get, undefined, ret. simpl.
    destruct (Z.ltb_spec (offset `div` SectorSize) 0); [lia|].
    by destruct (slots !! _).
Qed.

(** C6.  For every header and every byte offset [0 <= offset] below the
    file's length, [ByteToSector] returns [dataSectors[offset / SectorSize]]
    in direct mode, and in indexed mode the entry
    [whichSector - whichNode * NumSecond] of the index node stored at
    [dataSectors[whichNode]], with [whichSector = offset / SectorSize] and
    [whichNode = whichSector / NumSecond]; where the design document's
    translation is not defined (an index outside an array, a sector that
    holds no index node) the code's behaviour is undefined. *)
Theorem ByteToSector_sector_of_spec m offset :
  0 <= offset → offset < numBytes (this m) →
  ByteToSector offset m
  = match sector_of_spec m offset with
    | Some v => Ret v m
    | None => Undef m
    end.
Proof. intros Hoff _. by apply ByteToSector_spec_eq. Qed.

(** ** What the operations leave unchanged *)

Lemma same_counts_refl x : same_counts x x.
Proof. done. Qed.

Lemma same_counts_trans x y z :
  same_counts x y → same_counts y z → same_counts x z.
Proof. intros (? & ? & ?) (? & ? & ?). repeat split; congruence. Qed.

Lemma only_clears_refl x : only_clears x x.
Proof. done. Qed.

Lemma only_clears_trans x y z :
  only_clears x y → only_clears y z → only_clears x z.
Proof.
  intros (? & ? & H1) (? & ? & H2). repeat split; try congruence.
  intros v Hv. by apply H1, H2.
Qed.

Section Preserves.

Context (R : Machine → Machine → Prop).
Hypothesis R_refl : ∀ x, R x x.
Hypothesis R_trans : ∀ x y z, R x y → R y z → R x z.

Lemma preserves_ret {A} (a : A) : preserves R (ret a).
Proof. intros x b y [= _ <-]. apply R_refl. Qed.

Lemma preserves_undefined {A} : preserves R (@undefined A).
Proof. by intros x b y. Qed.

Lemma preserves_gets {A} (g : Machine → A) : preserves R (gets g).
Proof. intros x b y [= _ <-]. apply R_refl. Qed.

Lemma preserves_bind {A B} (c : M A) (k : A → M B) :
  preserves R c → (∀ a, preserves R (k a)) → preserves R (bind c k).
Proof.
  intros Hc Hk x b y H. apply bind_Ret_inv in H as (a & x1 & H1 & H2).
  eapply R_trans; [by eapply Hc|by eapply Hk].
Qed.

Lemma preserves_if {A} (b : bool) (c1 c2 : M A) :
  preserves R c1 → preserves R c2 → preserves R (if b then c1 else c2).
Proof. by destruct b. Qed.

Lemma preserves_for_fold {A} lo hi (body : Z → A → M A) a :
  (∀ i b, preserves R (body i b)) → preserves R (for_fold lo hi body a).
Proof.
  intros Hbody x b y H. unfold for_fold in H.
  eapply iter_preserves; [done|done| |exact H].
  intros i c z c' z' Hz. by eapply Hbody.
Qed.

Lemma preserves_for lo hi (body : Z → M unit) :
  (∀ i, preserves R (body i)) → preserves R (for_ lo hi body).
Proof. intros Hbody. unfold for_. by apply preserves_for_fold. Qed.

Lemma preserves_ASSERT b : preserves R (ASSERT b).
Proof. intros x [] y. unfold ASSERT. destruct b; [|done]. intros [= <-]. apply R_refl. Qed.

Lemma preserves_array_get (a : list Z) i : preserves R (array_get a i).
Proof.
  unfold array_get. destruct (i <? 0); [apply preserves_undefined|].
  destruct (a !! _); [apply preserves_ret|apply preserves_undefined].
Qed.

Lemma preserves_array_set (a : list Z) i v : preserves R (array_set a i v).
Proof.
  unfold array_set. destruct (_ && _); [apply preserves_ret|apply preserves_undefined].
Qed.

Lemma preserves_slot_read i : preserves R (slot_read i).
Proof.
  unfold slot_read. apply preserves_bind; [apply preserves_gets|].
  intros a. apply preserves_array_get.
Qed.

Lemma preserves_ReadSector s : preserves R (ReadSector s).
Proof.
  intros x n y. unfold ReadSector. destruct (disk_node _ _); [|done].
  intros [= _ <-]. apply R_refl.
Qed.

End Preserves.

Lemma run_preserves {A} (R : Machine → Machine → Prop) (c : M A) x a y :
  c x = Ret a y → preserves R c → R x y.
Proof. intros H Hc. by eapply Hc. Qed.

(** Proof steps for [preserves] goals. *)
Ltac pres_side :=
  first [ exact same_counts_refl | exact same_counts_trans
        | exact only_clears_refl | exact only_clears_trans ].

Ltac pres_step :=
  lazymatch goal with
  | |- preserves _ (bind _ _) => apply preserves_bind; [pres_side| |intros ?]
  | |- preserves _ (gets _) => apply preserves_gets; pres_side
  | |- preserves _ (ret _) => apply preserves_ret; pres_side
  | |- preserves _ (slot_read _) => apply preserves_slot_read; pres_side
  | |- preserves _ (array_get _ _) => apply preserves_array_get; pres_side
  | |- preserves _ (array_set _ _ _) => apply preserves_array_set; pres_side
  | |- preserves _ (ReadSector _) => apply preserves_ReadSector; pres_side
  | |- preserves _ (Test _) => apply preserves_gets; pres_side
  | |- preserves _ (ASSERT _) => apply preserves_ASSERT; pres_side
  | |- preserves _ undefined => apply preserves_undefined
  | |- preserves _ (if _ then _ else _) => apply preserves_if
  | |- preserves _ (for_fold _ _ _ _) =>
      apply preserves_for_fold; [pres_side|pres_side|intros ? ?]
  | |- preserves _ (for_ _ _ _) =>
      apply preserves_for; [pres_side|pres_side|intros ?]
  end.

Ltac pres := repeat pres_step.

Create HintDb frame.

Lemma modify_same_counts g :
  (∀ x, same_counts x (g x)) → preserves same_counts (modify g).
Proof. intros Hg x [] y [= <-]. apply Hg. Qed.

Lemma Find_same_counts : preserves same_counts Find.
Proof. by intros x a y [= _ <-]. Qed.

Lemma Clear_same_counts v : preserves same_counts (Clear v).
Proof. by apply modify_same_counts. Qed.

Lemma set_dataSectors_same_counts a : preserves same_counts (set_dataSectors a).
Proof. by apply modify_same_counts. Qed.

Lemma WriteSector_same_counts s img : preserves same_counts (WriteSector s img).
Proof.
  unfold WriteSector. destruct (s <? 0); [by apply preserves_undefined|].
  by apply modify_same_counts.
Qed.

Lemma WriteBack_freeMapFile_same_counts : preserves same_counts WriteBack_freeMapFile.
Proof. by apply modify_same_counts. Qed.

#[local] Hint Resolve Find_same_counts Clear_same_counts
  set_dataSectors_same_counts WriteSector_same_counts
  WriteBack_freeMapFile_same_counts : frame.

Lemma slot_write_same_counts i v : preserves same_counts (slot_write i v).
Proof. unfold slot_write. pres; auto with frame. Qed.

Lemma WriteBack_same_counts s : preserves same_counts (WriteBack s).
Proof. unfold WriteBack. pres; auto with frame. Qed.

Lemma fill_node_same_counts lo hi node :
  preserves same_counts (fill_node lo hi node).
Proof. unfold fill_node. pres; auto with frame. Qed.

#[local] Hint Resolve slot_write_same_counts WriteBack_same_counts
  fill_node_same_counts : frame.

Lemma new_node_same_counts numNode nS i :
  preserves same_counts (new_node numNode nS i).
Proof. unfold new_node. pres; auto with frame. Qed.

Lemma fill_slots_same_counts lo hi :
  preserves same_counts (for_ lo hi (λ i, s <- Find ;; slot_write i s)).
Proof. pres; auto with frame. Qed.

Lemma fill_last_node_same_counts old nS :
  preserves same_counts (fill_last_node old nS).
Proof. unfold fill_last_node. pres; auto with frame. Qed.

#[local] Hint Resolve new_node_same_counts fill_slots_same_counts
  fill_last_node_same_counts : frame.


(** ** addLength *)

Lemma addLength_unfold addBytes headSector nb ns ui slots bm d f :
  let nS := divRoundUp (nb + addBytes) SectorSize in
  addLength addBytes headSector (mkMachine (mkFileHeader nb ns ui slots) bm d f)
  = if nS - ns =? 0 then
      (WriteBack headSector ;; ret true)
        (mkMachine (mkFileHeader (nb + addBytes) nS ui slots) bm d f)
    else if nS <=? NumFirst then
      (for_ ns nS (λ i, s <- Find ;; slot_write i s) ;;
       WriteBack_freeMapFile ;;
       WriteBack headSector ;;
       ret true)
        (mkMachine (mkFileHeader (nb + addBytes) nS ui slots) f d f)
    else
      ((if negb ui then migrate ns else ret tt) ;;
       (if negb (ns `rem` NumSecond =? 0) then fill_last_node ns nS else ret tt) ;;
       for_ (divRoundUp ns NumSecond) (divRoundUp nS NumSecond)
         (new_node (divRoundUp nS NumSecond) nS) ;;
       WriteBack headSector ;;
       WriteBack_freeMapFile ;;
       ret true)
        (mkMachine (mkFileHeader (nb + addBytes) nS ui slots) f d f).
Proof.
  intros nS. unfold addLength, bind at 1 2 3 4 5 6. simpl. fold nS.
  destruct (nS - ns =? 0); [done|].
  unfold bind at 1. simpl.
  destruct (Z.leb_spec nS NumFirst); [done|].
  unfold bind at 1. simpl.
  destruct (Z.gtb_spec nS NumFirst); [|lia]. simpl. done.
Qed.

Lemma migrate_same_counts_but_mode old x a y :
  migrate old x = Ret a y →
  numBytes (this y) = numBytes (this x) ∧
  numSectors (this y) = numSectors (this x) ∧
  useIndex (this y) = true.
Proof.
  unfold migrate. intros H.
  apply bind_Ret_inv in H as (sec & x1 & H1 & H).
  apply Find_same_counts in H1.
  apply bind_Ret_inv in H as (snode & x2 & H2 & H).
  assert (same_counts x1 x2) as H2'.
  { revert H2. apply preserves_for_fold; [pres_side|pres_side|].
    intros i b. pres. }
  apply bind_Ret_inv in H as ([] & x3 & H3 & H).
  apply slot_write_same_counts in H3.
  apply bind_Ret_inv in H as ([] & x4 & H4 & H).
  apply WriteSector_same_counts in H4.
  injection H as <- <-. simpl.
  destruct H1 as (? & ? & ?), H2' as (? & ? & ?), H3 as (? & ? & ?),
    H4 as (? & ? & ?).
  repeat split; congruence.
Qed.

(** The header fields after [addLength], whenever it returns. *)
Lemma addLength_fields addBytes headSector m b m' :
  addLength addBytes headSector m = Ret b m' →
  let nS := divRoundUp (numBytes (this m) + addBytes) SectorSize in
  b = true ∧
  numBytes (this m') = numBytes (this m) + addBytes ∧
  numSectors (this m') = nS ∧
  useIndex (this m')
  = (if nS - numSectors (this m) =? 0 then useIndex (this m)
     else if nS <=? NumFirst then useIndex (this m) else true).
Proof.
  destruct m as [[nb ns ui slots] bm d f]. rewrite addLength_unfold. simpl.
  set (nS := divRoundUp (nb + addBytes) SectorSize).
  destruct (nS - ns =? 0); [|destruct (nS <=? NumFirst)].
  - intros H. apply bind_Ret_inv in H as ([] & x1 & E1 & H).
    apply WriteBack_same_counts in E1 as (? & ? & ?). by injection H as <- <-.
  - intros H. apply bind_Ret_inv in H as ([] & x1 & E1 & H).
    apply fill_slots_same_counts in E1 as (? & ? & ?).
    apply bind_Ret_inv in H as ([] & x2 & E2 & H).
    apply WriteBack_freeMapFile_same_counts in E2 as (? & ? & ?).
    apply bind_Ret_inv in H as ([] & x3 & E3 & H).
    apply WriteBack_same_counts in E3 as (? & ? & ?).
    injection H as <- <-. simpl in *. repeat split; congruence.
  - intros H. apply bind_Ret_inv in H as ([] & x1 & E1 & H).
    assert (numBytes (this x1) = nb + addBytes ∧ numSectors (this x1) = nS
            ∧ useIndex (this x1) = true) as (? & ? & ?).
    { destruct ui; simpl in E1.
      - by injection E1 as <-.
      - by apply migrate_same_counts_but_mode in E1 as (? & ? & ?). }
    apply bind_Ret_inv in H as ([] & x2 & E2 & H).
    assert (same_counts x1 x2) as (? & ? & ?).
    { destruct (negb (ns `rem` NumSecond =? 0)).
      - by apply fill_last_node_same_counts in E2.
      - by injection E2 as <-. }
    apply bind_Ret_inv in H as ([] & x3 & E3 & H).
    assert (same_counts x2 x3) as (? & ? & ?).
    { revert E3. apply preserves_for; [pres_side|pres_side|].
      intros i. apply new_node_same_counts. }
    apply bind_Ret_inv in H as ([] & x4 & E4 & H).
    apply WriteBack_same_counts in E4 as (? & ? & ?).
    apply bind_Ret_inv in H as ([] & x5 & E5 & H).
    apply WriteBack_freeMapFile_same_counts in E5 as (? & ? & ?).
    injection H as <- <-. repeat split; congruence.
Qed.

(** The header fields after [Allocate], whenever it returns. *)
Lemma Allocate_fields size m b m' :
  Allocate size m = Ret b m' →
  numBytes (this m') = size ∧
  numSectors (this m') = divRoundUp size SectorSize ∧
  useIndex (this m') = (divRoundUp size SectorSize >? NumFirst).
Proof.
  destruct m as [[nb ns ui slots] bm d f]. rewrite Allocate_unfold.
  set (nS := divRoundUp size SectorSize).
  destruct (nS >? NumFirst).
  - rewrite AllocateWithIndex_unfold. fold nS. destruct (_ <? _).
    + by intros [= _ <-].
    + intros H. apply bind_Ret_inv in H as ([] & x1 & E1 & H).
      assert (same_counts (mkMachine (mkFileHeader size nS true slots) bm d f) x1)
        as (? & ? & ?).
      { revert E1. apply preserves_for; [pres_side|pres_side|].
        intros i. apply new_node_same_counts. }
      by injection H as _ <-.
  - destruct (_ <? _).
    + by intros [= _ <-].
    + intros H. apply bind_Ret_inv in H as ([] & x1 & E1 & H).
      apply fill_slots_same_counts in E1 as (? & ? & ?).
      by injection H as _ <-.
Qed.

Lemma Clear_only_clears v : preserves only_clears (Clear v).
Proof.
  intros x [] y [= <-]. split; [done|]. split; [done|].
  simpl. apply bm_test_clear_mono.
Qed.

Lemma free_entries_only_clears hi snode :
  preserves only_clears (free_entries hi snode).
Proof. unfold free_entries. pres. apply Clear_only_clears. Qed.

Lemma Deallocate_only_clears : preserves only_clears Deallocate.
Proof.
  unfold Deallocate, DeallocateWithIndex. pres;
    auto using Clear_only_clears, free_entries_only_clears.
Qed.

(** C9.  After [Allocate] has returned TRUE and after [addLength] has
    returned TRUE, [numSectors] is the ceiling of [numBytes / SectorSize]
    (that is, [SectorSize * (numSectors - 1) < numBytes <= SectorSize * numSectors]);
    [Deallocate] does not write the header, so the equation still holds
    after it.  [divRoundUp] is the ceiling as the design document has it. *)
Theorem numSectors_is_ceiling :
  (∀ m size m',
     Allocate size m = Ret true m' → sector_count_ok (this m')) ∧
  (∀ m addBytes headSector m',
     addLength addBytes headSector m = Ret true m' →
     sector_count_ok (this m')) ∧
  (∀ m m',
     sector_count_ok (this m) → Deallocate m = Ret tt m' →
     sector_count_ok (this m')).
Proof.
  split; [|split].
  - intros m size m' H. apply Allocate_fields in H as (Hb & Hs & _).
    unfold sector_count_ok. rewrite Hb, Hs.
    apply divRoundUp_bounds, SectorSize_pos.
  - intros m addBytes headSector m' H.
    apply addLength_fields in H as (_ & Hb & Hs & _).
    unfold sector_count_ok. rewrite Hb, Hs.
    apply divRoundUp_bounds, SectorSize_pos.
  - intros m m' Hok H. apply Deallocate_only_clears in H as (Hthis & _).
    by rewrite Hthis.
Qed.

(** C10.  After a successful [Allocate] the mode flag is set exactly when
    the sector count exceeds [NumFirst]; [addLength] by a non-negative
    number of bytes, on a header whose flag and sector count agree, leaves
    a header whose flag and sector count agree. *)
Theorem useIndex_iff_numSectors_gt_NumFirst :
  (∀ m size m',
     Allocate size m = Ret true m' → mode_ok (this m')) ∧
  (∀ m addBytes headSector m',
     0 <= addBytes → sector_count_ok (this m) → mode_ok (this m) →
     addLength addBytes headSector m = Ret true m' → mode_ok (this m')).
Proof.
  split.
  - intros m size m' H. apply Allocate_fields in H as (_ & Hs & Hu).
    unfold mode_ok. rewrite Hs, Hu.
    destruct (Z.gtb_spec (divRoundUp size SectorSize) NumFirst); split; (done || lia).
  - intros m addBytes headSector m' Hadd Hok Hmode H.
    apply addLength_fields in H as (_ & Hb & Hs & Hu).
    unfold mode_ok in *. rewrite Hs, Hu. clear Hu.
    assert (numSectors (this m)
            <= divRoundUp (numBytes (this m) + addBytes) SectorSize).
    { unfold sector_count_ok in Hok.
      pose proof (divRoundUp_bounds (numBytes (this m) + addBytes) SectorSize
                    SectorSize_pos). nia. }
    destruct (Z.eqb_spec (divRoundUp (numBytes (this m) + addBytes) SectorSize
                          - numSectors (this m)) 0) as [Heq|Hne].
    + replace (divRoundUp (numBytes (this m) + addBytes) SectorSize)
        with (numSectors (this m)) by lia. done.
    + destruct (Z.leb_spec (divRoundUp (numBytes (this m) + addBytes) SectorSize)
                  NumFirst).
      * split; [|lia]. intros Hu. apply Hmode in Hu. lia.
      * done.
Qed.

(** ** Deallocate on sectors that are already free *)

Lemma slot_read_inv i x s y :
  slot_read i x = Ret s y →
  y = x ∧ 0 <= i ∧ dataSectors (this x) !! Z.to_nat i = Some s.
Proof.
  unfold slot_read, bind, gets, array_get, undefined, ret.
  destruct (Z.ltb_spec i 0); [done|].
  destruct (dataSectors (this x) !! Z.to_nat i); [|done].
  by intros [= <- <-].
Qed.

Lemma array_get_inv (a : list Z) i x s y :
  array_get a i x = Ret s y → y = x ∧ 0 <= i ∧ a !! Z.to_nat i = Some s.
Proof.
  unfold array_get, undefined, ret. destruct (Z.ltb_spec i 0); [done|].
  destruct (a !! Z.to_nat i); [|done]. by intros [= <- <-].
Qed.

Lemma ReadSector_inv s x n y :
  ReadSector s x = Ret n y → y = x ∧ disk_node (synchDisk x) s = Some n.
Proof.
  unfold ReadSector. destruct (disk_node _ _); [|done]. by intros [= <- <-].
Qed.

Lemma free_one_inv h bm d f e y :
  free_list [e] (mkMachine h bm d f) = Ret tt y →
  bm_test bm e = true ∧ y = mkMachine h (bm_clear bm e) d f.
Proof.
  destruct (bm_test bm e) eqn:Hte.
  - rewrite free_list_cons_set by done. by intros [= <-].
  - by rewrite free_list_cons_clear.
Qed.

(** The first sector [Deallocate] releases, in direct mode ... *)
Lemma Deallocate_direct_first_inv nb ns slots bm d f m' :
  0 < ns →
  Deallocate (mkMachine (mkFileHeader nb ns false slots) bm d f) = Ret tt m' →
  ∃ s, slots !! O = Some s ∧
       only_clears (mkMachine (mkFileHeader nb ns false slots) (bm_clear bm s) d f) m'.
Proof.
  intros Hns. unfold Deallocate, bind at 1 2, gets. simpl.
  unfold for_. rewrite for_fold_step by lia. intros H.
  apply bind_Ret_inv in H as ([] & x1 & H1 & H).
  rewrite free_slot_body in H1.
  apply bind_Ret_inv in H1 as (s & x0 & E0 & H1).
  apply slot_read_inv in E0 as (-> & _ & Hs). simpl in Hs.
  apply free_one_inv in H1 as (_ & ->).
  exists s. split; [done|].
  apply (run_preserves only_clears _ _ _ _ H). pres. apply Clear_only_clears.
Qed.

Lemma Deallocate_direct_first_halts nb ns slots bm d f s :
  0 < ns → slots !! O = Some s → bm_test bm s = false →
  Deallocate (mkMachine (mkFileHeader nb ns false slots) bm d f)
  = AssertFail (mkMachine (mkFileHeader nb ns false slots) bm d f).
Proof.
  intros Hns Hs Hclear. unfold Deallocate, bind at 1 2, gets. simpl.
  unfold for_. rewrite for_fold_step by lia.
  apply bind_AssertFail. rewrite free_slot_body.
  eapply bind_run; [by apply slot_read_ok|].
  by apply free_list_cons_clear.
Qed.

(** ... and in indexed mode. *)
Lemma Deallocate_indexed_first_inv nb ns slots bm d f m' :
  0 < ns →
  Deallocate (mkMachine (mkFileHeader nb ns true slots) bm d f) = Ret tt m' →
  ∃ s n e, slots !! O = Some s ∧ disk_node d s = Some n ∧ n !! O = Some e ∧
       only_clears (mkMachine (mkFileHeader nb ns true slots) (bm_clear bm e) d f) m'.
Proof.
  intros Hns. unfold Deallocate, bind at 1, gets. simpl.
  unfold DeallocateWithIndex, bind at 1, gets. simpl.
  pose proof (divRoundUp_pos ns NumSecond NumSecond_pos Hns) as HnN.
  pose proof (node_entries_bounds ns 0) as Hcnt.
  set (numNode := divRoundUp ns NumSecond) in *.
  unfold for_. rewrite for_fold_step by lia. intros H.
  apply bind_Ret_inv in H as ([] & x1 & H1 & H).
  apply bind_Ret_inv in H1 as (s & x0 & E0 & H1).
  apply slot_read_inv in E0 as (-> & _ & Hs). simpl in Hs.
  apply bind_Ret_inv in H1 as (n & x0 & E0 & H1).
  apply ReadSector_inv in E0 as (-> & Hn). simpl in Hn.
  apply bind_Ret_inv in H1 as ([] & x2 & H2 & H1).
  assert (H2' : free_entries (node_entries numNode ns 0) n
                  (mkMachine (mkFileHeader nb ns true slots) bm d f) = Ret tt x2).
  { unfold node_entries. by destruct (0 <? numNode - 1). }
  clear H2. unfold free_entries, for_ in H2'.
  rewrite for_fold_step in H2' by lia.
  apply bind_Ret_inv in H2' as ([] & x3 & H3 & H2).
  rewrite free_entry_body in H3.
  apply bind_Ret_inv in H3 as (e & x0 & E0 & H3).
  apply array_get_inv in E0 as (-> & _ & He).
  apply free_one_inv in H3 as (_ & ->).
  exists s, n, e. split; [done|]. split; [done|]. split; [done|].
  eapply only_clears_trans; [|eapply only_clears_trans].
  - apply (run_preserves only_clears _ _ _ _ H2). pres. apply Clear_only_clears.
  - apply (run_preserves only_clears _ _ _ _ H1). pres. apply Clear_only_clears.
  - apply (run_preserves only_clears _ _ _ _ H).
    pres; auto using Clear_only_clears, free_entries_only_clears.
Qed.

Lemma Deallocate_indexed_first_halts nb ns slots bm d f s n e :
  0 < ns → slots !! O = Some s → disk_node d s = Some n → n !! O = Some e →
  bm_test bm e = false →
  Deallocate (mkMachine (mkFileHeader nb ns true slots) bm d f)
  = AssertFail (mkMachine (mkFileHeader nb ns true slots) bm d f).
Proof.
  intros Hns Hs Hn He Hclear. unfold Deallocate, bind at 1, gets. simpl.
  unfold DeallocateWithIndex, bind at 1, gets. simpl.
  pose proof (divRoundUp_pos ns NumSecond NumSecond_pos Hns) as HnN.
  pose proof (node_entries_bounds ns 0) as Hcnt.
  set (numNode := divRoundUp ns NumSecond) in *.
  unfold for_. rewrite for_fold_step by lia.
  apply bind_AssertFail.
  eapply bind_run; [by apply slot_read_ok|].
  eapply bind_run; [unfold ReadSector; simpl; by rewrite Hn|].
  apply bind_AssertFail.
  transitivity (free_entries (node_entries numNode ns 0) n
                  (mkMachine (mkFileHeader nb ns true slots) bm d f)).
  { unfold node_entries. by destruct (0 <? numNode - 1). }
  unfold free_entries, for_. rewrite for_fold_step by lia.
  apply bind_AssertFail. rewrite free_entry_body.
  eapply bind_run; [by apply array_get_ok|].
  by apply free_list_cons_clear.
Qed.

(** C4.  [Deallocate] halts on a failed assertion when a sector of the
    file is marked free in the bitmap; when [Deallocate] has returned
    for a header that owns at least one sector, a second [Deallocate] on
    the same header halts; and for a header without sectors, in either
    mode, [Deallocate] tests and clears nothing: it returns with the
    machine unchanged, on every call. *)
Theorem Deallocate_halts_on_free_sector :
  (∀ m l v,
     direct_rep m l → v ∈ l → bm_test (freeMap m) v = false →
     ∃ m', Deallocate m = AssertFail m') ∧
  (∀ m layout v,
     indexed_rep m layout → v ∈ flat layout → bm_test (freeMap m) v = false →
     ∃ m', Deallocate m = AssertFail m') ∧
  (∀ m m',
     0 < numSectors (this m) → Deallocate m = Ret tt m' →
     ∃ m'', Deallocate m' = AssertFail m'') ∧
  (∀ m, numSectors (this m) = 0 → Deallocate m = Ret tt m).
Proof.
  split; [|split; [|split]].
  - intros [h bm d f] l v Hrep Hv Hclear.
    rewrite (Deallocate_direct _ l Hrep). by eapply free_list_halts.
  - intros [h bm d f] layout v Hrep Hv Hclear.
    rewrite (Deallocate_indexed _ layout Hrep).
    eapply free_list_halts; [|done]. by rewrite release_order_perm.
  - intros [[nb ns ui slots] bm d f] [h' bm' d' f'] Hns H. simpl in Hns.
    destruct ui.
    + apply Deallocate_indexed_first_inv in H
        as (s & n & e & Hs & Hn & He & Hh & Hd & Hbm); [|done].
      simpl in Hh, Hd, Hbm. subst h' d'. eexists.
      eapply Deallocate_indexed_first_halts; try done.
      destruct (bm_test bm' e) eqn:Hte; [|done].
      apply Hbm in Hte. by rewrite bm_test_clear_eq in Hte.
    + apply Deallocate_direct_first_inv in H as (s & Hs & Hh & Hd & Hbm); [|done].
      simpl in Hh, Hd, Hbm. subst h' d'. eexists.
      eapply Deallocate_direct_first_halts; try done.
      destruct (bm_test bm' s) eqn:Hte; [|done].
      apply Hbm in Hte. by rewrite bm_test_clear_eq in Hte.
  - intros [[nb ns ui slots] bm d f]. simpl. intros ->.
    unfold Deallocate, bind at 1, gets. simpl. destruct ui.
    + unfold DeallocateWithIndex, bind at 1, gets. simpl.
      rewrite (divRoundUp_unique 0 NumSecond 0) by lia.
      unfold for_. by rewrite for_fold_nil.
    + unfold bind at 1, gets. simpl. unfold for_. by rewrite for_fold_nil.
Qed.

(** ** Growth that stays in direct mode *)

Lemma ByteToSector_direct_slot nb ns (slots : list Z) bm d f offset v :
  0 <= offset → slots !! Z.to_nat (offset `div` SectorSize) = Some v →
  ByteToSector offset (mkMachine (mkFileHeader nb ns false slots) bm d f)
  = Ret v (mkMachine (mkFileHeader nb ns false slots) bm d f).
Proof.
  intros Hoff Hv. rewrite ByteToSector_spec_eq by done.
  unfold sector_of_spec. simpl. by rewrite Hv.
Qed.

Lemma splice_lookup (a l : list Z) (k i : nat) :
  (k + length l <= length a)%nat → (i < k ∨ k + length l <= i)%nat →
  (take k a ++ l ++ drop (k + length l) a) !! i = a !! i.
Proof.
  intros Hk [Hi|Hi].
  - rewrite lookup_app_l by (rewrite length_take; lia).
    by apply lookup_take_lt.
  - rewrite lookup_app_r by (rewrite length_take; lia).
    rewrite length_take, lookup_app_r by lia.
    rewrite lookup_drop. f_equal. lia.
Qed.

Lemma addLength_direct_run addBytes headSector nb ns (slots : list Z) bm d f :
  0 <= ns <= divRoundUp (nb + addBytes) SectorSize →
  divRoundUp (nb + addBytes) SectorSize <= NumFirst →
  Z.of_nat (length slots) = NumFirst → 0 <= headSector →
  ∃ (l : list Z) bm' d' f',
    Z.of_nat (length l) = divRoundUp (nb + addBytes) SectorSize - ns ∧
    addLength addBytes headSector
      (mkMachine (mkFileHeader nb ns false slots) bm d f)
    = Ret true
        (mkMachine
           (mkFileHeader (nb + addBytes)
              (divRoundUp (nb + addBytes) SectorSize) false
              (take (Z.to_nat ns) slots ++ l
                 ++ drop (Z.to_nat ns + length l) slots))
           bm' d' f').
Proof.
  intros Hns HnS Hlen Hhs. rewrite addLength_unfold.
  set (nS := divRoundUp (nb + addBytes) SectorSize) in *.
  destruct (Z.eqb_spec (nS - ns) 0) as [Heq|Hne].
  - exists [], bm. eexists _, f. split; [simpl; lia|].
    eapply bind_run.
    { unfold WriteBack. eapply bind_run; [reflexivity|]. by apply WriteSector_ok. }
    unfold ret. simpl. by rewrite Nat.add_0_r, take_drop.
  - destruct (Z.leb_spec nS NumFirst); [|lia].
    destruct (for_fill_slots ns nS (nb + addBytes) nS false slots f d f)
      as (l & bm' & Hl & _ & Hrun); [lia|lia|].
    exists l, bm'. eexists _, bm'. split; [lia|].
    eapply bind_run; [exact Hrun|].
    eapply bind_run; [reflexivity|].
    eapply bind_run.
    { unfold WriteBack. eapply bind_run; [reflexivity|]. by apply WriteSector_ok. }
    unfold ret. simpl. by rewrite Hl.
Qed.

(** C8.  For a direct-mode header of [old] sectors and a growth by
    [0 <= addBytes] bytes whose new sector count stays within [NumFirst],
    [addLength] returns TRUE and changes only the slots [old, new): all
    other slots keep their value, and every offset below the old length
    is translated to the same sector after the call as before it. *)
Theorem addLength_direct_keeps_sectors m addBytes headSector :
  useIndex (this m) = false →
  Z.of_nat (length (dataSectors (this m))) = NumFirst →
  0 <= numBytes (this m) → sector_count_ok (this m) →
  0 <= addBytes →
  divRoundUp (numBytes (this m) + addBytes) SectorSize <= NumFirst →
  0 <= headSector →
  ∃ m', addLength addBytes headSector m = Ret true m' ∧
    (∀ i : nat,
       ¬ (numSectors (this m) <= Z.of_nat i < numSectors (this m')) →
       dataSectors (this m') !! i = dataSectors (this m) !! i) ∧
    (∀ offset, 0 <= offset < numBytes (this m) →
       ∃ v, ByteToSector offset m = Ret v m ∧
            ByteToSector offset m' = Ret v m').
Proof.
  destruct m as [[nb ns ui slots] bm d f]. unfold sector_count_ok. simpl.
  intros -> Hlen Hnb Hok Hadd HnS Hhs.
  pose proof (divRoundUp_bounds (nb + addBytes) SectorSize SectorSize_pos) as Hb.
  assert (Hns : 0 <= ns <= divRoundUp (nb + addBytes) SectorSize) by nia.
  destruct (addLength_direct_run addBytes headSector nb ns slots bm d f
              Hns HnS Hlen Hhs) as (l & bm' & d' & f' & Hl & Hrun).
  eexists. split; [exact Hrun|]. simpl.
  assert (Hlook : ∀ i : nat,
    ¬ (ns <= Z.of_nat i < divRoundUp (nb + addBytes) SectorSize) →
    (take (Z.to_nat ns) slots ++ l ++ drop (Z.to_nat ns + length l) slots) !! i
    = slots !! i).
  { intros i Hi. apply splice_lookup; lia. }
  split; [exact Hlook|].
  intros offset Hoff.
  destruct (offset_position ns offset) as (_ & _ & Hws & _); [nia|].
  destruct (lookup_lt_is_Some_2 slots (Z.to_nat (offset `div` SectorSize)))
    as [v Hv]; [lia|].
  exists v. split.
  - by apply ByteToSector_direct_slot; [lia|].
  - apply ByteToSector_direct_slot; [lia|]. rewrite Hlook; [done|lia].
Qed.

(** ** Migration of a direct header to indexed mode *)

(** [for (i = lo; i < lo + n; i++) snode->dataSectors[i] = dataSectors[i];] *)
Lemma iter_copy_slots n : ∀ lo (node : list Z) nb ns ui (slots : list Z) bm d f,
  0 <= lo → lo + Z.of_nat n <= Z.of_nat (length slots) →
  lo + Z.of_nat n <= Z.of_nat (length node) →
  iter n lo (λ i snode, v <- slot_read i ;; array_set snode i v) node
    (mkMachine (mkFileHeader nb ns ui slots) bm d f)
  = Ret (take (Z.to_nat lo) node ++ take n (drop (Z.to_nat lo) slots)
           ++ drop (Z.to_nat lo + n) node)
        (mkMachine (mkFileHeader nb ns ui slots) bm d f).
Proof.
  induction n as [|n IH]; intros lo node nb ns ui slots bm d f Hlo Hs Hn.
  - simpl. unfold ret. by rewrite Nat.add_0_r, take_drop.
  - destruct (lookup_lt_is_Some_2 slots (Z.to_nat lo)) as [v Hv]; [lia|].
    cbn [iter]. eapply bind_run.
    { eapply bind_run; [by apply slot_read_ok|]. apply array_set_ok. lia. }
    rewrite IH by (rewrite ?length_insert; lia).
    replace (Z.to_nat (lo + 1)) with (S (Z.to_nat lo)) by lia.
    rewrite fill_step_list by lia.
    by rewrite (drop_S _ _ _ Hv).
Qed.

Lemma migrate_spec old nb ns (slots : list Z) bm d f :
  0 <= old → old <= Z.of_nat (length slots) → old <= NumSecond →
  (0 < length slots)%nat → 0 < bm_numClear bm →
  ∃ sec bm1,
    drawn bm [sec] bm1 ∧
    migrate old (mkMachine (mkFileHeader nb ns false slots) bm d f)
    = Ret tt (mkMachine
                (mkFileHeader nb ns true (<[O := sec]> slots)) bm1
                (<[sec := NodeImage (take (Z.to_nat old) slots
                                       ++ drop (Z.to_nat old) new_SecondNode)]> d)
                f).
Proof.
  intros Hold Hs Hn Hlen Hclear.
  pose proof (bm_find_spec bm Hclear) as Hdr.
  exists (fst (bm_find bm)), (snd (bm_find bm)). split; [done|].
  unfold migrate. eapply bind_run; [apply Find_ok|].
  eapply bind_run.
  { unfold for_fold. apply iter_copy_slots; [done|lia|].
    rewrite length_new_SecondNode. lia. }
  eapply bind_run; [apply slot_write_ok; lia|].
  eapply bind_run.
  { apply WriteSector_ok. destruct Hdr as (_ & Hin & _).
    apply (Hin (fst (bm_find bm))). by left. }
  rewrite Z.sub_0_r. by rewrite Nat.add_0_l, drop_0.
Qed.

Lemma fill_last_node_spec old nS nb ns ui (slots : list Z) bm
    (d : gmap Z SectorImage) f sec (node : list Z) :
  0 < old < NumSecond → old <= nS →
  slots !! O = Some sec → 0 <= sec → d !! sec = Some (NodeImage node) →
  Z.of_nat (length node) = NumSecond →
  Z.min NumSecond nS - old <= bm_numClear bm →
  ∃ (l : list Z) bm',
    Z.of_nat (length l) = Z.min NumSecond nS - old ∧ drawn bm l bm' ∧
    fill_last_node old nS (mkMachine (mkFileHeader nb ns ui slots) bm d f)
    = Ret tt (mkMachine (mkFileHeader nb ns ui slots) bm'
                (<[sec := NodeImage (take (Z.to_nat old) node ++ l
                     ++ drop (Z.to_nat (Z.min NumSecond nS)) node)]> d)
                f).
Proof.
  intros Hold HnS Hslot Hsec Hd Hlen Hclear.
  assert (HoN : divRoundUp old NumSecond = 1)
    by (apply divRoundUp_unique; lia).
  unfold fill_last_node. rewrite HoN. replace (1 - 1) with 0 by lia.
  rewrite Z.mul_0_l, !Z.sub_0_r.
  destruct (fill_node_spec old (Z.min NumSecond nS) node
              (mkFileHeader nb ns ui slots) bm d f)
    as (l & bm' & Hl & Hdr & Hrun); [lia|lia|].
  exists l, bm'. split; [done|]. split; [by apply Hdr|].
  eapply bind_run; [by apply slot_read_ok|].
  eapply bind_run; [by apply ReadSector_ok|].
  eapply bind_run; [exact Hrun|].
  eapply bind_run; [by apply slot_read_ok|].
  by apply WriteSector_ok.
Qed.

Lemma WriteBack_ok h bm d f s :
  0 <= s →
  WriteBack s (mkMachine h bm d f)
  = Ret tt (mkMachine h bm (<[s := HeaderImage h]> d) f).
Proof.
  intros Hs. unfold WriteBack. eapply bind_run; [reflexivity|].
  by apply WriteSector_ok.
Qed.

Lemma addLength_migrate_nonempty addBytes headSector nb old (slots : list Z) bm d f :
  let nS := divRoundUp (nb + addBytes) SectorSize in
  let numNode := divRoundUp nS NumSecond in
  0 < old → old <= NumSecond → old <= NumFirst →
  Z.of_nat (length slots) = NumFirst →
  NumFirst < nS → numNode <= NumFirst →
  nS - old + numNode <= bm_numClear f →
  0 <= headSector → bm_test f headSector = true →
  ∃ sec (node : list Z) m',
    addLength addBytes headSector
      (mkMachine (mkFileHeader nb old false slots) bm d f) = Ret true m' ∧
    bm_test f sec = false ∧
    bm_test (freeMapFile m') sec = true ∧
    dataSectors (this m') !! O = Some sec ∧
    synchDisk m' !! sec = Some (NodeImage node) ∧
    (∀ i : nat, Z.of_nat i < old → node !! i = slots !! i) ∧
    useIndex (this m') = true.
Proof.
  intros nS numNode Hold HoldS HoldF Hlen HnS HnN Hclear Hhs Hhead.
  pose proof (divRoundUp_bounds nS NumSecond NumSecond_pos) as HbN.
  fold numNode in HbN.
  assert (HnN1 : 1 <= numNode) by nia.
  assert (HoN : divRoundUp old NumSecond = 1) by (apply divRoundUp_unique; lia).
  (* migration *)
  destruct (migrate_spec old (nb + addBytes) nS slots f d f)
    as (sec & bm1 & Hdr1 & Hmig); [lia..|].
  pose proof Hdr1 as (_ & Hin1 & Hout1 & Hc1).
  destruct (Hin1 sec) as (Hsec & Hsec0 & Hsec1); [by left|].
  simpl in Hc1.
  set (node_m := take (Z.to_nat old) slots ++ drop (Z.to_nat old) new_SecondNode) in *.
  assert (Hlen_m : Z.of_nat (length node_m) = NumSecond).
  { unfold node_m. rewrite length_app, length_take, length_drop.
    pose proof length_new_SecondNode. lia. }
  assert (Htake_m : take (Z.to_nat old) node_m = take (Z.to_nat old) slots).
  { unfold node_m. apply take_app_length'. rewrite length_take. lia. }
  set (h1 := mkFileHeader (nb + addBytes) nS true (<[O := sec]> slots)) in *.
  set (d1 := <[sec := NodeImage node_m]> d) in *.
  (* the rest of the node of the migration *)
  assert (∃ (l : list Z) bm2 (node' : list Z),
    drawn bm1 l bm2 ∧ Z.of_nat (length l) = Z.min NumSecond nS - old ∧
    (if negb (old `rem` NumSecond =? 0) then fill_last_node old nS else ret tt)
      (mkMachine h1 bm1 d1 f)
    = Ret tt (mkMachine h1 bm2 (<[sec := NodeImage node']> d1) f) ∧
    take (Z.to_nat old) node' = take (Z.to_nat old) slots)
    as (l & bm2 & node' & Hdr2 & Hl & Hfill & Htake').
  { destruct (Z.eq_dec old NumSecond) as [->|Hne].
    - exists [], bm1, node_m. rewrite Z.rem_same by lia. simpl.
      split; [apply drawn_nil|]. split; [lia|]. split; [|done].
      unfold ret, d1. by rewrite insert_insert_eq.
    - rewrite Z.rem_small by lia.
      destruct (Z.eqb_spec old 0); [lia|]. simpl.
      destruct (fill_last_node_spec old nS (nb + addBytes) nS true
                  (<[O := sec]> slots) bm1 d1 f sec node_m)
        as (l & bm2 & Hl & Hdr2 & Hrun); [lia|lia| |done| |done|lia|].
      { apply list_lookup_insert_eq. lia. }
      { unfold d1. by rewrite lookup_insert_eq. }
      exists l, bm2. eexists. split; [done|]. split; [done|].
      split; [exact Hrun|].
      rewrite <- Htake_m. apply take_app_length'. rewrite length_take. lia. }
  pose proof Hdr2 as (_ & Hin2 & Hout2 & Hc2).
  (* the new index nodes *)
  destruct (for_new_nodes numNode nS 1 numNode (nb + addBytes) nS true
              (<[O := sec]> slots) bm2 (<[sec := NodeImage node']> d1) f)
    as (layout & bm3 & d3 & Hlay & Hdr3 & Hrun3 & _ & Hother).
  { lia. } { rewrite length_insert. lia. }
  { intros i Hi. pose proof (node_entries_bounds nS i) as Hb.
    fold numNode in Hb. lia. }
  { destruct (Z.eq_dec numNode 1) as [->|Hne].
    - simpl. lia.
    - rewrite (nodes_need_closed numNode nS _ 1) by lia. lia. }
  pose proof Hdr3 as (_ & Hin3 & Hout3 & _).
  assert (Hsec2 : bm_test bm2 sec = true).
  { rewrite Hout2; [done|]. intros Hs. destruct (Hin2 sec Hs) as (_ & ? & _).
    congruence. }
  assert (Hsec_lay : sec ∉ flat layout).
  { intros Hs. destruct (Hin3 sec Hs) as (_ & ? & _). congruence. }
  exists sec, node'. eexists. split.
  { rewrite addLength_unfold. fold nS. fold numNode.
    destruct (Z.eqb_spec (nS - old) 0); [lia|].
    destruct (Z.leb_spec nS NumFirst); [lia|]. simpl negb. cbv iota.
    eapply bind_run; [exact Hmig|].
    eapply bind_run; [exact Hfill|].
    rewrite HoN. eapply bind_run; [exact Hrun3|].
    eapply bind_run; [by apply WriteBack_ok|].
    eapply bind_run; reflexivity. }
  simpl. split; [done|]. split; [by rewrite Hout3|]. split.
  { change (Z.to_nat 1) with 1%nat.
    rewrite lookup_app_l by (rewrite length_take, length_insert; lia).
    rewrite lookup_take_lt by lia. apply list_lookup_insert_eq. lia. }
  split.
  { rewrite lookup_insert_ne by (intros ->; rewrite Hhead in Hsec0; done).
    rewrite Hother; [by rewrite lookup_insert_eq|].
    intros Hs. by apply Hsec_lay, elem_of_flat_fst. }
  split; [|done].
  intros i Hi. rewrite <- (lookup_take_lt node' (Z.to_nat old)) by lia.
  rewrite Htake'. apply lookup_take_lt. lia.
Qed.

Lemma addLength_migrate_empty addBytes headSector nb (slots : list Z) bm d f :
  let nS := divRoundUp (nb + addBytes) SectorSize in
  let numNode := divRoundUp nS NumSecond in
  Z.of_nat (length slots) = NumFirst →
  NumFirst < nS → numNode <= NumFirst →
  nS + numNode + 1 <= bm_numClear f →
  0 <= headSector → bm_test f headSector = true →
  ∃ sec (node : list Z) m',
    addLength addBytes headSector
      (mkMachine (mkFileHeader nb 0 false slots) bm d f) = Ret true m' ∧
    bm_test f sec = false ∧
    bm_test (freeMapFile m') sec = true ∧
    dataSectors (this m') !! O = Some sec ∧
    synchDisk m' !! sec = Some (NodeImage node) ∧
    useIndex (this m') = true.
Proof.
  intros nS numNode Hlen HnS HnN Hclear Hhs Hhead.
  pose proof (divRoundUp_bounds nS NumSecond NumSecond_pos) as HbN.
  fold numNode in HbN.
  assert (HnN1 : 1 <= numNode) by nia.
  assert (HoN : divRoundUp 0 NumSecond = 0) by (apply divRoundUp_unique; lia).
  destruct (migrate_spec 0 (nb + addBytes) nS slots f d f)
    as (sec & bm1 & Hdr1 & Hmig); [lia..|].
  pose proof Hdr1 as (_ & Hin1 & Hout1 & Hc1).
  destruct (Hin1 sec) as (Hsec & Hsec0 & Hsec1); [by left|].
  simpl in Hc1.
  destruct (for_new_nodes numNode nS 0 numNode (nb + addBytes) nS true
              (<[O := sec]> slots) bm1
              (<[sec := NodeImage (take (Z.to_nat 0) slots
                                     ++ drop (Z.to_nat 0) new_SecondNode)]> d) f)
    as (layout & bm3 & d3 & Hlay & Hdr3 & Hrun3 & Hnodes & Hother).
  { lia. } { rewrite length_insert. lia. }
  { intros i Hi. pose proof (node_entries_bounds nS i) as Hb.
    fold numNode in Hb. lia. }
  { rewrite (nodes_need_closed numNode nS _ 0) by lia. lia. }
  pose proof Hdr3 as (_ & Hin3 & Hout3 & _).
  destruct layout as [|[s0 es0] rest]; [simpl in Hlay; lia|].
  destruct (Hnodes O s0 es0 eq_refl) as (_ & node0 & Hd0 & _).
  destruct (Hin3 s0) as (Hs0 & Hs0c & Hs0s); [by left|].
  assert (Hne : s0 ≠ sec) by (intros ->; congruence).
  exists s0, node0. eexists. split.
  { rewrite addLength_unfold. fold nS. fold numNode.
    destruct (Z.eqb_spec (nS - 0) 0); [lia|].
    destruct (Z.leb_spec nS NumFirst); [lia|]. simpl negb. cbv iota.
    eapply bind_run; [exact Hmig|].
    eapply bind_run; [reflexivity|].
    rewrite HoN. eapply bind_run; [exact Hrun3|].
    eapply bind_run; [by apply WriteBack_ok|].
    eapply bind_run; reflexivity. }
  simpl. split.
  { rewrite <- Hs0c. symmetry. apply Hout1. intros Hs.
    by apply list_elem_of_singleton in Hs. }
  split; [done|]. split; [done|]. split; [|done].
  rewrite lookup_insert_ne; [done|].
  intros ->. assert (bm_test bm1 s0 = bm_test f s0) as Heq.
  { apply Hout1. intros Hs. by apply list_elem_of_singleton in Hs. }
  congruence.
Qed.

(** C3.  For a direct-mode header of [old] sectors, [old <= NumSecond],
    and a growth that takes the sector count above [NumFirst] (within the
    largest indexed file, with enough clear bits in the bitmap, the
    header's own sector being marked), [addLength] returns TRUE and has
    migrated the header: a sector [sec], clear before and marked after,
    holds an index node whose entries [0, old) are the old direct sectors
    [dataSectors[0 .. old)]; [dataSectors[0]] is [sec]; and [useIndex] is
    true. *)
Theorem addLength_migrates_to_index m addBytes headSector :
  let old := numSectors (this m) in
  let nS := divRoundUp (numBytes (this m) + addBytes) SectorSize in
  let numNode := divRoundUp nS NumSecond in
  useIndex (this m) = false →
  Z.of_nat (length (dataSectors (this m))) = NumFirst →
  0 <= old → old <= NumFirst → old <= NumSecond →
  NumFirst < nS → numNode <= NumFirst →
  nS - old + numNode + (if old =? 0 then 1 else 0)
    <= bm_numClear (freeMapFile m) →
  0 <= headSector → bm_test (freeMapFile m) headSector = true →
  ∃ sec (node : list Z) m',
    addLength addBytes headSector m = Ret true m' ∧
    bm_test (freeMapFile m) sec = false ∧
    bm_test (freeMapFile m') sec = true ∧
    synchDisk m' !! sec = Some (NodeImage node) ∧
    (∀ i : nat, Z.of_nat i < old →
       node !! i = dataSectors (this m) !! i) ∧
    dataSectors (this m') !! O = Some sec ∧
    useIndex (this m') = true.
Proof.
  destruct m as [[nb old ui slots] bm d f]. simpl.
  intros -> Hlen Hold HoldF HoldS HnS HnN Hclear Hhs Hhead.
  destruct (Z.eqb_spec old 0) as [->|Hne].
  - destruct (addLength_migrate_empty addBytes headSector nb slots bm d f)
      as (sec & node & m' & Hrun & H1 & H2 & H3 & H4 & H5); [done|done|done|lia|done|done|].
    exists sec, node, m'. repeat split; try done. intros i Hi. lia.
  - destruct (addLength_migrate_nonempty addBytes headSector nb old slots bm d f)
      as (sec & node & m' & Hrun & H1 & H2 & H3 & H4 & H5 & H6);
      [lia|done|done|done|done|done|lia|done|done|].
    exists sec, node, m'. repeat split; done.
Qed.

(** * Further properties of the file header operations *)

(** ** Allocate: failure, consumption, freshness *)

(** X1.  [Allocate] returns FALSE only when the bitmap has too few clear
    bits; it has then drawn no sector and written nothing to the disk or
    to [dataSectors], but it has already overwritten [numBytes] and
    [numSectors] of the header. *)
Theorem Allocate_FALSE_draws_nothing m size m' :
  Allocate size m = Ret false m' →
  bm_numClear (freeMap m)
    < (if divRoundUp size SectorSize <=? NumFirst then divRoundUp size SectorSize
       else divRoundUp size SectorSize
            + divRoundUp (divRoundUp size SectorSize) NumSecond) ∧
  freeMap m' = freeMap m ∧ synchDisk m' = synchDisk m ∧
  freeMapFile m' = freeMapFile m ∧
  dataSectors (this m') = dataSectors (this m) ∧
  numBytes (this m') = size ∧
  numSectors (this m') = divRoundUp size SectorSize.
Proof.
  destruct m as [[nb0 ns0 ui0 slots] bm d f]. rewrite Allocate_unfold.
  set (nS := divRoundUp size SectorSize). simpl.
  destruct (Z.gtb_spec nS NumFirst) as [Hgt|Hle].
  - destruct (Z.leb_spec nS NumFirst) as [Hle|_]; [lia|].
    rewrite AllocateWithIndex_unfold. fold nS.
    destruct (Z.ltb_spec (bm_numClear bm) (nS + divRoundUp nS NumSecond))
      as [Hlt|Hge].
    + by intros [= <-].
    + intros Hrun. apply bind_Ret_inv in Hrun as (a & x & _ & Hrun). done.
  - destruct (Z.leb_spec nS NumFirst) as [_|Hgt]; [|lia].
    destruct (Z.ltb_spec (bm_numClear bm) nS) as [Hlt|Hge].
    + by intros [= <-].
    + intros Hrun. apply bind_Ret_inv in Hrun as (a & x & _ & Hrun). done.
Qed.

Lemma flat_length numNode nS (layout : list (Z * list Z)) : ∀ lo,
  (∀ (k : nat) s es, layout !! k = Some (s, es) →
     Z.of_nat (length es) = node_entries numNode nS (lo + Z.of_nat k)) →
  Z.of_nat (length (flat layout)) = nodes_need numNode nS (length layout) lo.
Proof.
  induction layout as [|[s es] rest IH]; intros lo Hes; [done|].
  cbn [flat length nodes_need]. rewrite length_app.
  pose proof (Hes O s es eq_refl) as H0. rewrite Z.add_0_r in H0.
  rewrite <- (IH (lo + 1)).
  - lia.
  - intros k s' es' Hk. rewrite (Hes (S k) s' es' Hk). f_equal. lia.
Qed.

Lemma indexed_rep_flat_length m (layout : list (Z * list Z)) :
  indexed_rep m layout → 0 < numSectors (this m) →
  Z.of_nat (length (flat layout))
  = numSectors (this m) + divRoundUp (numSectors (this m)) NumSecond.
Proof.
  intros (_ & Hlen & Hnodes) HnS.
  pose proof (divRoundUp_pos _ NumSecond NumSecond_pos HnS) as HnN.
  rewrite (flat_length (divRoundUp (numSectors (this m)) NumSecond)
             (numSectors (this m)) layout 0).
  - rewrite nodes_need_closed; lia.
  - intros k s es Hk. by destruct (Hnodes k s es Hk) as (_ & _ & ? & _).
Qed.

(** X2.  A successful [Allocate] for [0 <= size] takes exactly the sectors
    it needs from the bitmap (data sectors, plus index nodes in indexed
    mode); every sector of the file was clear before the call, and no bit
    that was marked before is cleared. *)
Theorem Allocate_takes_free_sectors m size m' :
  Z.of_nat (length (dataSectors (this m))) = NumFirst →
  0 <= size →
  Allocate size m = Ret true m' →
  let nS := divRoundUp size SectorSize in
  bm_numClear (freeMap m')
  = bm_numClear (freeMap m)
    - (if nS <=? NumFirst then nS else nS + divRoundUp nS NumSecond) ∧
  (∀ offset v, 0 <= offset < size → ByteToSector offset m' = Ret v m' →
     bm_test (freeMap m) v = false) ∧
  (∀ v, bm_test (freeMap m) v = true → bm_test (freeMap m') v = true).
Proof.
  intros Hlen Hsize Hrun nS.
  destruct (Allocate_true_inv m size m' Hlen Hrun) as (Hnb & Hns & Hrep).
  pose proof (divRoundUp_bounds size SectorSize SectorSize_pos) as Hb.
  fold nS in Hb, Hns, Hrep.
  assert (HnS0 : 0 <= nS) by nia.
  assert (Hkeep : ∀ l, drawn (freeMap m) l (freeMap m') →
    ∀ v, bm_test (freeMap m) v = true → bm_test (freeMap m') v = true).
  { intros l (_ & Hin & Hout & _) v Hv. destruct (decide (v ∈ l)) as [Hl|Hl].
    - by destruct (Hin v Hl) as (_ & _ & ?).
    - by rewrite Hout. }
  destruct Hrep as [(Hle & l & Hrep & Hdr)|(Hgt & layout & Hrep & Hdr)].
  - destruct (Z.leb_spec nS NumFirst); [|lia]. split; [|split; [|by apply (Hkeep l)]].
    + destruct Hdr as (_ & _ & _ & Hc). destruct Hrep as (_ & Hl & _).
      rewrite Hc, Hl, Hns. lia.
    + intros offset v Hoff Hv.
      destruct (ByteToSector_direct m' l offset Hrep) as (v' & Hv' & Hrun');
        [rewrite Hns; lia|].
      rewrite Hv in Hrun'. injection Hrun' as <-.
      destruct Hdr as (_ & Hin & _). apply (Hin v). by eapply list_elem_of_lookup_2.
  - destruct (Z.leb_spec nS NumFirst); [lia|].
    split; [|split; [|by apply (Hkeep (flat layout))]].
    + destruct Hdr as (_ & _ & _ & Hc).
      rewrite Hc, (indexed_rep_flat_length m' layout Hrep) by lia.
      rewrite Hns. lia.
    + intros offset v Hoff Hv.
      destruct (ByteToSector_indexed m' layout offset Hrep)
        as (s & es & v' & Hk & Hv' & Hrun'); [rewrite Hns; lia|].
      rewrite Hv in Hrun'. injection Hrun' as <-.
      destruct Hdr as (_ & Hin & _). apply (Hin v).
      eapply elem_of_flat_snd; [done|]. by eapply list_elem_of_lookup_2.
Qed.

Lemma NoDup_flat_node_not_data (layout : list (Z * list Z)) :
  NoDup (flat layout) →
  ∀ (k1 k2 : nat) s1 es1 s2 es2 v,
    layout !! k1 = Some (s1, es1) → layout !! k2 = Some (s2, es2) →
    v ∈ es2 → s1 ≠ v.
Proof.
  induction layout as [|[s es] rest IH]; intros Hnd k1 k2 s1 es1 s2 es2 v; [done|].
  simpl in Hnd. apply NoDup_cons in Hnd as [Hs Hnd].
  apply NoDup_app in Hnd as (Hes & Hdisj & Hrest).
  destruct k1 as [|k1], k2 as [|k2]; simpl.
  - intros [= <- <-] [= <- <-] Hv ->. apply Hs, elem_of_app. by left.
  - intros [= <- <-] Hk2 Hv ->. apply Hs, elem_of_app. right.
    by eapply elem_of_flat_snd.
  - intros Hk1 [= <- <-] Hv ->. apply (Hdisj v Hv).
    apply elem_of_flat_fst, list_elem_of_lookup. exists k1.
    by rewrite list_lookup_fmap, Hk1.
  - intros Hk1 Hk2 Hv. by eapply IH.
Qed.

(** X3.  After a successful [Allocate] in indexed mode, no data sector of
    the file is the sector of one of its index nodes: what [ByteToSector]
    returns is never one of [dataSectors[0 .. numNode)]. *)
Theorem Allocate_index_nodes_hold_no_data m size m' :
  Z.of_nat (length (dataSectors (this m))) = NumFirst →
  NumFirst < divRoundUp size SectorSize →
  Allocate size m = Ret true m' →
  ∀ offset v (k : nat),
    0 <= offset < size → ByteToSector offset m' = Ret v m' →
    Z.of_nat k < divRoundUp (divRoundUp size SectorSize) NumSecond →
    dataSectors (this m') !! k ≠ Some v.
Proof.
  intros Hlen HnS Hrun offset v k Hoff Hv Hk.
  destruct (Allocate_true_inv m size m' Hlen Hrun) as (Hnb & Hns & Hrep).
  pose proof (divRoundUp_bounds size SectorSize SectorSize_pos) as Hb.
  destruct Hrep as [(Hle & _)|(_ & layout & Hrep & Hdr)]; [lia|].
  destruct (ByteToSector_indexed m' layout offset Hrep)
    as (s2 & es2 & v' & Hk2 & Hv' & Hrun'); [rewrite Hns; lia|].
  rewrite Hv in Hrun'. injection Hrun' as <-.
  pose proof Hrep as (_ & Hlay & Hnodes). rewrite Hns in Hlay.
  destruct (lookup_lt_is_Some_2 layout k) as [[s1 es1] Hk1]; [lia|].
  destruct (Hnodes k s1 es1 Hk1) as (Hslot & _). rewrite Hslot.
  intros [= ->]. destruct Hdr as (Hnd & _).
  eapply (NoDup_flat_node_not_data layout Hnd k _ v es1 s2 es2 v); try done.
  by eapply list_elem_of_lookup_2.
Qed.

(** ** Allocate and Deallocate *)

(** X4.  [Deallocate] after a successful [Allocate] gives back the bitmap
    of before the allocation, bit for bit as [Test] sees it, and leaves
    header and disk as [Allocate] left them. *)
Theorem Deallocate_undoes_Allocate m size m1 :
  Z.of_nat (length (dataSectors (this m))) = NumFirst →
  Allocate size m = Ret true m1 →
  ∃ m2, Deallocate m1 = Ret tt m2 ∧
        (∀ v, bm_test (freeMap m2) v = bm_test (freeMap m) v) ∧
        this m2 = this m1 ∧ synchDisk m2 = synchDisk m1.
Proof.
  intros Hlen Hrun.
  destruct (Allocate_true_inv m size m1 Hlen Hrun) as (_ & _ & Hrep).
  destruct m1 as [h1 bm1 d1 f1].
  assert (Hgen : ∀ l l' : list Z, drawn (freeMap m) l bm1 → l' ≡ₚ l →
    ∃ bm2, free_list l' (mkMachine h1 bm1 d1 f1) = Ret tt (mkMachine h1 bm2 d1 f1) ∧
           ∀ v, bm_test bm2 v = bm_test (freeMap m) v).
  { intros l l' (Hnd & Hin & Hout & _) Hperm.
    destruct (free_list_ok l' h1 bm1 d1 f1) as (bm2 & Hfree & Hin2 & Hout2 & _).
    { by rewrite Hperm. }
    { intros v Hv. rewrite Hperm in Hv. by destruct (Hin v Hv) as (_ & _ & ?). }
    exists bm2. split; [done|]. intros v.
    destruct (decide (v ∈ l)) as [Hl|Hl].
    - destruct (Hin v Hl) as (_ & -> & _). apply Hin2. by rewrite Hperm.
    - rewrite Hout2 by (by rewrite Hperm). by apply Hout. }
  destruct Hrep as [(_ & l & Hrep & Hdr)|(_ & layout & Hrep & Hdr)].
  - rewrite (Deallocate_direct _ l Hrep).
    destruct (Hgen l l Hdr) as (bm2 & Hfree & Hbits); [done|].
    eexists. split; [exact Hfree|]. done.
  - rewrite (Deallocate_indexed _ layout Hrep).
    destruct (Hgen (flat layout) (release_order layout) Hdr)
      as (bm2 & Hfree & Hbits); [apply release_order_perm|].
    eexists. split; [exact Hfree|]. done.
Qed.

(** X5.  Whenever [Deallocate] returns, it has changed neither the header
    nor the disk, and it has marked no sector: every bit set afterwards
    was set before. *)
Theorem Deallocate_only_clears_bits m m' :
  Deallocate m = Ret tt m' →
  this m' = this m ∧ synchDisk m' = synchDisk m ∧
  ∀ v, bm_test (freeMap m') v = true → bm_test (freeMap m) v = true.
Proof. intros H. by apply Deallocate_only_clears in H. Qed.

(** ** addLength: what reaches the disk *)

Lemma WriteBack_inv s x y :
  WriteBack s x = Ret tt y →
  0 <= s ∧
  y = mkMachine (this x) (freeMap x)
        (<[s := HeaderImage (this x)]> (synchDisk x)) (freeMapFile x).
Proof.
  unfold WriteBack, bind, gets, WriteSector, undefined, modify.
  destruct (Z.ltb_spec s 0); [done|]. by intros [= <-].
Qed.

(** X6.  Whenever [addLength] returns, the header it wrote to the sector
    [headSector] is the header as it is in memory at the return: on every
    path the write-back of the header comes after the last change to a
    field of the header.  When the sector count changed, the bitmap file
    holds the bitmap the call worked on. *)
Theorem addLength_writes_header_back addBytes headSector m b m' :
  addLength addBytes headSector m = Ret b m' →
  synchDisk m' !! headSector = Some (HeaderImage (this m')) ∧
  (divRoundUp (numBytes (this m) + addBytes) SectorSize ≠ numSectors (this m) →
   freeMapFile m' = freeMap m').
Proof.
  destruct m as [[nb ns ui slots] bm d f].
  rewrite addLength_unfold. simpl.
  set (nS := divRoundUp (nb + addBytes) SectorSize).
  destruct (Z.eqb_spec (nS - ns) 0) as [Heq|Hne];
    [|destruct (nS <=? NumFirst)]; intros H.
  - apply bind_Ret_inv in H as ([] & x1 & E1 & H).
    apply WriteBack_inv in E1 as (Hs & ->). injection H as <- <-. simpl.
    split; [by rewrite lookup_insert_eq|lia].
  - apply bind_Ret_inv in H as ([] & x1 & E1 & H).
    apply bind_Ret_inv in H as ([] & x2 & E2 & H).
    injection E2 as <-.
    apply bind_Ret_inv in H as ([] & x3 & E3 & H).
    apply WriteBack_inv in E3 as (Hs & ->). injection H as <- <-. simpl.
    split; [by rewrite lookup_insert_eq|done].
  - apply bind_Ret_inv in H as ([] & x1 & E1 & H).
    apply bind_Ret_inv in H as ([] & x2 & E2 & H).
    apply bind_Ret_inv in H as ([] & x3 & E3 & H).
    apply bind_Ret_inv in H as ([] & x4 & E4 & H).
    apply WriteBack_inv in E4 as (Hs & ->).
    apply bind_Ret_inv in H as ([] & x5 & E5 & H).
    injection E5 as <-. injection H as <- <-. simpl.
    split; [by rewrite lookup_insert_eq|done].
Qed.

(** ** addLength: growth inside direct mode *)

Lemma iter_fill_slots_exhausted n : ∀ lo nb ns ui (slots : list Z) bm d f,
  0 <= lo → lo + Z.of_nat n <= Z.of_nat (length slots) →
  bm_numClear bm = 0 →
  iter n lo (λ i _, s <- Find ;; slot_write i s) tt
    (mkMachine (mkFileHeader nb ns ui slots) bm d f)
  = Ret tt (mkMachine
              (mkFileHeader nb ns ui
                 (take (Z.to_nat lo) slots ++ replicate n (-1)
                    ++ drop (Z.to_nat lo + n) slots))
              bm d f).
Proof.
  induction n as [|n IH]; intros lo nb ns ui slots bm d f Hlo Hhi Hc.
  - simpl. unfold ret. rewrite Nat.add_0_r. by rewrite take_drop.
  - cbn [iter]. eapply bind_run.
    { eapply bind_run; [apply Find_ok|]. apply slot_write_ok. lia. }
    rewrite (bm_find_none bm Hc). cbn [fst snd].
    rewrite IH; [|lia|rewrite length_insert; lia|done].
    replace (Z.to_nat (lo + 1)) with (S (Z.to_nat lo)) by lia.
    rewrite fill_step_list by lia. done.
Qed.

Lemma splice_lookup_in (a l : list Z) (k n i : nat) :
  length l = n → (k <= length a)%nat → (k <= i < k + n)%nat →
  (take k a ++ l ++ drop (k + n) a) !! i = l !! (i - k)%nat.
Proof.
  intros Hl Hk Hi.
  rewrite lookup_app_r; rewrite length_take, Nat.min_l by lia; [|lia].
  by rewrite lookup_app_l by lia.
Qed.

(** X7.  Growth that stays in direct mode, with enough clear bits in the
    bitmap file: [addLength] returns TRUE, the new slots hold pairwise
    distinct sectors that were clear in the bitmap file and are marked in
    the one written back, and each offset of the added sectors is
    translated to the sector drawn for it. *)
Theorem addLength_direct_draws_fresh m addBytes headSector :
  let old := numSectors (this m) in
  let nS := divRoundUp (numBytes (this m) + addBytes) SectorSize in
  useIndex (this m) = false →
  Z.of_nat (length (dataSectors (this m))) = NumFirst →
  0 <= old < nS → nS <= NumFirst →
  nS - old <= bm_numClear (freeMapFile m) → 0 <= headSector →
  ∃ (l : list Z) m',
    addLength addBytes headSector m = Ret true m' ∧
    Z.of_nat (length l) = nS - old ∧
    drawn (freeMapFile m) l (freeMapFile m') ∧
    ∀ offset, SectorSize * old <= offset < SectorSize * nS →
      ∃ v, l !! Z.to_nat (offset `div` SectorSize - old) = Some v ∧
           ByteToSector offset m' = Ret v m'.
Proof.
  destruct m as [[nb ns ui slots] bm d f]. simpl.
  intros -> Hlen Hns HnS Hclear Hhs. rewrite addLength_unfold.
  set (nS := divRoundUp (nb + addBytes) SectorSize) in *.
  destruct (Z.eqb_spec (nS - ns) 0) as [Heq|_]; [lia|].
  destruct (Z.leb_spec nS NumFirst) as [_|Hgt]; [|lia].
  destruct (for_fill_slots ns nS (nb + addBytes) nS false slots f d f)
    as (l & bm' & Hl & Hdr & Hrun); [lia|lia|].
  specialize (Hdr Hclear).
  exists l. eexists. split; [|split; [|split]].
  - eapply bind_run; [exact Hrun|].
    eapply bind_run; [reflexivity|].
    eapply bind_run; [by apply WriteBack_ok|]. reflexivity.
  - lia.
  - exact Hdr.
  - intros offset Hoff.
    assert (Hws : ns <= offset `div` SectorSize < nS).
    { split; [apply Z.div_le_lower_bound; lia|apply Z.div_lt_upper_bound; lia]. }
    destruct (lookup_lt_is_Some_2 l (Z.to_nat (offset `div` SectorSize - ns)))
      as [v Hv]; [lia|].
    exists v. split; [done|].
    apply ByteToSector_direct_slot; [nia|].
    rewrite (splice_lookup_in slots l) by lia.
    rewrite <- Hv. f_equal. lia.
Qed.

(** X8.  Growth that stays in direct mode with too few clear bits in the
    bitmap file: [addLength] still returns TRUE.  It uses up the clear bits
    there are, leaves none in the bitmap file, and every offset in the
    added sectors beyond those is translated to [-1]. *)
Theorem addLength_direct_exhausted m addBytes headSector :
  let old := numSectors (this m) in
  let nS := divRoundUp (numBytes (this m) + addBytes) SectorSize in
  let free := bm_numClear (freeMapFile m) in
  useIndex (this m) = false →
  Z.of_nat (length (dataSectors (this m))) = NumFirst →
  0 <= old → nS <= NumFirst → free < nS - old → 0 <= headSector →
  ∃ m', addLength addBytes headSector m = Ret true m' ∧
    bm_numClear (freeMapFile m') = 0 ∧
    ∀ offset, SectorSize * (old + free) <= offset < SectorSize * nS →
      ByteToSector offset m' = Ret (-1) m'.
Proof.
  destruct m as [[nb ns ui slots] bm d f]. simpl.
  intros -> Hlen Hns HnS Hfree Hhs. rewrite addLength_unfold.
  set (nS := divRoundUp (nb + addBytes) SectorSize) in *.
  assert (H0 : 0 <= bm_numClear f) by (unfold bm_numClear; lia).
  destruct (Z.eqb_spec (nS - ns) 0) as [Heq|_]; [lia|].
  destruct (Z.leb_spec nS NumFirst) as [_|Hgt]; [|lia].
  set (mid := ns + bm_numClear f).
  destruct (for_fill_slots ns mid (nb + addBytes) nS false slots f d f)
    as (l & bm' & Hl & Hdr & Hrun); [lia|lia|].
  destruct Hdr as (_ & _ & _ & Hcnt); [lia|].
  assert (Hc0 : bm_numClear bm' = 0) by lia.
  eexists. split; [|split].
  - unfold for_ at 1.
    erewrite bind_ext_l; [|apply (for_fold_split ns mid nS); lia].
    rewrite bind_bind.
    eapply bind_run; [exact Hrun|].
    eapply bind_run.
    { unfold for_fold. apply iter_fill_slots_exhausted; [lia| |done].
      rewrite !length_app, length_take, length_drop. lia. }
    eapply bind_run; [reflexivity|].
    eapply bind_run; [by apply WriteBack_ok|]. reflexivity.
  - done.
  - intros offset Hoff. fold mid in Hoff.
    assert (Hws : mid <= offset `div` SectorSize < nS).
    { split; [apply Z.div_le_lower_bound; lia|apply Z.div_lt_upper_bound; lia]. }
    apply ByteToSector_direct_slot; [nia|].
    rewrite splice_lookup_in.
    + apply lookup_replicate_2. lia.
    + apply length_replicate.
    + rewrite !length_app, length_take, length_drop. lia.
    + lia.
Qed.

(** ** addLength: migration to indexed mode *)

(** X9.  Migration keeps the file's content in place: under the
    conditions of a normal migration (a direct file of at most
    [NumSecond] sectors growing above [NumFirst], enough clear bits, the
    header's own sector marked), every offset below the old length is
    translated by [ByteToSector] to the same sector after [addLength] as
    before it. *)
Theorem addLength_migration_keeps_sectors m addBytes headSector :
  let old := numSectors (this m) in
  let nS := divRoundUp (numBytes (this m) + addBytes) SectorSize in
  let numNode := divRoundUp nS NumSecond in
  useIndex (this m) = false →
  Z.of_nat (length (dataSectors (this m))) = NumFirst →
  sector_count_ok (this m) →
  0 < old → old <= NumFirst → old <= NumSecond →
  NumFirst < nS → numNode <= NumFirst →
  nS - old + numNode <= bm_numClear (freeMapFile m) →
  0 <= headSector → bm_test (freeMapFile m) headSector = true →
  ∃ m', addLength addBytes headSector m = Ret true m' ∧
    ∀ offset, 0 <= offset < numBytes (this m) →
      ∃ v, ByteToSector offset m = Ret v m ∧ ByteToSector offset m' = Ret v m'.
Proof.
  destruct m as [[nb old ui slots] bm d f]. unfold sector_count_ok. simpl.
  intros -> Hlen Hok Hold HoldF HoldS HnS HnN Hclear Hhs Hmark.
  destruct (addLength_migrate_nonempty addBytes headSector nb old slots bm d f)
    as (sec & node & m' & Hrun & Hfree & Hsec & Hslot & Hnode & Hcopy & Hui);
    try done.
  exists m'. split; [done|]. intros offset Hoff.
  assert (Hws : 0 <= offset `div` SectorSize < old).
  { split; [apply Z.div_le_lower_bound; lia|apply Z.div_lt_upper_bound; nia]. }
  destruct (lookup_lt_is_Some_2 slots (Z.to_nat (offset `div` SectorSize)))
    as [v Hv]; [lia|].
  exists v. split; [by apply ByteToSector_direct_slot; [lia|]|].
  rewrite ByteToSector_spec_eq by lia. unfold sector_of_spec.
  rewrite Hui. rewrite (Z.div_small (offset `div` SectorSize) NumSecond) by lia.
  change (Z.to_nat 0) with O. rewrite Hslot. simpl.
  unfold disk_node. destruct (Z.ltb_spec sec 0) as [Hneg|_].
  { unfold bm_test in Hsec. by destruct (Z.ltb_spec sec 0); [|lia]. }
  rewrite Hnode. simpl. rewrite Z.sub_0_r.
  rewrite (Hcopy (Z.to_nat (offset `div` SectorSize))) by lia. by rewrite Hv.
Qed.

(** ** ByteToSector reads only *)

(** X10.  [ByteToSector] changes nothing: when it returns, the machine is
    as before; and its result depends on neither [numBytes] nor
    [numSectors], so an offset past the end of the file is translated
    like any other. *)
Theorem ByteToSector_reads_only offset m v m' :
  ByteToSector offset m = Ret v m' →
  m' = m ∧
  ∀ nb ns,
    let m0 := with_this (λ h, mkFileHeader nb ns (useIndex h) (dataSectors h)) m in
    ByteToSector offset m0 = Ret v m0.
Proof.
  destruct m as [[nb0 ns0 ui slots] bm d f]. intros Hrun.
  assert (Hany : ∀ nb ns,
    ByteToSector offset (mkMachine (mkFileHeader nb ns ui slots) bm d f)
    = Ret v (mkMachine (mkFileHeader nb ns ui slots) bm d f)).
  { revert Hrun. unfold ByteToSector, bind at 1, gets. simpl. destruct ui.
    - unfold ByteToSectorWithIndex, slot_read, ReadSector, array_get, bind,
        gets, undefined, ret. simpl.
      destruct (_ <? 0); [done|].
      destruct (slots !! _) as [s|]; [|done]. simpl.
      destruct (disk_node d s) as [entries|]; [|done].
      destruct (_ <? 0); [done|].
      destruct (entries !! _) as [e|]; [|done]. by intros [= <- _].
    - unfold slot_read, array_get, bind, gets, undefined, ret. simpl.
      destruct (_ <? 0); [done|].
      destruct (slots !! _) as [e|]; [|done]. by intros [= <- _]. }
  split; [|exact Hany].
  rewrite (Hany nb0 ns0) in Hrun. by injection Hrun as <-.
Qed.

(** ** Allocate: no upper limit *)

(** X11.  [Allocate] does not check the size against the capacity of the
    header: for a size that needs more than [NumFirst] index nodes, with
    enough clear bits, it draws sectors and then stores past the end of
    [dataSectors] (outcome [Undef]). *)
Theorem Allocate_beyond_capacity_overruns m size :
  Z.of_nat (length (dataSectors (this m))) = NumFirst →
  NumFirst < divRoundUp (divRoundUp size SectorSize) NumSecond →
  divRoundUp size SectorSize + divRoundUp (divRoundUp size SectorSize) NumSecond
    <= bm_numClear (freeMap m) →
  ∃ m', Allocate size m = Undef m'.
Proof.
  destruct m as [[nb0 ns0 ui0 slots] bm d f]. simpl. intros Hlen HnN Hclear.
  rewrite Allocate_unfold. set (nS := divRoundUp size SectorSize) in *.
  pose proof (divRoundUp_bounds nS NumSecond NumSecond_pos) as Hb.
  assert (HnS : NumFirst < nS) by nia.
  destruct (Z.gtb_spec nS NumFirst) as [_|Hle]; [|lia].
  rewrite AllocateWithIndex_unfold. fold nS.
  destruct (Z.ltb_spec (bm_numClear bm) (nS + divRoundUp nS NumSecond))
    as [Hlt|_]; [lia|].
  destruct (for_new_nodes_overflow nS size nS true slots bm d f)
    as (m' & Hrun); [lia|lia|].
  exists m'. unfold bind. by rewrite Hrun.
Qed.

(** ** Deallocate: when it returns *)

Lemma free_list_Ret_inv (l : list Z) : ∀ h bm d f m',
  free_list l (mkMachine h bm d f) = Ret tt m' →
  NoDup l ∧ ∀ v, v ∈ l → bm_test bm v = true.
Proof.
  induction l as [|e rest IH]; intros h bm d f m' Hrun.
  - split; [constructor|]. intros v Hv. by apply not_elem_of_nil in Hv.
  - destruct (bm_test bm e) eqn:He.
    + rewrite free_list_cons_set in Hrun by done.
      apply IH in Hrun as (Hnd & Hall). split.
      * constructor; [|done]. intros Hin. specialize (Hall e Hin).
        by rewrite bm_test_clear_eq in Hall.
      * intros v Hv. apply elem_of_cons in Hv as [->|Hv]; [done|].
        eapply bm_test_clear_mono. by apply Hall.
    + by rewrite free_list_cons_clear in Hrun.
Qed.

Lemma released_perm bm (l l' : list Z) bm' :
  l ≡ₚ l' → released bm l bm' → released bm l' bm'.
Proof.
  intros Hp (Hin & Hout & Hc). split; [|split].
  - intros v Hv. apply Hin. by rewrite Hp.
  - intros v Hv. apply Hout. by rewrite Hp.
  - by rewrite <- Hp.
Qed.

Lemma free_list_returns_iff (l : list Z) h bm d f :
  ((∃ m', free_list l (mkMachine h bm d f) = Ret tt m') ↔ owned bm l) ∧
  (∀ m', free_list l (mkMachine h bm d f) = Ret tt m' →
     this m' = h ∧ synchDisk m' = d ∧ released bm l (freeMap m')).
Proof.
  split; [split|].
  - intros (m' & Hrun). by eapply free_list_Ret_inv.
  - intros (Hnd & Hall).
    destruct (free_list_ok l h bm d f Hnd Hall) as (bm' & Hrun & _). eauto.
  - intros m' Hrun.
    destruct (free_list_Ret_inv l h bm d f m' Hrun) as (Hnd & Hall).
    destruct (free_list_ok l h bm d f Hnd Hall) as (bm' & Hrun' & Hrel).
    rewrite Hrun' in Hrun. by injection Hrun as <-.
Qed.

(** X12.  [Deallocate] on a file (direct, or indexed with its nodes on
    disk) returns normally exactly when the sectors of the file are
    pairwise distinct and all marked in the bitmap; it has then changed
    neither header nor disk and cleared exactly these sectors. *)
Theorem Deallocate_returns_iff_sectors_owned m (l : list Z) :
  direct_rep m l ∨ (∃ layout, indexed_rep m layout ∧ l = flat layout) →
  ((∃ m', Deallocate m = Ret tt m') ↔ owned (freeMap m) l) ∧
  (∀ m', Deallocate m = Ret tt m' →
     this m' = this m ∧ synchDisk m' = synchDisk m ∧
     released (freeMap m) l (freeMap m')).
Proof.
  intros [Hrep|(layout & Hrep & ->)].
  - rewrite (Deallocate_direct m l Hrep). destruct m as [h bm d f].
    apply free_list_returns_iff.
  - rewrite (Deallocate_indexed m layout Hrep). destruct m as [h bm d f].
    destruct (free_list_returns_iff (release_order layout) h bm d f)
      as (Hiff & Hrel).
    pose proof (release_order_perm layout) as Hp. split.
    + rewrite Hiff. unfold owned. split; intros (Hnd & Hall).
      * split; [by rewrite <- Hp|]. intros v Hv. apply Hall. by rewrite Hp.
      * split; [by rewrite Hp|]. intros v Hv. apply Hall. by rewrite <- Hp.
    + intros m' Hrun. destruct (Hrel m' Hrun) as (? & ? & ?).
      split; [done|]. split; [done|]. by eapply released_perm.
Qed.

(** ** addLength: growth of an indexed file *)

Lemma flat_app (a b : list (Z * list Z)) : flat (a ++ b) = flat a ++ flat b.
Proof.
  induction a as [|[s es] a IH]; simpl; [done|]. by rewrite IH, app_assoc.
Qed.

Lemma drawn_keeps_marks bm (l : list Z) bm' v :
  drawn bm l bm' → bm_test bm v = true → bm_test bm' v = true.
Proof.
  intros (_ & Hin & Hout & _) Hv. destruct (decide (v ∈ l)) as [Hl|Hl].
  - by destruct (Hin v Hl) as (_ & _ & ?).
  - by rewrite Hout.
Qed.

Lemma drawn_was_clear bm (l : list Z) bm' v :
  drawn bm l bm' → v ∈ l → bm_test bm v = false.
Proof. intros (_ & Hin & _) Hv. by destruct (Hin v Hv) as (_ & ? & _). Qed.

(** The block that fills the rest of the previously last node, for a
    node at any position. *)
Lemma fill_last_node_run old nS nb ns ui (slots : list Z) bm
    (d : gmap Z SectorImage) f sec (node : list Z) :
  let k0 := divRoundUp old NumSecond - 1 in
  let lo := old - k0 * NumSecond in
  let hi := Z.min NumSecond (nS - k0 * NumSecond) in
  0 <= k0 → 0 <= lo <= hi →
  slots !! Z.to_nat k0 = Some sec → 0 <= sec →
  d !! sec = Some (NodeImage node) →
  Z.of_nat (length node) = NumSecond →
  hi - lo <= bm_numClear bm →
  ∃ (l : list Z) bm',
    Z.of_nat (length l) = hi - lo ∧ drawn bm l bm' ∧
    fill_last_node old nS (mkMachine (mkFileHeader nb ns ui slots) bm d f)
    = Ret tt (mkMachine (mkFileHeader nb ns ui slots) bm'
                (<[sec := NodeImage (take (Z.to_nat lo) node ++ l
                     ++ drop (Z.to_nat hi) node)]> d)
                f).
Proof.
  intros k0 lo hi Hk0 Hlo Hslot Hsec Hd Hlen Hclear.
  unfold fill_last_node. fold k0. fold lo. fold hi.
  destruct (fill_node_spec lo hi node (mkFileHeader nb ns ui slots) bm d f)
    as (l & bm' & Hl & Hdr & Hrun); [lia|lia|].
  exists l, bm'. split; [done|]. split; [by apply Hdr|].
  eapply bind_run; [by apply slot_read_ok|].
  eapply bind_run; [by apply ReadSector_ok|].
  eapply bind_run; [exact Hrun|].
  eapply bind_run; [by apply slot_read_ok|].
  by apply WriteSector_ok.
Qed.

Lemma rem_zero_multiple old :
  0 <= old → old `rem` NumSecond = 0 →
  old = divRoundUp old NumSecond * NumSecond.
Proof.
  intros Hold Hrem.
  pose proof (divRoundUp_bounds old NumSecond NumSecond_pos) as Hb.
  rewrite Z.rem_mod_nonneg in Hrem by lia.
  pose proof (Z.div_mod old NumSecond ltac:(lia)) as Hdm.
  rewrite Hrem, Z.add_0_r in Hdm.
  set (q := old `div` NumSecond) in *. set (oN := divRoundUp old NumSecond) in *.
  assert (oN - 1 < q) by (apply (Z.mul_lt_mono_pos_l NumSecond); lia).
  assert (q <= oN) by (apply (Z.mul_le_mono_pos_l _ _ NumSecond); lia).
  assert (q = oN) as <- by lia. lia.
Qed.

Lemma rem_nonzero_partial old :
  0 <= old → old `rem` NumSecond ≠ 0 →
  1 <= divRoundUp old NumSecond ∧
  0 < old - (divRoundUp old NumSecond - 1) * NumSecond < NumSecond.
Proof.
  intros Hold Hrem.
  pose proof (divRoundUp_bounds old NumSecond NumSecond_pos) as Hb.
  assert (old ≠ divRoundUp old NumSecond * NumSecond).
  { intros Heq. apply Hrem. rewrite Heq. apply Z.rem_mul. lia. }
  assert (0 < old).
  { destruct (Z.eq_dec old 0) as [->|]; [|lia]. by rewrite Z.rem_0_l in Hrem by lia. }
  split; nia.
Qed.

(** The previously last node after the block that fills it: the file has
    [mid] sectors then, the smaller of the new count and the capacity of
    the old nodes. *)
Lemma fill_last_phase old nS nb (slots : list Z) bm (d : gmap Z SectorImage) f
    (layout0 : list (Z * list Z)) :
  let oN := divRoundUp old NumSecond in
  let mid := Z.min nS (oN * NumSecond) in
  0 <= old < nS →
  nodes_rep slots d old layout0 → NoDup layout0.*1 →
  mid - old <= bm_numClear bm →
  ∃ (l1 : list Z) bm2 (d2 : gmap Z SectorImage) (layoutA : list (Z * list Z)),
    (if negb (old `rem` NumSecond =? 0) then fill_last_node old nS else ret tt)
      (mkMachine (mkFileHeader nb nS true slots) bm d f)
    = Ret tt (mkMachine (mkFileHeader nb nS true slots) bm2 d2 f) ∧
    drawn bm l1 bm2 ∧ Z.of_nat (length l1) = mid - old ∧
    nodes_rep slots d2 mid layoutA ∧
    layoutA.*1 = layout0.*1 ∧
    flat layoutA = flat layout0 ++ l1 ∧
    (∀ (k : nat) s es, layout0 !! k = Some (s, es) →
       ∃ es', layoutA !! k = Some (s, es') ∧ es `prefix_of` es') ∧
    (∀ s, s ∉ layout0.*1 → d2 !! s = d !! s).
Proof.
  intros oN mid Hold Hrep Hnd Hclear.
  pose proof (divRoundUp_bounds old NumSecond NumSecond_pos) as Hb.
  fold oN in Hb.
  destruct (Z.eqb_spec (old `rem` NumSecond) 0) as [Hrem|Hrem]; simpl.
  - pose proof (rem_zero_multiple old ltac:(lia) Hrem) as Hmul. fold oN in Hmul.
    assert (Hmid : mid = old) by lia.
    exists [], bm, d, layout0. rewrite Hmid.
    split; [done|]. split; [apply drawn_nil|]. split; [simpl; lia|].
    split; [done|]. split; [done|]. split; [by rewrite app_nil_r|].
    split; [|done]. intros k s es Hk. by exists es.
  - destruct (rem_nonzero_partial old ltac:(lia) Hrem) as (HoN1 & Hlo).
    fold oN in HoN1, Hlo.
    assert (HmidN : divRoundUp mid NumSecond = oN)
      by (apply divRoundUp_unique; lia).
    destruct Hrep as (Hlen0 & Hnodes0). fold oN in Hlen0, Hnodes0.
    induction layout0 as [|[s0 es0] pre _] using rev_ind; [simpl in Hlen0; lia|].
    rewrite length_app in Hlen0. simpl in Hlen0.
    rewrite fmap_app in Hnd. simpl in Hnd.
    apply NoDup_app in Hnd as (_ & Hdisj & _).
    destruct (Hnodes0 (length pre) s0 es0) as (Hs0 & Hs0pos & Hes0 & node0 & Hd0 & Hn0 & Ht0).
    { by apply list_lookup_middle. }
    assert (Hes0' : Z.of_nat (length es0) = old - (oN - 1) * NumSecond).
    { rewrite Hes0. unfold node_entries.
      destruct (Z.ltb_spec (Z.of_nat (length pre)) (oN - 1)); lia. }
    destruct (fill_last_node_run old nS nb nS true slots bm d f s0 node0)
      as (l1 & bm2 & Hl1 & Hdr & Hrun); fold oN; try done; try lia.
    { by replace (Z.to_nat (oN - 1)) with (length pre) by lia. }
    fold oN in Hrun, Hl1.
    set (lo := old - (oN - 1) * NumSecond) in *.
    set (hi := Z.min NumSecond (nS - (oN - 1) * NumSecond)) in *.
    set (node1 := take (Z.to_nat lo) node0 ++ l1 ++ drop (Z.to_nat hi) node0) in *.
    assert (Hnode1 : node1 = (es0 ++ l1) ++ drop (Z.to_nat hi) node0).
    { unfold node1. rewrite <- app_assoc. f_equal.
      rewrite <- Ht0. f_equal. lia. }
    exists l1, bm2, (<[s0 := NodeImage node1]> d), (pre ++ [(s0, es0 ++ l1)]).
    split; [exact Hrun|]. split; [done|]. split; [lia|]. split; [|split; [|split; [|split]]].
    + unfold nodes_rep. rewrite HmidN. split; [rewrite length_app; simpl; lia|].
      intros k s es Hk.
      destruct (decide (k < length pre)%nat) as [Hlt|Hge].
      * rewrite lookup_app_l in Hk by done.
        destruct (Hnodes0 k s es) as (Hs & Hspos & Hes & node & Hdn & Hn & Ht).
        { by rewrite lookup_app_l. }
        split; [done|]. split; [done|]. split.
        { rewrite Hes. unfold node_entries.
          destruct (Z.ltb_spec (Z.of_nat k) (oN - 1)); [done|lia]. }
        exists node. split; [|done].
        rewrite lookup_insert_ne; [done|]. intros <-.
        apply (Hdisj s0); [|by left].
        apply list_elem_of_lookup. exists k. by rewrite list_lookup_fmap, Hk.
      * assert (k = length pre) as ->.
        { apply lookup_lt_Some in Hk. rewrite length_app in Hk. simpl in Hk. lia. }
        rewrite list_lookup_middle in Hk by done. injection Hk as <- <-.
        split; [done|]. split; [done|]. split.
        { rewrite length_app. unfold node_entries.
          destruct (Z.ltb_spec (Z.of_nat (length pre)) (oN - 1)); lia. }
        exists node1. split; [by rewrite lookup_insert_eq|]. split.
        { unfold node1. rewrite !length_app, length_take, length_drop. lia. }
        rewrite Hnode1. by rewrite take_app_length.
    + by rewrite !fmap_app.
    + rewrite !flat_app. simpl. rewrite !app_nil_r, <- !app_assoc. done.
    + intros k s es Hk.
      destruct (decide (k < length pre)%nat) as [Hlt|Hge].
      * rewrite lookup_app_l in Hk by done. exists es.
        by rewrite lookup_app_l.
      * assert (k = length pre) as ->.
        { apply lookup_lt_Some in Hk. rewrite length_app in Hk. simpl in Hk. lia. }
        rewrite list_lookup_middle in Hk by done. injection Hk as <- <-.
        exists (es0 ++ l1). rewrite list_lookup_middle by done.
        split; [done|]. by apply prefix_app_r.
    + intros s Hs. rewrite lookup_insert_ne; [done|]. intros <-.
      apply Hs. rewrite fmap_app. apply elem_of_app. right. by left.
Qed.

(** The part of [addLength] after the migration block, on a header whose
    slots and disk hold the nodes [layout0] of the [old] sectors. *)
Lemma grow_nodes old nS nb (slots : list Z) bm (d : gmap Z SectorImage) f
    (layout0 : list (Z * list Z)) headSector :
  let oN := divRoundUp old NumSecond in
  let nN := divRoundUp nS NumSecond in
  0 <= old < nS → nN <= NumFirst → Z.of_nat (length slots) = NumFirst →
  nodes_rep slots d old layout0 → NoDup layout0.*1 →
  (∀ s, s ∈ layout0.*1 → bm_test bm s = true) →
  headSector ∉ layout0.*1 → bm_test bm headSector = true →
  nS - old + (nN - oN) <= bm_numClear bm →
  ∃ (layout' : list (Z * list Z)) (news slots' : list Z) bm'
    (d' : gmap Z SectorImage),
    ((if negb (old `rem` NumSecond =? 0) then fill_last_node old nS else ret tt) ;;
     for_ oN nN (new_node nN nS) ;;
     WriteBack headSector ;;
     WriteBack_freeMapFile ;;
     ret true)
      (mkMachine (mkFileHeader nb nS true slots) bm d f)
    = Ret true (mkMachine (mkFileHeader nb nS true slots') bm' d' bm') ∧
    Z.of_nat (length slots') = NumFirst ∧
    nodes_rep slots' d' nS layout' ∧
    drawn bm news bm' ∧
    flat layout' = flat layout0 ++ news ∧
    (∀ (k : nat) s es, layout0 !! k = Some (s, es) →
       ∃ es', layout' !! k = Some (s, es') ∧ es `prefix_of` es').
Proof.
  intros oN nN Hold HnN Hlen Hrep Hnd Hmark Hhead Hheadm Hclear.
  pose proof (divRoundUp_bounds old NumSecond NumSecond_pos) as HbO.
  pose proof (divRoundUp_bounds nS NumSecond NumSecond_pos) as HbN.
  fold oN in HbO. fold nN in HbN.
  assert (HoN0 : 0 <= oN) by nia.
  assert (HoNn : oN <= nN) by nia.
  set (mid := Z.min nS (oN * NumSecond)).
  assert (HmidN : divRoundUp mid NumSecond = oN)
    by (apply divRoundUp_unique; lia).
  assert (Hmid : nN = oN ∧ mid = nS ∨ oN < nN ∧ mid = oN * NumSecond).
  { destruct (Z.eq_dec nN oN) as [Heq|Hne]; [left|right]; split; try lia.
    assert (NumSecond * oN <= NumSecond * (nN - 1))
      by (apply Z.mul_le_mono_nonneg_l; lia). lia. }
  pose proof Hrep as (Hlen0 & _). fold oN in Hlen0.
  (* the previously last node *)
  destruct (fill_last_phase old nS nb slots bm d f layout0)
    as (l1 & bm2 & d2 & layoutA & Hrun1 & Hdr1 & Hl1 & HrepA & HfstA & HflatA
        & HpreA & Hd2); fold oN; fold mid; try done; try lia.
  change (nodes_rep slots d2 mid layoutA) in HrepA.
  destruct HrepA as (HlenA & HnodesA). rewrite HmidN in HlenA, HnodesA.
  pose proof Hdr1 as (_ & _ & _ & Hc1).
  (* the new nodes *)
  destruct (for_new_nodes nN nS oN nN nb nS true slots bm2 d2 f)
    as (layoutB & bm3 & d3 & HlenB & Hdr3 & Hrun3 & HnodesB & Hd3).
  { lia. } { lia. }
  { intros i Hi. pose proof (node_entries_bounds nS i) as Hb.
    fold nN in Hb. lia. }
  { destruct Hmid as [(Heq & _)|(Hlt & Hm)].
    - replace (Z.to_nat (nN - oN)) with O by lia. simpl. lia.
    - rewrite (nodes_need_closed nN nS _ oN) by lia. lia. }
  pose proof (bm_test_true _ _ Hheadm) as (Hhs & _).
  assert (HmarkA : ∀ s, s ∈ layoutA.*1 → bm_test bm2 s = true).
  { intros s Hs. rewrite HfstA in Hs.
    eapply drawn_keeps_marks; [exact Hdr1|]. by apply Hmark. }
  assert (HfreshB : ∀ s, s ∈ flat layoutB → bm_test bm2 s = false ∧ 0 <= s).
  { intros s Hs. destruct Hdr3 as (_ & Hin & _).
    by destruct (Hin s Hs) as (? & ? & _). }
  assert (HheadB : headSector ∉ layoutB.*1).
  { intros Hs. apply elem_of_flat_fst, HfreshB in Hs as (Hs & _).
    rewrite (drawn_keeps_marks bm l1 bm2 headSector Hdr1 Hheadm) in Hs. done. }
  set (slots' := take (Z.to_nat oN) slots ++ layoutB.*1 ++ drop (Z.to_nat nN) slots) in *.
  set (h' := mkFileHeader nb nS true slots') in *.
  exists (layoutA ++ layoutB), (l1 ++ flat layoutB), slots', bm3,
    (<[headSector := HeaderImage h']> d3).
  split; [|split; [|split; [|split; [|split]]]].
  - eapply bind_run; [exact Hrun1|].
    eapply bind_run; [exact Hrun3|].
    eapply bind_run; [by apply WriteBack_ok|].
    eapply bind_run; reflexivity.
  - unfold slots'. rewrite !length_app, length_take, length_fmap, length_drop. lia.
  - split; [rewrite length_app; fold nN; lia|]. fold nN.
    intros k s es Hk.
    destruct (decide (k < length layoutA)%nat) as [Hlt|Hge].
    + rewrite lookup_app_l in Hk by done.
      destruct (HnodesA k s es Hk) as (Hs & Hspos & Hes & node & Hdn & Hn & Ht).
      assert (HsA : s ∈ layoutA.*1).
      { apply list_elem_of_lookup. exists k. by rewrite list_lookup_fmap, Hk. }
      split.
      { unfold slots'. rewrite lookup_app_l by (rewrite length_take; lia).
        rewrite lookup_take_lt by lia. done. }
      split; [done|]. split.
      { rewrite Hes. unfold node_entries.
        destruct Hmid as [(Heq & Hm)|(Hlt' & Hm)].
        - by rewrite Heq, Hm.
        - rewrite Hm.
          destruct (Z.ltb_spec (Z.of_nat k) (oN - 1)),
            (Z.ltb_spec (Z.of_nat k) (nN - 1)); lia. }
      exists node. split; [|done].
      rewrite lookup_insert_ne by (intros <-; apply Hhead; by rewrite <- HfstA).
      rewrite Hd3; [done|]. intros HsB.
      apply elem_of_flat_fst, HfreshB in HsB as (HsB & _).
      by rewrite (HmarkA s HsA) in HsB.
    + rewrite lookup_app_r in Hk by lia.
      destruct (HnodesB _ s es Hk) as (Hes & node & Hdn & Hn & Ht).
      assert (HsB : s ∈ layoutB.*1).
      { apply list_elem_of_lookup. eexists. by rewrite list_lookup_fmap, Hk. }
      pose proof (lookup_lt_Some _ _ _ Hk) as HkB.
      split.
      { unfold slots'. rewrite lookup_app_r by (rewrite length_take; lia).
        rewrite length_take, lookup_app_l by (rewrite ?length_fmap; lia).
        rewrite list_lookup_fmap.
        replace (k - Z.to_nat oN `min` length slots)%nat
          with (k - length layoutA)%nat by lia.
        by rewrite Hk. }
      split; [by apply HfreshB, elem_of_flat_fst|]. split.
      { rewrite Hes. f_equal. lia. }
      exists node. split; [|done].
      rewrite lookup_insert_ne; [done|]. by intros <-.
  - by eapply drawn_app.
  - by rewrite flat_app, HflatA, app_assoc.
  - intros k s es Hk. destruct (HpreA k s es Hk) as (es' & Hk' & Hpre).
    exists es'. split; [|done]. by apply lookup_app_l_Some.
Qed.

Lemma indexed_file_rep m (layout : list (Z * list Z)) :
  indexed_file m layout → indexed_rep m layout.
Proof.
  intros (Hui & Hlen & Hnodes). split; [done|]. split; [done|].
  intros k s es Hk.
  destruct (Hnodes k s es Hk) as (? & ? & ? & node & ? & _ & ?). eauto 10.
Qed.

Lemma NoDup_flat_fst (layout : list (Z * list Z)) :
  NoDup (flat layout) → NoDup layout.*1.
Proof.
  induction layout as [|[s es] rest IH]; simpl; [constructor|].
  intros Hnd. apply NoDup_cons in Hnd as (Hs & Hnd).
  apply NoDup_app in Hnd as (_ & _ & Hrest).
  constructor; [|by apply IH].
  intros Hin. apply Hs, elem_of_app. right. by apply elem_of_flat_fst.
Qed.

Lemma owned_grow bm (l news : list Z) bm' :
  owned bm l → drawn bm news bm' → owned bm' (l ++ news).
Proof.
  intros (Hnd & Hall) Hdr. split.
  - apply NoDup_app. split; [done|]. split; [|by destruct Hdr].
    intros v Hv Hn. specialize (Hall v Hv).
    by rewrite (drawn_was_clear bm news bm' v Hdr Hn) in Hall.
  - intros v Hv. apply elem_of_app in Hv as [Hv|Hv].
    + eapply drawn_keeps_marks; [done|]. by apply Hall.
    + destruct Hdr as (_ & Hin & _). by destruct (Hin v Hv) as (_ & _ & ?).
Qed.

Lemma Deallocate_indexed_owned m (layout : list (Z * list Z)) :
  indexed_rep m layout → owned (freeMap m) (flat layout) →
  ∃ m2, Deallocate m = Ret tt m2 ∧
        this m2 = this m ∧ synchDisk m2 = synchDisk m ∧
        released (freeMap m) (flat layout) (freeMap m2).
Proof.
  intros Hrep (Hnd & Hall). rewrite (Deallocate_indexed m layout Hrep).
  destruct m as [h bm d f]. pose proof (release_order_perm layout) as Hp.
  destruct (free_list_ok (release_order layout) h bm d f) as (bm' & Hrun & Hrel).
  { by rewrite Hp. } { intros v Hv. apply Hall. by rewrite <- Hp. }
  eexists. split; [exact Hrun|]. split; [done|]. split; [done|].
  by eapply released_perm.
Qed.

(** Every offset of an indexed file is translated to one of its sectors. *)
Lemma indexed_file_translate m (layout : list (Z * list Z)) offset :
  indexed_file m layout →
  0 <= offset < SectorSize * numSectors (this m) →
  ∃ v, ByteToSector offset m = Ret v m ∧ v ∈ flat layout.
Proof.
  intros Hfile Hoff.
  destruct (ByteToSector_indexed m layout offset (indexed_file_rep _ _ Hfile) Hoff)
    as (s & es & v & Hk & Hv & Hrun).
  exists v. split; [done|].
  eapply elem_of_flat_snd; [done|]. by eapply list_elem_of_lookup_2.
Qed.

(** [addLength] on an indexed header. *)
Lemma addLength_indexed_run addBytes headSector nb old (slots : list Z) bm
    (d : gmap Z SectorImage) f (layout0 : list (Z * list Z)) :
  let nS := divRoundUp (nb + addBytes) SectorSize in
  let nN := divRoundUp nS NumSecond in
  Z.of_nat (length slots) = NumFirst →
  nodes_rep slots d old layout0 →
  owned f (headSector :: flat layout0) →
  0 <= old < nS → NumFirst < nS → nN <= NumFirst →
  nS - old + (nN - divRoundUp old NumSecond) <= bm_numClear f →
  ∃ (layout' : list (Z * list Z)) (news slots' : list Z) f'
    (d' : gmap Z SectorImage),
    addLength addBytes headSector
      (mkMachine (mkFileHeader nb old true slots) bm d f)
    = Ret true (mkMachine (mkFileHeader (nb + addBytes) nS true slots') f' d' f') ∧
    Z.of_nat (length slots') = NumFirst ∧
    nodes_rep slots' d' nS layout' ∧
    drawn f news f' ∧
    flat layout' = flat layout0 ++ news ∧
    (∀ (k : nat) s es, layout0 !! k = Some (s, es) →
       ∃ es', layout' !! k = Some (s, es') ∧ es `prefix_of` es').
Proof.
  intros nS nN Hlen Hrep (Hnd & Hall) Hold HnS HnN Hclear.
  apply NoDup_cons in Hnd as (Hhead & Hnd).
  destruct (grow_nodes old nS (nb + addBytes) slots f d f layout0 headSector)
    as (layout' & news & slots' & f' & d' & Hrun & Hrest); fold nS; fold nN;
    try done.
  - by apply NoDup_flat_fst.
  - intros s Hs. apply Hall. right. by apply elem_of_flat_fst.
  - intros Hs. by apply Hhead, elem_of_flat_fst.
  - apply Hall. by left.
  - exists layout', news, slots', f', d'. split; [|done].
    rewrite addLength_unfold. fold nS. fold nN.
    destruct (Z.eqb_spec (nS - old) 0); [lia|].
    destruct (Z.leb_spec nS NumFirst); [lia|]. simpl negb. cbv iota.
    eapply bind_run; [reflexivity|]. exact Hrun.
Qed.

(** X13.  Growth of an indexed file whose sectors are pairwise distinct,
    marked in the bitmap file and different from the header's sector, with
    enough clear bits: [addLength] returns TRUE and leaves an indexed file
    of the new size that consists of the old sectors and newly drawn ones;
    every offset below the old size keeps its sector, every offset below
    the new size has a marked sector, and [Deallocate] afterwards releases
    old and new sectors alike. *)
Theorem addLength_indexed_growth m addBytes headSector
    (layout : list (Z * list Z)) :
  let old := numSectors (this m) in
  let nS := divRoundUp (numBytes (this m) + addBytes) SectorSize in
  let nN := divRoundUp nS NumSecond in
  indexed_file m layout →
  Z.of_nat (length (dataSectors (this m))) = NumFirst →
  owned (freeMapFile m) (headSector :: flat layout) →
  0 <= old < nS → NumFirst < nS → nN <= NumFirst →
  nS - old + (nN - divRoundUp old NumSecond) <= bm_numClear (freeMapFile m) →
  ∃ (layout' : list (Z * list Z)) (news : list Z) m',
    addLength addBytes headSector m = Ret true m' ∧
    indexed_file m' layout' ∧
    drawn (freeMapFile m) news (freeMapFile m') ∧
    flat layout' = flat layout ++ news ∧
    owned (freeMapFile m') (headSector :: flat layout') ∧
    (∀ offset, 0 <= offset < SectorSize * old →
       ∃ v, ByteToSector offset m = Ret v m ∧ ByteToSector offset m' = Ret v m') ∧
    (∀ offset, 0 <= offset < SectorSize * nS →
       ∃ v, ByteToSector offset m' = Ret v m' ∧
            bm_test (freeMapFile m') v = true) ∧
    ∃ m2, Deallocate m' = Ret tt m2 ∧
          bm_numClear (freeMap m2)
          = bm_numClear (freeMapFile m) + Z.of_nat (length (flat layout)).
Proof.
  destruct m as [[nb old ui slots] bm d f]. simpl.
  intros (Hui & Hrep) Hlen Hown Hold HnS HnN Hclear. simpl in Hui, Hrep.
  subst ui.
  destruct (addLength_indexed_run addBytes headSector nb old slots bm d f layout)
    as (layout' & news & slots' & f' & d' & Hrun & Hlen' & Hrep' & Hdr & Hflat
        & Hpre); try done.
  set (nS := divRoundUp (nb + addBytes) SectorSize) in *.
  set (m' := mkMachine (mkFileHeader (nb + addBytes) nS true slots') f' d' f') in *.
  assert (Hfile' : indexed_file m' layout') by (by split).
  assert (Hown' : owned f' (headSector :: flat layout')).
  { rewrite Hflat. by apply (owned_grow f (headSector :: flat layout) news f'). }
  assert (Hown2 : owned f' (flat layout')).
  { destruct Hown' as (Hnd & Hall). apply NoDup_cons in Hnd as (_ & Hnd).
    split; [done|]. intros v Hv. apply Hall. by right. }
  exists layout', news, m'.
  split; [done|]. split; [done|]. split; [done|]. split; [done|].
  split; [done|]. split; [|split].
  - intros offset Hoff.
    destruct (ByteToSector_indexed
                (mkMachine (mkFileHeader nb old true slots) bm d f) layout offset)
      as (s & es & v & Hk & Hv & Hbts); [by apply indexed_file_rep|done|].
    destruct (ByteToSector_indexed m' layout' offset)
      as (s' & es' & v' & Hk' & Hv' & Hbts'); [by apply indexed_file_rep|simpl; nia|].
    destruct (Hpre _ s es Hk) as (es'' & Hk'' & (rest & ->)).
    rewrite Hk'' in Hk'. injection Hk' as <- <-.
    rewrite lookup_app_l in Hv' by (by eapply lookup_lt_Some).
    rewrite Hv in Hv'. injection Hv' as <-. by exists v.
  - intros offset Hoff.
    destruct (indexed_file_translate m' layout' offset Hfile' Hoff)
      as (v & Hbts & Hv).
    exists v. split; [done|]. by apply Hown2.
  - destruct (Deallocate_indexed_owned m' layout')
      as (m2 & Hrun2 & _ & _ & _ & _ & Hc); [by apply indexed_file_rep|done|].
    exists m2. split; [done|]. rewrite Hc. simpl.
    destruct Hdr as (_ & _ & _ & Hcn). rewrite Hcn, Hflat, length_app. lia.
Qed.

(** [addLength] on a direct header that has to migrate: [sec] is the sector
    the migration block draws. *)
Lemma addLength_migrate_run addBytes headSector nb old (slots : list Z) bm
    (d : gmap Z SectorImage) f :
  let nS := divRoundUp (nb + addBytes) SectorSize in
  let nN := divRoundUp nS NumSecond in
  Z.of_nat (length slots) = NumFirst →
  0 <= old <= NumSecond → old <= NumFirst → NumFirst < nS → nN <= NumFirst →
  bm_test f headSector = true →
  nS - old + nN + (if old =? 0 then 1 else 0) <= bm_numClear f →
  ∃ sec (layout' : list (Z * list Z)) (news slots' : list Z) f'
    (d' : gmap Z SectorImage),
    addLength addBytes headSector
      (mkMachine (mkFileHeader nb old false slots) bm d f)
    = Ret true (mkMachine (mkFileHeader (nb + addBytes) nS true slots') f' d' f') ∧
    Z.of_nat (length slots') = NumFirst ∧
    nodes_rep slots' d' nS layout' ∧
    drawn f (sec :: news) f' ∧
    flat layout'
    = (if old =? 0 then [] else sec :: take (Z.to_nat old) slots) ++ news.
Proof.
  intros nS nN Hlen Hold HoldF HnS HnN Hhead Hclear.
  pose proof (divRoundUp_bounds nS NumSecond NumSecond_pos) as HbN.
  fold nN in HbN.
  assert (HnN1 : 1 <= nN) by nia.
  assert (Hc0 : 1 <= bm_numClear f) by (destruct (old =? 0); lia).
  destruct (migrate_spec old (nb + addBytes) nS slots f d f)
    as (sec & bm1 & Hdr1 & Hmig); [lia..|].
  pose proof Hdr1 as (_ & Hin1 & _ & Hc1).
  destruct (Hin1 sec) as (Hsec & Hsec0 & Hsec1); [by left|].
  simpl in Hc1.
  set (node_m := take (Z.to_nat old) slots ++ drop (Z.to_nat old) new_SecondNode) in *.
  set (d1 := <[sec := NodeImage node_m]> d) in *.
  set (layout0 := if old =? 0 then [] else [(sec, take (Z.to_nat old) slots)]).
  assert (Hfst0 : ∀ s, s ∈ layout0.*1 → s = sec).
  { unfold layout0. destruct (old =? 0); simpl; intros s Hs.
    - by apply not_elem_of_nil in Hs.
    - by apply list_elem_of_singleton in Hs. }
  assert (Hrep0 : nodes_rep (<[O := sec]> slots) d1 old layout0).
  { unfold layout0. destruct (Z.eqb_spec old 0) as [->|Hne].
    - split; [by rewrite (divRoundUp_unique 0 NumSecond 0) by lia|].
      intros k s es Hk. done.
    - assert (HoN : divRoundUp old NumSecond = 1)
        by (apply divRoundUp_unique; lia).
      split; [by rewrite HoN|]. rewrite HoN.
      intros [|k] s es Hk; [|done]. injection Hk as <- <-.
      split; [apply list_lookup_insert_eq; lia|]. split; [done|]. split.
      { rewrite length_take. unfold node_entries. simpl. lia. }
      exists node_m. split; [unfold d1; by rewrite lookup_insert_eq|]. split.
      { unfold node_m. rewrite length_app, length_take, length_drop.
        pose proof length_new_SecondNode. lia. }
      unfold node_m. by rewrite take_app_length. }
  destruct (grow_nodes old nS (nb + addBytes) (<[O := sec]> slots) bm1 d1 f
              layout0 headSector)
    as (layout' & news & slots' & f' & d' & Hrun & Hlen' & Hrep' & Hdr & Hflat & _);
    fold nS; fold nN; try done.
  - lia.
  - by rewrite length_insert.
  - unfold layout0. destruct (old =? 0); simpl; [constructor|apply NoDup_singleton].
  - intros s Hs. by rewrite (Hfst0 s Hs).
  - intros Hs. apply Hfst0 in Hs as ->. congruence.
  - by eapply drawn_keeps_marks.
  - destruct (Z.eqb_spec old 0) as [->|Hne].
    + rewrite (divRoundUp_unique 0 NumSecond 0) by lia. lia.
    + rewrite (divRoundUp_unique old NumSecond 1) by lia. lia.
  - exists sec, layout', news, slots', f', d'.
    split; [|split; [done|split; [done|split]]].
    + rewrite addLength_unfold. fold nS. fold nN.
      destruct (Z.eqb_spec (nS - old) 0); [lia|].
      destruct (Z.leb_spec nS NumFirst); [lia|]. simpl negb. cbv iota.
      eapply bind_run; [exact Hmig|]. exact Hrun.
    + by apply (drawn_app f [sec] bm1 news f').
    + rewrite Hflat. unfold layout0. destruct (old =? 0); [done|].
      simpl. by rewrite app_nil_r.
Qed.

(** X14.  Migration of a direct file of [1 .. NumSecond] sectors, pairwise
    distinct, marked in the bitmap file and different from the header's
    sector, with enough clear bits: [addLength] returns TRUE and leaves an
    indexed file of the new size made of the old data sectors and newly
    drawn sectors; every offset below the new size has a marked sector, and
    [Deallocate] afterwards releases old and new sectors alike. *)
Theorem addLength_migration_builds_indexed_file m addBytes headSector :
  let old := numSectors (this m) in
  let nS := divRoundUp (numBytes (this m) + addBytes) SectorSize in
  let nN := divRoundUp nS NumSecond in
  let l := take (Z.to_nat old) (dataSectors (this m)) in
  useIndex (this m) = false →
  Z.of_nat (length (dataSectors (this m))) = NumFirst →
  0 < old → old <= NumFirst → old <= NumSecond →
  NumFirst < nS → nN <= NumFirst →
  owned (freeMapFile m) (headSector :: l) →
  nS - old + nN <= bm_numClear (freeMapFile m) →
  ∃ (layout' : list (Z * list Z)) (news : list Z) m',
    addLength addBytes headSector m = Ret true m' ∧
    indexed_file m' layout' ∧
    drawn (freeMapFile m) news (freeMapFile m') ∧
    flat layout' ≡ₚ l ++ news ∧
    owned (freeMapFile m') (headSector :: flat layout') ∧
    (∀ offset, 0 <= offset < SectorSize * nS →
       ∃ v, ByteToSector offset m' = Ret v m' ∧
            bm_test (freeMapFile m') v = true) ∧
    ∃ m2, Deallocate m' = Ret tt m2 ∧
          bm_numClear (freeMap m2) = bm_numClear (freeMapFile m) + old.
Proof.
  destruct m as [[nb old ui slots] bm d f]. simpl.
  intros -> Hlen Hold HoldF HoldS HnS HnN Hown Hclear.
  destruct (addLength_migrate_run addBytes headSector nb old slots bm d f)
    as (sec & layout' & news & slots' & f' & d' & Hrun & Hlen' & Hrep' & Hdr
        & Hflat); try done; try lia.
  { apply Hown. by left. }
  { destruct (Z.eqb_spec old 0); lia. }
  destruct (Z.eqb_spec old 0) as [Hz|_]; [lia|].
  set (nS := divRoundUp (nb + addBytes) SectorSize) in *.
  set (l := take (Z.to_nat old) slots) in *.
  set (m' := mkMachine (mkFileHeader (nb + addBytes) nS true slots') f' d' f') in *.
  assert (Hfile' : indexed_file m' layout') by (by split).
  assert (Hperm : headSector :: flat layout' ≡ₚ (headSector :: l) ++ sec :: news).
  { rewrite Hflat. simpl. f_equiv. by rewrite Permutation_middle. }
  assert (Hown' : owned f' (headSector :: flat layout')).
  { destruct (owned_grow f (headSector :: l) (sec :: news) f' Hown Hdr)
      as (Hnd & Hall).
    split; [by rewrite Hperm|]. intros v Hv. apply Hall. by rewrite <- Hperm. }
  assert (Hown2 : owned f' (flat layout')).
  { destruct Hown' as (Hnd & Hall). apply NoDup_cons in Hnd as (_ & Hnd).
    split; [done|]. intros v Hv. apply Hall. by right. }
  exists layout', (sec :: news), m'.
  split; [done|]. split; [done|]. split; [done|]. split.
  { rewrite Hflat. simpl. by rewrite Permutation_middle. }
  split; [done|]. split.
  - intros offset Hoff.
    destruct (indexed_file_translate m' layout' offset Hfile' Hoff)
      as (v & Hbts & Hv).
    exists v. split; [done|]. by apply Hown2.
  - destruct (Deallocate_indexed_owned m' layout')
      as (m2 & Hrun2 & _ & _ & _ & _ & Hc); [by apply indexed_file_rep|done|].
    exists m2. split; [done|]. rewrite Hc. simpl.
    destruct Hdr as (_ & _ & _ & Hcn). rewrite Hcn, Hflat. simpl.
    rewrite length_app. unfold l. rewrite length_take. simpl. lia.
Qed.

(** X15.  Growing an empty direct file above [NumFirst] sectors draws one
    sector more than the file uses: the migration block draws a sector
    [sec] for a first node, and the node loop, which starts at position
    0, draws another one for the same slot.  [sec] stays marked in the
    bitmap although no slot or node refers to it; [Deallocate] on the
    grown file returns and leaves one clear bit less than there was
    before the growth. *)
Theorem addLength_from_empty_leaks_a_sector m addBytes headSector :
  let nS := divRoundUp (numBytes (this m) + addBytes) SectorSize in
  let nN := divRoundUp nS NumSecond in
  useIndex (this m) = false → numSectors (this m) = 0 →
  Z.of_nat (length (dataSectors (this m))) = NumFirst →
  NumFirst < nS → nN <= NumFirst →
  bm_test (freeMapFile m) headSector = true →
  nS + nN + 1 <= bm_numClear (freeMapFile m) →
  ∃ sec m' m2,
    addLength addBytes headSector m = Ret true m' ∧
    bm_test (freeMapFile m) sec = false ∧
    bm_test (freeMapFile m') sec = true ∧
    (∀ offset v, 0 <= offset < SectorSize * nS →
       ByteToSector offset m' = Ret v m' → v ≠ sec) ∧
    (∀ k : nat, Z.of_nat k < nN → dataSectors (this m') !! k ≠ Some sec) ∧
    Deallocate m' = Ret tt m2 ∧
    bm_test (freeMap m2) sec = true ∧
    bm_numClear (freeMap m2) = bm_numClear (freeMapFile m) - 1.
Proof.
  destruct m as [[nb old ui slots] bm d f]. simpl.
  intros -> -> Hlen HnS HnN Hhead Hclear.
  destruct (addLength_migrate_run addBytes headSector nb 0 slots bm d f)
    as (sec & layout' & news & slots' & f' & d' & Hrun & Hlen' & Hrep' & Hdr
        & Hflat); try done; try lia.
  { simpl. lia. }
  simpl in Hflat.
  set (nS := divRoundUp (nb + addBytes) SectorSize) in *.
  set (m' := mkMachine (mkFileHeader (nb + addBytes) nS true slots') f' d' f') in *.
  assert (Hfile' : indexed_file m' layout') by (by split).
  pose proof Hdr as (Hnd & Hin & Hout & Hcn).
  apply NoDup_cons in Hnd as (Hsec & Hnd).
  destruct (Hin sec) as (_ & Hsec0 & Hsec1); [by left|].
  assert (Hown2 : owned f' (flat layout')).
  { rewrite Hflat. split; [done|]. intros v Hv.
    destruct (Hin v) as (_ & _ & ?); [by right|done]. }
  destruct (Deallocate_indexed_owned m' layout')
    as (m2 & Hrun2 & _ & _ & _ & Hout2 & Hc); [by apply indexed_file_rep|done|].
  exists sec, m', m2.
  split; [done|]. split; [done|]. split; [done|]. split; [|split].
  - intros offset v Hoff Hv ->.
    destruct (indexed_file_translate m' layout' offset Hfile' Hoff)
      as (v' & Hbts & Hv').
    rewrite Hv in Hbts. injection Hbts as <-. apply Hsec. by rewrite <- Hflat.
  - intros k Hk Hslot. destruct Hrep' as (Hlay & Hnodes).
    destruct (lookup_lt_is_Some_2 layout' k) as [[s es] Hks]; [lia|].
    destruct (Hnodes k s es Hks) as (Hs & _). simpl in Hslot.
    rewrite Hs in Hslot. injection Hslot as ->.
    apply Hsec. rewrite <- Hflat. apply elem_of_flat_fst.
    apply list_elem_of_lookup. exists k. by rewrite list_lookup_fmap, Hks.
  - split; [done|]. split.
    + rewrite Hout2; [done|]. by rewrite Hflat.
    + rewrite Hc. simpl. rewrite Hcn, Hflat. simpl. lia.
Qed.

(** ** From Allocate to Deallocate *)

Lemma AllocateWithIndex_file size nb0 ns0 ui0 (slots : list Z) bm d f :
  let nS := divRoundUp size SectorSize in
  let numNode := divRoundUp nS NumSecond in
  1 <= nS → numNode <= Z.of_nat (length slots) →
  nS + numNode <= bm_numClear bm →
  ∃ (layout : list (Z * list Z)) (slots' : list Z) bm'
    (d' : gmap Z SectorImage),
    AllocateWithIndex size (mkMachine (mkFileHeader nb0 ns0 ui0 slots) bm d f)
    = Ret true (mkMachine (mkFileHeader size nS true slots') bm' d' f) ∧
    length slots' = length slots ∧
    drawn bm (flat layout) bm' ∧
    nodes_rep slots' d' nS layout.
Proof.
  intros nS numNode HnS Hslots Hclear.
  assert (HnN : 1 <= numNode).
  { pose proof (divRoundUp_pos nS NumSecond NumSecond_pos). unfold numNode. lia. }
  destruct (for_new_nodes numNode nS 0 numNode size nS true slots bm d f)
    as (layout & bm' & d' & Hlen & Hdr & Hrun & Hnodes & Hother).
  { lia. } { lia. }
  { intros i Hi. pose proof (node_entries_bounds nS i Hi) as H.
    fold numNode in H. lia. }
  { rewrite (nodes_need_closed numNode nS _ 0) by lia. lia. }
  exists layout. eexists _, bm', d'. split; [|split; [|split; [done|]]].
  - rewrite AllocateWithIndex_unfold. fold nS. fold numNode.
    destruct (Z.ltb_spec (bm_numClear bm) (nS + numNode)); [lia|].
    eapply bind_run; [exact Hrun|]. done.
  - rewrite !length_app, length_take, length_fmap, length_drop. lia.
  - split; [fold numNode; lia|]. fold numNode.
    intros k s es Hk. destruct (Hnodes k s es Hk) as (He & node & Hd & Hn & Ht).
    assert (Hs : s ∈ layout.*1).
    { apply list_elem_of_lookup. exists k. by rewrite list_lookup_fmap, Hk. }
    split; [|split; [|split]].
    + simpl. apply lookup_app_l_Some. by rewrite list_lookup_fmap, Hk.
    + destruct Hdr as (_ & Hin & _). by apply (Hin s), elem_of_flat_fst.
    + rewrite He. f_equal.
    + by exists node.
Qed.

(** What a successful [Allocate] leaves: a direct file, or an indexed
    file with its nodes on disk, made of sectors drawn from the bitmap. *)
Lemma Allocate_true_file m size m' :
  Z.of_nat (length (dataSectors (this m))) = NumFirst →
  Allocate size m = Ret true m' →
  numBytes (this m') = size ∧
  numSectors (this m') = divRoundUp size SectorSize ∧
  Z.of_nat (length (dataSectors (this m'))) = NumFirst ∧
  freeMapFile m' = freeMapFile m ∧
  ((divRoundUp size SectorSize <= NumFirst ∧
    ∃ l, direct_rep m' l ∧ drawn (freeMap m) l (freeMap m')) ∨
   (NumFirst < divRoundUp size SectorSize ∧
    ∃ layout, indexed_file m' layout ∧
              drawn (freeMap m) (flat layout) (freeMap m'))).
Proof.
  intros Hlen Hrun.
  set (nS := divRoundUp size SectorSize).
  set (need := if nS <=? NumFirst then nS else nS + divRoundUp nS NumSecond).
  assert (Hneed : need <= bm_numClear (freeMap m)).
  { destruct (Z.le_gt_cases need (bm_numClear (freeMap m))) as [|Hlt]; [done|].
    destruct (Allocate_failure m size Hlen Hlt) as (m'' & Hf & _). congruence. }
  assert (Hfit : nS <= NumFirst ∨ divRoundUp nS NumSecond <= NumFirst).
  { destruct (Z.le_gt_cases nS NumFirst) as [|H1]; [by left|].
    destruct (Z.le_gt_cases (divRoundUp nS NumSecond) NumFirst) as [|H2];
      [by right|].
    exfalso. by apply (Allocate_overflow m size m' Hlen). }
  revert Hrun. destruct m as [[nb0 ns0 ui0 slots] bm d f]. simpl in *.
  fold nS. unfold need in Hneed.
  destruct (Z.leb_spec nS NumFirst) as [Hle|Hgt].
  - destruct (Allocate_direct_ok size nb0 ns0 ui0 slots bm d f)
      as (l & bm' & Hrun & Hl & Hdr); [done|fold nS; lia|done|].
    rewrite Hrun. intros [= <-]. simpl. fold nS in Hl.
    split; [done|]. split; [done|]. split.
    { rewrite length_app, length_drop. lia. }
    split; [done|]. left. split; [done|]. exists l. split; [|done].
    split; [done|]. split; [done|]. simpl. by rewrite take_app_length.
  - destruct (AllocateWithIndex_file size size nS ui0 slots bm d f)
      as (layout & slots' & bm' & d' & Hrun & Hlen' & Hdr & Hrep);
      [fold nS; lia..|].
    rewrite Allocate_unfold. fold nS.
    destruct (Z.gtb_spec nS NumFirst); [|lia]. rewrite Hrun.
    intros [= <-]. simpl. split; [done|]. split; [done|]. split; [lia|].
    split; [done|]. right. split; [done|]. exists layout. by split.
Qed.

Lemma owned_drawn bm (l : list Z) bm' : drawn bm l bm' → owned bm' l.
Proof.
  intros (Hnd & Hin & _). split; [done|].
  intros v Hv. by destruct (Hin v Hv) as (_ & _ & ?).
Qed.

(** Releasing, in any order, the sectors that were drawn gives back the
    bitmap of before. *)
Lemma free_list_undoes_drawn bm0 (l l' : list Z) h bm d f :
  drawn bm0 l bm → l' ≡ₚ l →
  ∃ bm', free_list l' (mkMachine h bm d f) = Ret tt (mkMachine h bm' d f) ∧
         ∀ v, bm_test bm' v = bm_test bm0 v.
Proof.
  intros (Hnd & Hin & Hout & _) Hperm.
  destruct (free_list_ok l' h bm d f) as (bm' & Hfree & Hin2 & Hout2 & _).
  { by rewrite Hperm. }
  { intros v Hv. rewrite Hperm in Hv. by destruct (Hin v Hv) as (_ & _ & ?). }
  exists bm'. split; [done|]. intros v.
  destruct (decide (v ∈ l)) as [Hl|Hl].
  - destruct (Hin v Hl) as (_ & -> & _). apply Hin2. by rewrite Hperm.
  - rewrite Hout2 by (by rewrite Hperm). by apply Hout.
Qed.

(** [addLength] in the direct-growth branch. *)
Lemma addLength_direct_grow addBytes headSector nb ns ui (slots : list Z) bm
    (d : gmap Z SectorImage) f :
  let nS := divRoundUp (nb + addBytes) SectorSize in
  0 <= ns < nS → nS <= NumFirst → Z.of_nat (length slots) = NumFirst →
  0 <= headSector → nS - ns <= bm_numClear f →
  ∃ (l : list Z) f' (d' : gmap Z SectorImage),
    Z.of_nat (length l) = nS - ns ∧ drawn f l f' ∧
    addLength addBytes headSector
      (mkMachine (mkFileHeader nb ns ui slots) bm d f)
    = Ret true
        (mkMachine
           (mkFileHeader (nb + addBytes) nS ui
              (take (Z.to_nat ns) slots ++ l
                 ++ drop (Z.to_nat ns + length l) slots))
           f' d' f').
Proof.
  intros nS Hns HnS Hlen Hhs Hclear. rewrite addLength_unfold. fold nS.
  destruct (Z.eqb_spec (nS - ns) 0) as [Heq|_]; [lia|].
  destruct (Z.leb_spec nS NumFirst) as [_|Hgt]; [|lia].
  destruct (for_fill_slots ns nS (nb + addBytes) nS ui slots f d f)
    as (l & bm' & Hl & Hdr & Hrun); [lia|lia|].
  exists l, bm'. eexists. split; [lia|]. split; [by apply Hdr|].
  eapply bind_run; [exact Hrun|].
  eapply bind_run; [reflexivity|].
  eapply bind_run; [by apply WriteBack_ok|].
  unfold ret. simpl. by rewrite Hl.
Qed.

Lemma divRoundUp_mono a b s : 0 < s → a <= b → divRoundUp a s <= divRoundUp b s.
Proof.
  intros Hs Hab. pose proof (divRoundUp_bounds a s Hs).
  pose proof (divRoundUp_bounds b s Hs).
  assert (s * (divRoundUp a s - 1) < s * divRoundUp b s) by lia.
  apply Z.mul_lt_mono_pos_l in H1; lia.
Qed.

(** X16.  The life of a file: [Allocate] for at least one byte, the bitmap
    written back, [addLength] by any [addBytes >= 0] within the capacity of
    the header and the free space, then [Deallocate].  In a configuration
    with [NumFirst <= NumSecond] every step returns normally, and at the
    end the bitmap is, bit for bit, the one of before [Allocate]. *)
Theorem Allocate_addLength_Deallocate_round_trip m size addBytes headSector m1 :
  let nS := divRoundUp (size + addBytes) SectorSize in
  let nN := divRoundUp nS NumSecond in
  Z.of_nat (length (dataSectors (this m))) = NumFirst →
  NumFirst <= NumSecond →
  bm_test (freeMap m) headSector = true →
  1 <= size → 0 <= addBytes →
  Allocate size m = Ret true m1 →
  nN <= NumFirst →
  (if nS <=? NumFirst then nS else nS + nN) <= bm_numClear (freeMap m) →
  ∃ m2 m3,
    (WriteBack_freeMapFile ;; addLength addBytes headSector) m1 = Ret true m2 ∧
    Deallocate m2 = Ret tt m3 ∧
    ∀ v, bm_test (freeMap m3) v = bm_test (freeMap m) v.
Proof.
  intros nS nN Hlen Hconf Hhead Hsize Hadd Hrun HnN Hclear.
  destruct (Allocate_true_file m size m1 Hlen Hrun)
    as (Hnb & Hns & Hlen1 & _ & Hrep).
  destruct m1 as [[nb1 old ui1 slots1] bm1 d1 f1]. simpl in Hnb, Hns, Hlen1, Hrep.
  subst nb1. set (bm0 := freeMap m) in *.
  assert (Hold1 : 1 <= old).
  { rewrite Hns. pose proof (divRoundUp_pos size SectorSize SectorSize_pos). lia. }
  assert (HoldnS : old <= nS).
  { rewrite Hns. apply divRoundUp_mono; lia. }
  pose proof (bm_test_true _ _ Hhead) as (Hhs & _).
  assert (Hstep : ∀ m2,
    addLength addBytes headSector
      (mkMachine (mkFileHeader size old ui1 slots1) bm1 d1 bm1) = Ret true m2 →
    (WriteBack_freeMapFile ;; addLength addBytes headSector)
      (mkMachine (mkFileHeader size old ui1 slots1) bm1 d1 f1) = Ret true m2).
  { intros m2 H2. eapply bind_run; [reflexivity|]. exact H2. }
  destruct Hrep as [(Hle & l & Hrep & Hdr)|(Hgt & layout & Hfile & Hdr)].
  - (* a direct file *)
    destruct Hrep as (Hui & Hl & Htake). simpl in Hui, Hl, Htake. subst ui1.
    pose proof Hdr as (_ & _ & _ & Hc).
    pose proof (drawn_keeps_marks _ _ _ headSector Hdr Hhead) as Hhead1.
    destruct (Z.eq_dec old nS) as [Heq|Hne].
    + (* the sector count stays *)
      set (h2 := mkFileHeader (size + addBytes) nS false slots1).
      set (d2 := <[headSector := HeaderImage h2]> d1).
      destruct (free_list_undoes_drawn bm0 l l h2 bm1 d2 bm1 Hdr)
        as (bm3 & Hfree & Hbits); [done|].
      exists (mkMachine h2 bm1 d2 bm1), (mkMachine h2 bm3 d2 bm1).
      split; [|split; [|done]].
      * apply Hstep. rewrite addLength_unfold. fold nS.
        destruct (Z.eqb_spec (nS - old) 0); [|lia].
        eapply bind_run; [by apply WriteBack_ok|]. reflexivity.
      * rewrite (Deallocate_direct _ l); [done|].
        split; [done|]. split; [simpl; lia|done].
    + destruct (Z.leb_spec nS NumFirst) as [HnS|HnS].
      * (* growth in direct mode *)
        destruct (addLength_direct_grow addBytes headSector size old false
                    slots1 bm1 d1 bm1)
          as (news & f' & d' & Hnews & Hdr2 & Hrun2); fold nS; try lia.
        fold nS in Hrun2.
        pose proof (drawn_app _ _ _ _ _ Hdr Hdr2) as Hall.
        set (h2 := mkFileHeader (size + addBytes) nS false
                     (take (Z.to_nat old) slots1 ++ news
                        ++ drop (Z.to_nat old + length news) slots1)) in *.
        assert (Hrep2 : direct_rep (mkMachine h2 f' d' f') (l ++ news)).
        { split; [done|]. split; [simpl; rewrite length_app; lia|]. simpl.
          replace (Z.to_nat old) with (length l) by lia. rewrite Htake.
          rewrite app_assoc. by rewrite take_app_length. }
        destruct (free_list_undoes_drawn bm0 (l ++ news) (l ++ news) h2 f' d' f'
                    Hall) as (bm3 & Hfree & Hbits); [done|].
        exists (mkMachine h2 f' d' f'), (mkMachine h2 bm3 d' f').
        split; [by apply Hstep|]. split; [|done].
        by rewrite (Deallocate_direct _ (l ++ news)).
      * (* migration *)
        destruct (addLength_migrate_run addBytes headSector size old slots1
                    bm1 d1 bm1)
          as (sec & layout' & news & slots' & f' & d' & Hrun2 & Hlen' & Hrep'
              & Hdr2 & Hflat); fold nS; fold nN; try done; try lia.
        { destruct (Z.eqb_spec old 0); lia. }
        fold nS in Hrun2, Hrep'.
        destruct (Z.eqb_spec old 0) as [Hz|_]; [lia|].
        replace (Z.to_nat old) with (length l) in Hflat by lia.
        rewrite Htake in Hflat.
        pose proof (drawn_app _ _ _ _ _ Hdr Hdr2) as Hall.
        set (h2 := mkFileHeader (size + addBytes) nS true slots') in *.
        assert (Hrep2 : indexed_rep (mkMachine h2 f' d' f') layout').
        { apply indexed_file_rep. by split. }
        destruct (free_list_undoes_drawn bm0 (l ++ sec :: news)
                    (release_order layout') h2 f' d' f' Hall)
          as (bm3 & Hfree & Hbits).
        { rewrite release_order_perm, Hflat. simpl.
          by rewrite Permutation_middle. }
        exists (mkMachine h2 f' d' f'), (mkMachine h2 bm3 d' f').
        split; [by apply Hstep|]. split; [|done].
        by rewrite (Deallocate_indexed _ layout').
  - (* an indexed file *)
    destruct Hfile as (Hui & Hrep). simpl in Hui, Hrep. subst ui1.
    pose proof Hdr as (Hnd & Hin & _ & Hc).
    pose proof (drawn_keeps_marks _ _ _ headSector Hdr Hhead) as Hhead1.
    assert (Hhead0 : headSector ∉ flat layout).
    { intros Hs. destruct (Hin _ Hs) as (_ & ? & _). congruence. }
    assert (Hcnt : Z.of_nat (length (flat layout)) = old + divRoundUp old NumSecond).
    { apply (indexed_rep_flat_length
               (mkMachine (mkFileHeader size old true slots1) bm1 d1 f1) layout);
        [|simpl; lia].
      apply indexed_file_rep. by split. }
    destruct (Z.leb_spec nS NumFirst) as [HnS|HnS]; [lia|].
    destruct (Z.eq_dec old nS) as [Heq|Hne].
    + (* the sector count stays *)
      set (h2 := mkFileHeader (size + addBytes) nS true slots1).
      set (d2 := <[headSector := HeaderImage h2]> d1).
      assert (Hrep2 : indexed_rep (mkMachine h2 bm1 d2 bm1) layout).
      { apply indexed_file_rep. split; [done|]. simpl. rewrite <- Heq.
        destruct Hrep as (Hlay & Hnodes). split; [done|].
        intros k s es Hk.
        destruct (Hnodes k s es Hk) as (? & ? & ? & node & Hdn & ? & ?).
        split; [done|]. split; [done|]. split; [done|].
        exists node. split; [|done].
        unfold d2. rewrite lookup_insert_ne; [done|]. intros <-.
        apply Hhead0, elem_of_flat_fst, list_elem_of_lookup. exists k.
        by rewrite list_lookup_fmap, Hk. }
      destruct (free_list_undoes_drawn bm0 (flat layout) (release_order layout)
                  h2 bm1 d2 bm1 Hdr) as (bm3 & Hfree & Hbits);
        [apply release_order_perm|].
      exists (mkMachine h2 bm1 d2 bm1), (mkMachine h2 bm3 d2 bm1).
      split; [|split; [|done]].
      * apply Hstep. rewrite addLength_unfold. fold nS.
        destruct (Z.eqb_spec (nS - old) 0); [|lia].
        eapply bind_run; [by apply WriteBack_ok|]. reflexivity.
      * by rewrite (Deallocate_indexed _ layout).
    + (* growth of the index *)
      destruct (addLength_indexed_run addBytes headSector size old slots1 bm1
                  d1 bm1 layout)
        as (layout' & news & slots' & f' & d' & Hrun2 & Hlen' & Hrep' & Hdr2
            & Hflat & _); fold nS; fold nN; try done; try lia.
      { split; [by constructor|]. intros v Hv.
        apply elem_of_cons in Hv as [->|Hv]; [done|].
        by destruct (Hin v Hv) as (_ & _ & ?). }
      fold nS in Hrun2, Hrep'.
      pose proof (drawn_app _ _ _ _ _ Hdr Hdr2) as Hall.
      set (h2 := mkFileHeader (size + addBytes) nS true slots') in *.
      assert (Hrep2 : indexed_rep (mkMachine h2 f' d' f') layout').
      { apply indexed_file_rep. by split. }
      destruct (free_list_undoes_drawn bm0 (flat layout ++ news)
                  (release_order layout') h2 f' d' f' Hall)
        as (bm3 & Hfree & Hbits).
      { by rewrite release_order_perm, Hflat. }
      exists (mkMachine h2 f' d' f'), (mkMachine h2 bm3 d' f').
      split; [by apply Hstep|]. split; [|done].
      by rewrite (Deallocate_indexed _ layout').
Qed.

(** ** The bounds of ByteToSector *)

Lemma quot_range a s L :
  0 < s → 0 < L → (0 <= a `quot` s < L ↔ - s < a < s * L).
Proof.
  intros Hs HL. pose proof (Z.quot_rem' a s) as Hqr.
  destruct (Z.le_gt_cases 0 a) as [Ha|Ha].
  - pose proof (Z.rem_bound_pos_pos a s Hs Ha). split; intros H1.
    + assert (s * (a `quot` s + 1) <= s * L)
        by (apply Z.mul_le_mono_nonneg_l; lia). lia.
    + split; [apply Z.quot_pos; lia|apply Z.quot_lt_upper_bound; lia].
  - pose proof (Z.rem_bound_pos_neg a s Hs ltac:(lia)). split; intros H1.
    + assert (0 <= s * (a `quot` s)) by (apply Z.mul_nonneg_nonneg; lia).
      assert (0 < s * L) by (apply Z.mul_pos_pos; lia). lia.
    + assert (a `quot` s = 0) as -> by (apply Z.quot_small_iff; lia). lia.
Qed.

(** X18.  In direct mode, with [n > 0] slots in [dataSectors],
    [ByteToSector] returns a value exactly for the offsets in
    [(-SectorSize, SectorSize * n)]: the division truncates, so a negative
    offset above [-SectorSize] is translated like offset 0, and the length
    of the file plays no part.  For every other offset the access is
    outside the array. *)
Theorem ByteToSector_direct_bounds m offset :
  useIndex (this m) = false →
  (0 < length (dataSectors (this m)))%nat →
  ((∃ v, ByteToSector offset m = Ret v m)
   ↔ - SectorSize < offset
       < SectorSize * Z.of_nat (length (dataSectors (this m)))) ∧
  (- SectorSize < offset <= 0 → ByteToSector offset m = ByteToSector 0 m) ∧
  (¬ (- SectorSize < offset
        < SectorSize * Z.of_nat (length (dataSectors (this m)))) →
   ByteToSector offset m = Undef m).
Proof.
  destruct m as [[nb ns ui slots] bm d f]. simpl. intros -> Hn.
  pose proof (quot_range offset SectorSize (Z.of_nat (length slots))
                SectorSize_pos ltac:(lia)) as Hq.
  assert (Hrun : ∀ o,
    ByteToSector o (mkMachine (mkFileHeader nb ns false slots) bm d f)
    = if o `quot` SectorSize <? 0
      then Undef (mkMachine (mkFileHeader nb ns false slots) bm d f)
      else match slots !! Z.to_nat (o `quot` SectorSize) with
           | Some v => Ret v (mkMachine (mkFileHeader nb ns false slots) bm d f)
           | None => Undef (mkMachine (mkFileHeader nb ns false slots) bm d f)
           end).
  { intros o. unfold ByteToSector, slot_read, array_get, bind, gets, undefined,
      ret. simpl.
    destruct (o `quot` SectorSize <? 0); [done|].
    by destruct (slots !! _). }
  split; [|split].
  - rewrite Hrun. split.
    + intros (v & Hv). apply Hq.
      destruct (Z.ltb_spec (offset `quot` SectorSize) 0); [done|].
      destruct (slots !! _) eqn:Hs; [|done].
      apply lookup_lt_Some in Hs. lia.
    + intros Hoff. apply Hq in Hoff.
      destruct (Z.ltb_spec (offset `quot` SectorSize) 0); [lia|].
      destruct (lookup_lt_is_Some_2 slots (Z.to_nat (offset `quot` SectorSize)))
        as [v Hv]; [lia|].
      exists v. by rewrite Hv.
  - intros Hoff. rewrite !Hrun.
    replace (offset `quot` SectorSize) with 0; [by rewrite Z.quot_0_l by lia|].
    symmetry. apply Z.quot_small_iff; lia.
  - intros Hoff. rewrite Hrun.
    destruct (Z.ltb_spec (offset `quot` SectorSize) 0); [done|].
    destruct (slots !! _) eqn:Hs; [|done].
    apply lookup_lt_Some in Hs. exfalso. apply Hoff, Hq. lia.
Qed.

End FileHeader.

(** * Instances in the illustrative configuration *)

Local Open Scope Z_scope.
Local Open Scope prog_scope.

Ltac by_eval := vm_compute; first [reflexivity | discriminate | intros; discriminate].

(** Allocating 1280 bytes for the empty header succeeds exactly when ten
    bits are clear. *)
Lemma Allocate_round_trip_witness :
  Z.of_nat (length (dataSectors (this empty_file))) = 30 ∧
  1 <= 1280 <= 30 * 32 * 128 ∧
  ((∃ m', Allocate 128 30 32 0 1280 empty_file = Ret true m')
   ↔ 10 <= bm_numClear (freeMap empty_file)).
Proof.
  split; [reflexivity|]. split; [lia|].
  exact (proj1 (Allocate_round_trip 128 30 32 0 ltac:(lia) ltac:(lia)
                  empty_file 1280 ltac:(reflexivity) ltac:(lia))).
Defined.

(** The migration scenario of the design document: ten sectors grown by
    3200 bytes to 35 sectors. *)
Lemma addLength_migrates_to_index_witness :
  30 < divRoundUp (1280 + 3200) 128 ∧
  ∃ sec (node : list Z) m',
    addLength 128 30 32 0 3200 1 ten_sectors = Ret true m' ∧
    bm_test (freeMapFile ten_sectors) sec = false ∧
    bm_test (freeMapFile m') sec = true ∧
    synchDisk m' !! sec = Some (NodeImage node) ∧
    (∀ i : nat, Z.of_nat i < 10 →
       node !! i = dataSectors (this ten_sectors) !! i) ∧
    dataSectors (this m') !! O = Some sec ∧
    useIndex (this m') = true.
Proof.
  split; [by_eval|].
  apply (addLength_migrates_to_index 128 30 32 0 ltac:(lia) ltac:(lia)
           ten_sectors 3200 1); by_eval.
Defined.

(** Releasing the ten-sector file a second time halts. *)
Lemma Deallocate_halts_on_free_sector_witness :
  0 < numSectors (this ten_sectors) ∧
  Deallocate 32 ten_sectors = Ret tt ten_sectors_released ∧
  ∃ m'', Deallocate 32 ten_sectors_released = AssertFail m''.
Proof.
  split; [by_eval|]. split; [by_eval|].
  apply (proj1 (proj2 (proj2 (Deallocate_halts_on_free_sector 32 ltac:(lia))))
           ten_sectors ten_sectors_released); by_eval.
Defined.

(** For the empty file that [Allocate] builds for size 0, [Deallocate]
    has nothing to release: it returns, and leaves the state in which the
    next call returns as well. *)
Lemma Deallocate_twice_empty_file :
  Allocate 128 30 32 0 0 empty_file = Ret true empty_file ∧
  Deallocate 32 empty_file = Ret tt empty_file ∧
  (Deallocate 32 ;; Deallocate 32) empty_file = Ret tt empty_file.
Proof. repeat split; by_eval. Qed.

(** Allocating 1280 bytes and releasing them again. *)
Lemma Deallocate_restores_NumClear_witness :
  Allocate 128 30 32 0 1280 empty_file = Ret true ten_sectors_fresh ∧
  ∃ m2, Deallocate 32 ten_sectors_fresh = Ret tt m2 ∧
        bm_numClear (freeMap m2) = bm_numClear (freeMap empty_file).
Proof.
  split; [by_eval|].
  apply (Deallocate_restores_NumClear 128 30 32 0 ltac:(lia)
           empty_file 1280 ten_sectors_fresh); by_eval.
Defined.

(** Byte 300 of the ten-sector file is in its third sector, disk sector 4. *)
Lemma ByteToSector_sector_of_spec_witness :
  300 < numBytes (this ten_sectors) ∧
  ByteToSector 128 32 300 ten_sectors = Ret 4 ten_sectors.
Proof.
  split; [by_eval|].
  exact (ByteToSector_sector_of_spec 128 32 ltac:(lia) ltac:(lia)
           ten_sectors 300 ltac:(lia) ltac:(by_eval)).
Defined.

(** The scenario of the design document: ten sectors grown by 2200 bytes
    to 28 sectors, still direct. *)
Lemma addLength_direct_keeps_sectors_witness :
  divRoundUp (1280 + 2200) 128 <= 30 ∧
  ∃ m', addLength 128 30 32 0 2200 1 ten_sectors = Ret true m' ∧
    (∀ i : nat,
       ¬ (numSectors (this ten_sectors) <= Z.of_nat i < numSectors (this m')) →
       dataSectors (this m') !! i = dataSectors (this ten_sectors) !! i) ∧
    (∀ offset, 0 <= offset < numBytes (this ten_sectors) →
       ∃ v, ByteToSector 128 32 offset ten_sectors = Ret v ten_sectors ∧
            ByteToSector 128 32 offset m' = Ret v m').
Proof.
  split; [by_eval|].
  apply (addLength_direct_keeps_sectors 128 30 32 0 ltac:(lia) ltac:(lia)
           ten_sectors 2200 1); try by_eval.
  unfold sector_count_ok. simpl. lia.
Defined.

(** 1280 bytes are ten sectors. *)
Lemma numSectors_is_ceiling_witness :
  Allocate 128 30 32 0 1280 empty_file = Ret true ten_sectors_fresh ∧
  sector_count_ok 128 (this ten_sectors_fresh).
Proof.
  split; [by_eval|].
  apply (proj1 (numSectors_is_ceiling 128 30 32 0 ltac:(lia))
           empty_file 1280 ten_sectors_fresh); by_eval.
Defined.

(** Ten sectors fit the header: direct mode.  Grown by 5000 bytes to 50
    sectors, the file is in indexed mode. *)
Lemma useIndex_iff_numSectors_gt_NumFirst_witness :
  Allocate 128 30 32 0 1280 empty_file = Ret true ten_sectors_fresh ∧
  mode_ok 30 (this ten_sectors_fresh) ∧
  sector_count_ok 128 (this ten_sectors) ∧ mode_ok 30 (this ten_sectors) ∧
  ∃ m', addLength 128 30 32 0 5000 1 ten_sectors = Ret true m' ∧
        mode_ok 30 (this m').
Proof.
  pose proof (useIndex_iff_numSectors_gt_NumFirst 128 30 32 0 ltac:(lia))
    as [HA HG].
  assert (Hok : sector_count_ok 128 (this ten_sectors)) by (split; by_eval).
  assert (Hmode : mode_ok 30 (this ten_sectors)) by (split; by_eval).
  split; [by_eval|].
  split; [apply (HA empty_file 1280 ten_sectors_fresh); by_eval|].
  split; [exact Hok|]. split; [exact Hmode|].
  exists (match addLength 128 30 32 0 5000 1 ten_sectors with
          | Ret _ x | AssertFail x | Undef x => x
          end).
  split; [by_eval|].
  apply (HG ten_sectors 5000 1); [lia|exact Hok|exact Hmode|by_eval].
Defined.

(** A negative [addBytes]: the indexed file of 40 sectors, on which sector
    count and mode flag are as the invariants demand, shrunk by 2000 bytes.
    [addLength] takes the direct-growth branch with an empty loop and
    returns TRUE; the header has 24 sectors, within [NumFirst], and the
    mode flag is still set. *)
Lemma addLength_negative_keeps_index_flag :
  sector_count_ok 128 (this forty_sectors) ∧
  mode_ok 30 (this forty_sectors) ∧
  match addLength 128 30 32 0 (-2000) 1 forty_sectors with
  | Ret b m' =>
      b = true ∧ numSectors (this m') = 24 ∧ useIndex (this m') = true
  | _ => False
  end.
Proof.
  split; [split; by_eval|]. split; [split; by_eval|].
  vm_compute. repeat split; reflexivity.
Qed.

(** C2.  With no clear bit left in the bitmap, growing the ten-sector
    file by one sector returns TRUE, and the new slot holds the [-1] that
    [Find] gave. *)
Theorem addLength_exhausted_returns_TRUE :
  bm_numClear (freeMapFile ten_sectors_full_disk) = 0 ∧
  match addLength 128 30 32 0 128 1 ten_sectors_full_disk with
  | Ret b m' =>
      b = true ∧ numSectors (this m') = 11 ∧
      dataSectors (this m') !! 10%nat = Some (-1)
  | _ => False
  end.
Proof. vm_compute. repeat split; reflexivity. Qed.

(** X19.  [addLength] has no path on which it returns FALSE: whenever
    it returns, its result is TRUE. *)
Lemma addLength_never_returns_FALSE SectorSize NumFirst NumSecond uninit
    addBytes headSector m b m' :
  addLength SectorSize NumFirst NumSecond uninit addBytes headSector m = Ret b m' →
  b = true.
Proof. intros H. by apply addLength_fields in H as (-> & _). Qed.

(** C7.  Growing the empty file to 122881 bytes needs 31 index nodes.
    [addLength] does not reject the request: it updates the header,
    draws 992 sectors, writes index nodes, and then stores through
    [dataSectors[30]], outside the array. *)
Theorem addLength_beyond_limit_overruns_slots :
  30 < divRoundUp (divRoundUp (0 + 122881) 128) 32 ∧
  match addLength 128 30 32 0 122881 1 empty_file with
  | Undef m' =>
      numBytes (this m') = 122881 ∧ numSectors (this m') = 961 ∧
      useIndex (this m') = true ∧
      dataSectors (this m') !! 29%nat = Some 960 ∧
      bm_numClear (freeMap m') = bm_numClear (freeMap empty_file) - 992 ∧
      is_Some (synchDisk m' !! 960)
  | _ => False
  end.
Proof.
  split; [by_eval|]. vm_compute.
  repeat split; try reflexivity. eexists. reflexivity.
Qed.

(** * Instances of the further properties *)

Ltac by_evals := first [by_eval | split; by_eval].

(** Two sectors asked of a full disk. *)
Lemma Allocate_FALSE_draws_nothing_witness :
  ∃ m', Allocate 128 30 32 0 256 ten_sectors_full_disk = Ret false m' ∧
        freeMap m' = freeMap ten_sectors_full_disk ∧
        dataSectors (this m') = dataSectors (this ten_sectors_full_disk) ∧
        numBytes (this m') = 256.
Proof.
  exists (mkMachine (mkFileHeader 256 2 false (dataSectors ten_sectors_header))
            (replicate 1024 true) ∅ (replicate 1024 true)).
  split; [by_eval|].
  pose proof (Allocate_FALSE_draws_nothing 128 30 32 0 ten_sectors_full_disk 256
                _ ltac:(by_eval)) as (_ & H1 & _ & _ & H2 & H3 & _).
  exact (conj H1 (conj H2 H3)).
Defined.

(** The ten sectors of a 1280-byte file were clear in the bitmap of the
    empty disk. *)
Lemma Allocate_takes_free_sectors_witness :
  Allocate 128 30 32 0 1280 empty_file = Ret true ten_sectors_fresh ∧
  bm_numClear (freeMap ten_sectors_fresh) = bm_numClear (freeMap empty_file) - 10 ∧
  ∀ offset v, 0 <= offset < 1280 →
    ByteToSector 128 32 offset ten_sectors_fresh = Ret v ten_sectors_fresh →
    bm_test (freeMap empty_file) v = false.
Proof.
  split; [by_eval|].
  pose proof (Allocate_takes_free_sectors 128 30 32 0 ltac:(lia) ltac:(lia)
                empty_file 1280 ten_sectors_fresh ltac:(by_eval) ltac:(lia)
                ltac:(by_eval)) as (H1 & H2 & _).
  exact (conj H1 H2).
Defined.

(** A file of 5000 bytes: 40 data sectors under two index nodes. *)
Lemma Allocate_index_nodes_hold_no_data_witness :
  30 < divRoundUp 5000 128 ∧
  ∃ m', Allocate 128 30 32 0 5000 empty_file = Ret true m' ∧
    ∀ offset v (k : nat),
      0 <= offset < 5000 → ByteToSector 128 32 offset m' = Ret v m' →
      Z.of_nat k < divRoundUp (divRoundUp 5000 128) 32 →
      dataSectors (this m') !! k ≠ Some v.
Proof.
  split; [by_eval|].
  exists (match Allocate 128 30 32 0 5000 empty_file with
          | Ret _ x | AssertFail x | Undef x => x
          end).
  split; [by_eval|].
  apply (Allocate_index_nodes_hold_no_data 128 30 32 0 ltac:(lia) ltac:(lia)
           empty_file 5000); by_eval.
Defined.

Lemma Deallocate_undoes_Allocate_witness :
  ∃ m1, Allocate 128 30 32 0 5000 empty_file = Ret true m1 ∧
  ∃ m2, Deallocate 32 m1 = Ret tt m2 ∧
        (∀ v, bm_test (freeMap m2) v = bm_test (freeMap empty_file) v) ∧
        this m2 = this m1 ∧ synchDisk m2 = synchDisk m1.
Proof.
  exists (match Allocate 128 30 32 0 5000 empty_file with
          | Ret _ x | AssertFail x | Undef x => x
          end).
  split; [by_eval|].
  apply (Deallocate_undoes_Allocate 128 30 32 0 ltac:(lia) empty_file 5000);
    by_eval.
Defined.

Lemma Deallocate_only_clears_bits_witness :
  Deallocate 32 ten_sectors = Ret tt ten_sectors_released ∧
  this ten_sectors_released = this ten_sectors ∧
  synchDisk ten_sectors_released = synchDisk ten_sectors ∧
  ∀ v, bm_test (freeMap ten_sectors_released) v = true →
       bm_test (freeMap ten_sectors) v = true.
Proof.
  split; [by_eval|].
  apply (Deallocate_only_clears_bits 32 ten_sectors ten_sectors_released).
  by_eval.
Defined.

(** Growing the ten-sector file by one sector, its header in sector 1. *)
Lemma addLength_writes_header_back_witness :
  ∃ m', addLength 128 30 32 0 128 1 ten_sectors = Ret true m' ∧
    synchDisk m' !! 1 = Some (HeaderImage (this m')) ∧
    (divRoundUp (numBytes (this ten_sectors) + 128) 128
       ≠ numSectors (this ten_sectors) →
     freeMapFile m' = freeMap m').
Proof.
  exists (match addLength 128 30 32 0 128 1 ten_sectors with
          | Ret _ x | AssertFail x | Undef x => x
          end).
  split; [by_eval|].
  apply (addLength_writes_header_back 128 30 32 0 128 1 ten_sectors true).
  by_eval.
Defined.

Lemma addLength_direct_draws_fresh_witness :
  numSectors (this ten_sectors) < divRoundUp (numBytes (this ten_sectors) + 256) 128 ∧
  ∃ (l : list Z) m',
    addLength 128 30 32 0 256 1 ten_sectors = Ret true m' ∧
    Z.of_nat (length l) = divRoundUp (numBytes (this ten_sectors) + 256) 128
                          - numSectors (this ten_sectors) ∧
    drawn (freeMapFile ten_sectors) l (freeMapFile m') ∧
    ∀ offset,
      128 * numSectors (this ten_sectors) <= offset
        < 128 * divRoundUp (numBytes (this ten_sectors) + 256) 128 →
      ∃ v, l !! Z.to_nat (offset `div` 128 - numSectors (this ten_sectors)) = Some v ∧
           ByteToSector 128 32 offset m' = Ret v m'.
Proof.
  split; [by_eval|].
  apply (addLength_direct_draws_fresh 128 30 32 0 ltac:(lia) ltac:(lia)
           ten_sectors 256 1); by_evals.
Defined.

Lemma addLength_direct_exhausted_witness :
  bm_numClear (freeMapFile ten_sectors_full_disk)
    < divRoundUp (numBytes (this ten_sectors_full_disk) + 256) 128
      - numSectors (this ten_sectors_full_disk) ∧
  ∃ m', addLength 128 30 32 0 256 1 ten_sectors_full_disk = Ret true m' ∧
    bm_numClear (freeMapFile m') = 0 ∧
    ∀ offset,
      128 * (numSectors (this ten_sectors_full_disk)
             + bm_numClear (freeMapFile ten_sectors_full_disk)) <= offset
        < 128 * divRoundUp (numBytes (this ten_sectors_full_disk) + 256) 128 →
      ByteToSector 128 32 offset m' = Ret (-1) m'.
Proof.
  split; [by_eval|].
  apply (addLength_direct_exhausted 128 30 32 0 ltac:(lia) ltac:(lia)
           ten_sectors_full_disk 256 1); by_eval.
Defined.

Lemma addLength_migration_keeps_sectors_witness :
  30 < divRoundUp (numBytes (this ten_sectors) + 5000) 128 ∧
  ∃ m', addLength 128 30 32 0 5000 1 ten_sectors = Ret true m' ∧
    ∀ offset, 0 <= offset < numBytes (this ten_sectors) →
      ∃ v, ByteToSector 128 32 offset ten_sectors = Ret v ten_sectors ∧
           ByteToSector 128 32 offset m' = Ret v m'.
Proof.
  split; [by_eval|].
  apply (addLength_migration_keeps_sectors 128 30 32 0 ltac:(lia) ltac:(lia)
           ltac:(lia) ten_sectors 5000 1); by_evals.
Defined.

Lemma ByteToSector_reads_only_witness :
  ByteToSector 128 32 130 ten_sectors = Ret 3 ten_sectors ∧
  ∀ nb ns,
    ByteToSector 128 32 130
      (with_this (λ h, mkFileHeader nb ns (useIndex h) (dataSectors h)) ten_sectors)
    = Ret 3 (with_this (λ h, mkFileHeader nb ns (useIndex h) (dataSectors h))
               ten_sectors).
Proof.
  split; [by_eval|].
  apply (ByteToSector_reads_only 128 32 130 ten_sectors 3 ten_sectors).
  by_eval.
Defined.

(** 122881 bytes need 961 sectors under 31 index nodes. *)
Lemma Allocate_beyond_capacity_overruns_witness :
  30 < divRoundUp (divRoundUp 122881 128) 32 ∧
  divRoundUp 122881 128 + divRoundUp (divRoundUp 122881 128) 32
    <= bm_numClear (freeMap empty_file) ∧
  ∃ m', Allocate 128 30 32 0 122881 empty_file = Undef m'.
Proof.
  split; [by_eval|]. split; [by_eval|].
  apply (Allocate_beyond_capacity_overruns 128 30 32 0 ltac:(lia) ltac:(lia)
           empty_file 122881); by_eval.
Defined.

Ltac by_decide := apply (bool_decide_unpack _); vm_compute; exact I.

Ltac by_owned :=
  split; [by_decide|apply Forall_forall; by_decide].

Lemma Deallocate_returns_iff_sectors_owned_witness :
  direct_rep ten_sectors (seqZ 2 10) ∧
  ((∃ m', Deallocate 32 ten_sectors = Ret tt m')
   ↔ owned (freeMap ten_sectors) (seqZ 2 10)).
Proof.
  assert (H : direct_rep ten_sectors (seqZ 2 10)) by (repeat split; by_eval).
  split; [exact H|].
  exact (proj1 (Deallocate_returns_iff_sectors_owned 32 ten_sectors (seqZ 2 10)
                  (or_introl H))).
Defined.

(** [forty_sectors] is what [Allocate] builds for 5000 bytes. *)
Lemma forty_sectors_allocated :
  ∃ m1, Allocate 128 30 32 0 5000 empty_file = Ret true m1 ∧
        this m1 = this forty_sectors ∧ freeMap m1 = freeMap forty_sectors ∧
        synchDisk m1 = synchDisk forty_sectors.
Proof.
  exists (match Allocate 128 30 32 0 5000 empty_file with
          | Ret _ x | AssertFail x | Undef x => x
          end).
  split; [by_eval|]. split; [by_eval|]. split; by_eval.
Qed.

Lemma forty_sectors_indexed_file :
  indexed_file 32 forty_sectors forty_sectors_layout.
Proof.
  split; [reflexivity|]. split; [by_eval|].
  intros [|[|k]] s es Hk; [| |done]; injection Hk as <- <-.
  - split; [by_eval|]. split; [lia|]. split; [by_eval|].
    exists (seqZ 3 32). repeat split; by_eval.
  - split; [by_eval|]. split; [lia|]. split; [by_eval|].
    exists (seqZ 36 8 ++ replicate 24 0). repeat split; by_eval.
Qed.

(** The indexed file grown by 5000 bytes to 79 sectors under three nodes. *)
Lemma addLength_indexed_growth_witness :
  indexed_file 32 forty_sectors forty_sectors_layout ∧
  owned (freeMapFile forty_sectors) (1 :: flat forty_sectors_layout) ∧
  ∃ (layout' : list (Z * list Z)) (news : list Z) m',
    addLength 128 30 32 0 5000 1 forty_sectors = Ret true m' ∧
    indexed_file 32 m' layout' ∧
    drawn (freeMapFile forty_sectors) news (freeMapFile m') ∧
    flat layout' = flat forty_sectors_layout ++ news.
Proof.
  assert (Hown : owned (freeMapFile forty_sectors) (1 :: flat forty_sectors_layout))
    by by_owned.
  split; [exact forty_sectors_indexed_file|]. split; [exact Hown|].
  destruct (addLength_indexed_growth 128 30 32 0 ltac:(lia) ltac:(lia)
              forty_sectors 5000 1 forty_sectors_layout
              forty_sectors_indexed_file ltac:(by_eval) Hown ltac:(by_evals)
              ltac:(by_eval) ltac:(by_eval) ltac:(by_eval))
    as (layout' & news & m' & H1 & H2 & H3 & H4 & _).
  exists layout', news, m'. auto.
Defined.

Lemma addLength_migration_builds_indexed_file_witness :
  owned (freeMapFile ten_sectors) (1 :: take 10 (dataSectors (this ten_sectors))) ∧
  ∃ (layout' : list (Z * list Z)) (news : list Z) m',
    addLength 128 30 32 0 5000 1 ten_sectors = Ret true m' ∧
    indexed_file 32 m' layout' ∧
    drawn (freeMapFile ten_sectors) news (freeMapFile m') ∧
    flat layout' ≡ₚ take 10 (dataSectors (this ten_sectors)) ++ news ∧
    ∃ m2, Deallocate 32 m' = Ret tt m2 ∧
          bm_numClear (freeMap m2) = bm_numClear (freeMapFile ten_sectors) + 10.
Proof.
  assert (Hown : owned (freeMapFile ten_sectors)
                   (1 :: take 10 (dataSectors (this ten_sectors)))) by by_owned.
  split; [exact Hown|].
  destruct (addLength_migration_builds_indexed_file 128 30 32 0 ltac:(lia)
              ltac:(lia) ten_sectors 5000 1 ltac:(by_eval) ltac:(by_eval)
              ltac:(by_eval) ltac:(by_eval) ltac:(by_eval) ltac:(by_eval)
              ltac:(by_eval) Hown ltac:(by_eval))
    as (layout' & news & m' & H1 & H2 & H3 & H4 & _ & _ & H5).
  exists layout', news, m'. auto.
Defined.

(** The empty file grown to 5000 bytes: 43 sectors are drawn, 42 are in
    the file. *)
Lemma addLength_from_empty_leaks_a_sector_witness :
  numSectors (this empty_file) = 0 ∧
  ∃ sec m' m2,
    addLength 128 30 32 0 5000 1 empty_file = Ret true m' ∧
    bm_test (freeMapFile empty_file) sec = false ∧
    Deallocate 32 m' = Ret tt m2 ∧
    bm_test (freeMap m2) sec = true ∧
    bm_numClear (freeMap m2) = bm_numClear (freeMapFile empty_file) - 1.
Proof.
  split; [reflexivity|].
  destruct (addLength_from_empty_leaks_a_sector 128 30 32 0 ltac:(lia)
              ltac:(lia) ltac:(lia) empty_file 5000 1 ltac:(by_eval)
              ltac:(by_eval) ltac:(by_eval) ltac:(by_eval) ltac:(by_eval)
              ltac:(by_eval) ltac:(by_eval))
    as (sec & m' & m2 & H1 & H2 & _ & _ & _ & H3 & H4 & H5).
  exists sec, m', m2. auto.
Defined.

(** 1280 bytes allocated, grown by 5000 bytes, released. *)
Lemma Allocate_addLength_Deallocate_round_trip_witness :
  Allocate 128 30 32 0 1280 empty_file = Ret true ten_sectors_fresh ∧
  ∃ m2 m3,
    (WriteBack_freeMapFile ;; addLength 128 30 32 0 5000 1) ten_sectors_fresh
    = Ret true m2 ∧
    Deallocate 32 m2 = Ret tt m3 ∧
    ∀ v, bm_test (freeMap m3) v = bm_test (freeMap empty_file) v.
Proof.
  split; [by_eval|].
  apply (Allocate_addLength_Deallocate_round_trip 128 30 32 0 ltac:(lia)
           ltac:(lia) empty_file 1280 5000 1 ten_sectors_fresh); by_eval.
Defined.

Lemma ByteToSector_direct_bounds_witness :
  useIndex (this ten_sectors) = false ∧
  ByteToSector 128 32 (-5) ten_sectors = ByteToSector 128 32 0 ten_sectors ∧
  ByteToSector 128 32 (-128) ten_sectors = Undef ten_sectors.
Proof.
  split; [reflexivity|].
  pose proof (ByteToSector_direct_bounds 128 32 ltac:(lia) ten_sectors (-5)
                ltac:(reflexivity) ltac:(vm_compute; lia)) as (_ & H1 & _).
  pose proof (ByteToSector_direct_bounds 128 32 ltac:(lia) ten_sectors (-128)
                ltac:(reflexivity) ltac:(vm_compute; lia)) as (_ & _ & H2).
  split; [apply H1; lia|apply H2; lia].
Defined.

Lemma addLength_never_returns_FALSE_witness :
  ∃ b m', addLength 128 30 32 0 128 1 ten_sectors_full_disk = Ret b m' ∧ b = true.
Proof.
  exists true,
    (match addLength 128 30 32 0 128 1 ten_sectors_full_disk with
     | Ret _ x | AssertFail x | Undef x => x
     end).
  split; [by_eval|].
  apply (addLength_never_returns_FALSE 128 30 32 0 128 1 ten_sectors_full_disk
           true
           (match addLength 128 30 32 0 128 1 ten_sectors_full_disk with
            | Ret _ x | AssertFail x | Undef x => x
            end)).
  by_eval.
Defined.
